(** * Flowise flow analysis: a shallow embedding of [flowise_mcp]

    Definitions come first:
    - [PyStr]: Python strings and the string primitives the analyser and the
      renderer rely on ([str.lower], [str.title], the substring test
      [kw in text], [sorted]);
    - [categorize_node], the ordered keyword classifier;
    - decoded JSON values, dictionaries, the record built by
      [analyze_flow_data], and [analyze_flow_data] itself as a function into
      an error result (Python exceptions are values of [exn]);
    - [Json]: the text format, [json.dumps(_, indent=2)] and [json.loads];
    - [format_analysis] in both output modes;
    - [Store]: [analyze_flow_data] once more over a heap of mutable objects,
      for the statements about what a call does to its arguments;
    - the two other formatters of [utils.py], [format_flow_list] and
      [format_flow_detail];
    - of [models.py], the flow types and the validators of [flow_data];
    - [Client]: [get_config], [make_api_request] and [handle_api_error] of
      [client.py];
    - [Server]: the three tools of [server.py] that call the formatters.
    The properties follow: first those of the analyser and of
    [format_analysis], then, under the heading of further properties, those
    of the rest.

    Modelling boundary.  A Python [str] is modelled by [string]: a sequence
    of characters with codes below 256, read as code points; [lower],
    [escape_char] and [repr_char] are Python's on that range, and so is
    [str_title] except where [str.title] leaves the range (the capitals of
    the micro sign and of the y with diaeresis).  JSON numbers are integers
    ([Z]); fractional literals are outside the model.  The decoder used by
    [analyze_flow_data], by [format_flow_detail] and by the validators is a
    parameter, a function that returns a value or raises any exception, so
    that what is proved of them holds for any decoder; [Json.json_loads]
    instantiates it on concrete flows.  The HTTP exchange, the process
    environment and Python's floats are parameters of [Client]; the wording
    of the messages of Python's own exceptions is an input of the tools. *)

From Stdlib Require Import List String Ascii Bool Arith ZArith Lia.
From Stdlib Require Import Decimal DecimalString DecimalNat DecimalN.
From Stdlib Require Import Sorting.Permutation Sorting.Sorted.
Import ListNotations.

Open Scope string_scope.
Open Scope list_scope.

(* ===================================================================== *)
(** ** Python string primitives *)
(* ===================================================================== *)

Module PyStr.

(** [c.lower()] for one character: the ASCII capitals and the Latin-1
    capitals (192..222 except the multiplication sign 215) move up by 32. *)
Definition lower_char (c : ascii) : ascii :=
  let n := nat_of_ascii c in
  if (((65 <=? n) && (n <=? 90))
      || ((192 <=? n) && (n <=? 214))
      || ((216 <=? n) && (n <=? 222)))%nat
  then ascii_of_nat (n + 32)
  else c.

(** [s.lower()] *)
Fixpoint lower (s : string) : string :=
  match s with
  | EmptyString => EmptyString
  | String c t => String (lower_char c) (lower t)
  end.

(** [s.startswith(p)] *)
Fixpoint starts_with (p s : string) : bool :=
  match p, s with
  | EmptyString, _ => true
  | String _ _, EmptyString => false
  | String a p', String b s' => Ascii.eqb a b && starts_with p' s'
  end.

(** [needle in hay] on strings: substring search, left to right. *)
Fixpoint str_in (needle hay : string) : bool :=
  if starts_with needle hay then true
  else match hay with
       | EmptyString => false
       | String _ t => str_in needle t
       end.

(** The capital of a small letter whose capital is one character with a
    code below 256; any other character is left as it is. *)
Definition upper_char (c : ascii) : ascii :=
  let n := nat_of_ascii c in
  if (((97 <=? n) && (n <=? 122))
      || ((224 <=? n) && (n <=? 246))
      || ((248 <=? n) && (n <=? 254)))%nat
  then ascii_of_nat (n - 32)
  else c.

(** [c.title()] for one character.  The sharp s (223) becomes the two
    letters [Ss].  The micro sign (181) and the y with diaeresis (255)
    become the code points 924 and 376, which a [string] cannot hold: on
    these two characters [title_char] is not Python's, and they are the only
    ones ([title_in_range]). *)
Definition title_char (c : ascii) : string :=
  if (nat_of_ascii c =? 223)%nat then "Ss"
  else String (upper_char c) EmptyString.

(** Whether a character is a cased letter. *)
Definition is_cased (c : ascii) : bool :=
  let n := nat_of_ascii c in
  (((65 <=? n) && (n <=? 90)) || ((97 <=? n) && (n <=? 122))
   || (n =? 170) || (n =? 181) || (n =? 186)
   || ((192 <=? n) && (n <=? 214)) || ((216 <=? n) && (n <=? 246))
   || (248 <=? n))%nat.

(** [s.title()]: a letter that follows a cased letter is lowered, any other
    is capitalised. *)
Fixpoint title_from (previous_is_cased : bool) (s : string) : string :=
  match s with
  | EmptyString => EmptyString
  | String c t =>
      ((if previous_is_cased then String (lower_char c) EmptyString
        else title_char c)
       ++ title_from (is_cased c) t)%string
  end.

Definition str_title (s : string) : string := title_from false s.

(** No micro sign and no y with diaeresis stands where [s.title()]
    capitalises: the title of [s] is a [string], and [str_title s] is it. *)
Fixpoint title_in_range_from (previous_is_cased : bool) (s : string) : bool :=
  match s with
  | EmptyString => true
  | String c t =>
      (previous_is_cased
       || negb ((nat_of_ascii c =? 181) || (nat_of_ascii c =? 255))%nat)
      && title_in_range_from (is_cased c) t
  end.

Definition title_in_range (s : string) : bool := title_in_range_from false s.

(** [s.replace(old, new)] for one-character [old] and [new]. *)
Fixpoint replace_char (old new : ascii) (s : string) : string :=
  match s with
  | EmptyString => EmptyString
  | String c t =>
      String (if Ascii.eqb c old then new else c) (replace_char old new t)
  end.

(** [sorted(l, key=..)] and [sorted(l)]: Python's sort is stable, and a
    stable sort has one possible result, which insertion from the right
    computes.  [le x y] is the negation of [y < x]. *)
Fixpoint insert_sorted {A : Type} (le : A -> A -> bool) (x : A) (l : list A)
  : list A :=
  match l with
  | [] => [x]
  | y :: l' => if le x y then x :: l else y :: insert_sorted le x l'
  end.

Fixpoint py_sorted {A : Type} (le : A -> A -> bool) (l : list A) : list A :=
  match l with
  | [] => []
  | x :: l' => insert_sorted le x (py_sorted le l')
  end.

(** [needle] occurs in [hay] up to letter case. *)
Definition occurs_ci (needle hay : string) : Prop :=
  exists pre w post, hay = (pre ++ w ++ post)%string /\ lower w = needle.

End PyStr.
Import PyStr.

(* ===================================================================== *)
(** ** Node classifier *)
(* ===================================================================== *)

(** The rule table of [categorize_node], in source order. *)
Definition categories : list (list string * string) :=
  [ (["llm"; "gpt"; "claude"; "anthropic"; "openai"; "gemini"; "mistral"], "llm");
    (["memory"; "buffer"; "window"], "memory");
    (["vector"; "chroma"; "pinecone"; "faiss"; "weaviate"; "qdrant"; "milvus"], "vector_store");
    (["retriever"; "retrieval"], "retriever");
    (["loader"; "document"; "pdf"; "csv"], "document_loader");
    (["embed"; "embedding"], "embeddings");
    (["tool"; "serp"; "calculator"; "request"; "browser"], "tool");
    (["prompt"; "template"], "prompt");
    (["agent"; "supervisor"; "worker"], "agent");
    (["chain"; "sequential"], "chain");
    (["splitter"; "chunk"], "text_splitter");
    (["moderation"], "moderation");
    (["cache"], "cache");
    (["parser"; "output"], "output_parser") ].

(** [any(kw in node_lower for kw in keywords)] *)
Definition any_kw_in (keywords : list string) (node_lower : string) : bool :=
  existsb (fun kw => str_in kw node_lower) keywords.

(** The [for keywords, category in categories] loop with its early return,
    and the final [return "other"]. *)
Fixpoint first_match (rules : list (list string * string)) (node_lower : string)
  : string :=
  match rules with
  | [] => "other"
  | (keywords, category) :: rest =>
      if any_kw_in keywords node_lower then category
      else first_match rest node_lower
  end.

Definition categorize_node (node_type : string) : string :=
  first_match categories (lower node_type).

(** "The keyword set has at least one keyword occurring as a substring of
    the text": the matching condition of one rule, stated on its own. *)
Definition rule_matches (keywords : list string) (text : string) : Prop :=
  exists kw pre post, In kw keywords /\ text = (pre ++ kw ++ post)%string.

(** The keyword sets of rule 9 and rule 14. *)
Definition agent_keywords : list string := ["agent"; "supervisor"; "worker"].
Definition output_keywords : list string := ["parser"; "output"].

(* ===================================================================== *)
(** ** Decoded JSON values and Python's view of them *)
(* ===================================================================== *)

(** What [json.loads] builds: [None], [bool], [int], [str], [list] and
    [dict].  A [dict] keeps its keys in insertion order, so it is an
    association list; its keys are unique in every value a decoder builds. *)
#[local] Unset Elimination Schemes.
Inductive json : Type :=
| JNull
| JBool (b : bool)
| JNum (n : Z)
| JStr (s : string)
| JArr (items : list json)
| JObj (fields : list (string * json)).
#[local] Set Elimination Schemes.

Definition pydict : Type := list (string * json).

(** The Python exceptions that occur in the models: a method or an
    operation applied to a value of the wrong type, a missing key, a dict or
    set that changed size while it was iterated, and the three exceptions
    of [json.loads]: [JSONDecodeError] for a text that is not JSON,
    [ValueError] for an integer literal with more digits than [int]
    converts, [RecursionError] for a nesting deeper than the interpreter
    allows.  In Python [JSONDecodeError] is a subclass of [ValueError]; an
    [except json.JSONDecodeError] clause catches the first and not the
    second. *)
Inductive exn : Type :=
| AttributeError | TypeError | KeyError | RuntimeError
| JSONDecodeError | ValueError | RecursionError.

Inductive result (A : Type) : Type :=
| Ok (a : A)
| Raise (e : exn).
Arguments Ok {A} a.
Arguments Raise {A} e.

Definition bind {A B : Type} (m : result A) (k : A -> result B) : result B :=
  match m with
  | Ok a => k a
  | Raise e => Raise e
  end.

Notation "x <- m ;; k" := (bind m (fun x => k))
  (at level 61, m at next level, right associativity).

(** [for x in xs: body], stopping at the first exception. *)
Fixpoint for_each {A S : Type} (body : S -> A -> result S) (xs : list A) (st : S)
  : result S :=
  match xs with
  | [] => Ok st
  | x :: rest => st' <- body st x ;; for_each body rest st'
  end.

(** The value stored under [key] in a dict, if any. *)
Fixpoint lookup {V : Type} (d : list (string * V)) (key : string) : option V :=
  match d with
  | [] => None
  | (k, v) :: rest => if String.eqb k key then Some v else lookup rest key
  end.

(** [d[k] = v]: a present key keeps its place, a new one goes last. *)
Fixpoint dict_set {V : Type} (d : list (string * V)) (k : string) (v : V)
  : list (string * V) :=
  match d with
  | [] => [(k, v)]
  | (k', v') :: rest =>
      if String.eqb k' k then (k', v) :: rest else (k', v') :: dict_set rest k v
  end.

(** [d.get(key, default)] on a dict. *)
Definition dict_get (d : pydict) (key : string) (default : json) : json :=
  match lookup d key with
  | Some v => v
  | None => default
  end.

(** [obj.get(key, default)] on any decoded value: only a dict has [get]. *)
Definition py_get (obj : json) (key : string) (default : json) : result json :=
  match obj with
  | JObj d => Ok (dict_get d key default)
  | _ => Raise AttributeError
  end.

(** The one-character strings of a string, as iteration yields them. *)
Fixpoint chars (s : string) : list json :=
  match s with
  | EmptyString => []
  | String c t => JStr (String c EmptyString) :: chars t
  end.

(** [iter(obj)]: a list yields its items, a dict its keys, a string its
    characters; the other values are not iterable. *)
Definition py_iter (obj : json) : result (list json) :=
  match obj with
  | JArr items => Ok items
  | JObj d => Ok (map (fun kv => JStr (fst kv)) d)
  | JStr s => Ok (chars s)
  | _ => Raise TypeError
  end.

(** [len(obj)] *)
Definition py_len (obj : json) : result nat :=
  match obj with
  | JArr items => Ok (List.length items)
  | JObj d => Ok (List.length d)
  | JStr s => Ok (String.length s)
  | _ => Raise TypeError
  end.

(** [bool(obj)] *)
Definition truthy (obj : json) : bool :=
  match obj with
  | JNull => false
  | JBool b => b
  | JNum n => negb (Z.eqb n 0)
  | JStr s => negb (String.eqb s EmptyString)
  | JArr items => match items with [] => false | _ => true end
  | JObj d => match d with [] => false | _ => true end
  end.

(** [str(n)] for a natural number and for an integer. *)
Definition str_of_nat (n : nat) : string :=
  NilEmpty.string_of_uint (Nat.to_uint n).

Definition str_of_Z (n : Z) : string :=
  if (n <? 0)%Z then "-" ++ NilEmpty.string_of_uint (N.to_uint (Z.abs_N n))
  else NilEmpty.string_of_uint (N.to_uint (Z.abs_N n)).

(** A set of strings, as [categories_found]. *)
Definition str_set : Type := list string.

Definition set_add (x : string) (s : str_set) : str_set :=
  if existsb (String.eqb x) s then s else s ++ [x].

Definition set_mem (x : string) (s : str_set) : bool :=
  existsb (String.eqb x) s.

(* ===================================================================== *)
(** ** The analysis record *)
(* ===================================================================== *)

(** One entry of [analysis["nodes"]]: the dict
    [{"id": .., "type": .., "label": .., "category": ..}]. *)
Record node_entry : Type := mk_node {
  node_id : json;
  node_type : string;
  node_label : json;
  node_category : string
}.

(** One entry of [analysis["suggestions"]].  The keys [tips] and
    [nodes_to_add] are each present in some suggestions only. *)
Record suggestion : Type := mk_suggestion {
  priority : string;
  sug_category : string;
  title : string;
  description : string;
  tips : option (list string);
  nodes_to_add : option (list string)
}.

(** One entry of [analysis["best_practices"]]. *)
Record best_practice : Type := mk_practice {
  bp_category : string;
  bp_title : string;
  bp_tips : list string
}.

(** The dict [analysis], key by key in the order of its literal. *)
Record analysis : Type := mk_analysis {
  flow_name : json;
  flow_type : json;
  summary : string;
  nodes : list node_entry;
  suggestions : list suggestion;
  best_practices : list best_practice;
  potential_issues : list string
}.

(* ===================================================================== *)
(** ** [analyze_flow_data] *)
(* ===================================================================== *)

(** [categorize_node(node_type)] on a decoded value: the call to
    [node_type.lower()] needs a string. *)
Definition categorize_value (node_type : json) : result (string * string) :=
  match node_type with
  | JStr t => Ok (t, categorize_node t)
  | _ => Raise AttributeError
  end.

(** Body of [for node in nodes]; the loop state is
    [(categories_found, analysis["nodes"])]. *)
Definition node_step (st : str_set * list node_entry) (node : json)
  : result (str_set * list node_entry) :=
  let '(categories_found, entries) := st in
  node_data <- py_get node "data" (JObj []) ;;
  name_default <- py_get node_data "name" (JStr "Unknown") ;;
  node_type <- py_get node_data "type" name_default ;;
  id_default <- py_get node "id" (JStr "Unnamed") ;;
  node_label <- py_get node_data "label" id_default ;;
  tc <- categorize_value node_type ;;
  let '(type_text, category) := tc in
  let categories_found := set_add category categories_found in
  id <- py_get node "id" JNull ;;
  Ok (categories_found, entries ++ [mk_node id type_text node_label category]).

Definition append_if {A : Type} (cond : bool) (l : list A) (x : A) : list A :=
  if cond then l ++ [x] else l.

Definition memory_suggestion : suggestion :=
  mk_suggestion "high" "memory" "Add Conversation Memory"
    "This flow doesn't have memory nodes. Adding memory enables conversation context across messages."
    None
    (Some ["Buffer Memory"; "Zep Memory"; "Redis Memory"; "MongoDB Memory"]).

Definition vector_store_nodes (categories_found : str_set) : list string :=
  let nodes_to_add := ["Chroma"; "Pinecone"; "FAISS"; "OpenAI Embeddings"] in
  let nodes_to_add :=
    if negb (set_mem "document_loader" categories_found)
    then nodes_to_add ++ ["PDF Loader"; "Text Loader"] else nodes_to_add in
  let nodes_to_add :=
    if negb (set_mem "retriever" categories_found)
    then nodes_to_add ++ ["Vector Store Retriever"] else nodes_to_add in
  nodes_to_add.

Definition vector_store_suggestion (categories_found : str_set) : suggestion :=
  mk_suggestion "high" "rag" "Add Vector Store for Knowledge Base"
    "Add a Vector Store (Pinecone, Chroma, or FAISS) with Embeddings and Document Loaders for knowledge retrieval."
    None
    (Some (vector_store_nodes categories_found)).

Definition tools_suggestion : suggestion :=
  mk_suggestion "medium" "tools" "Add Tools to Agent"
    "This agent flow has no tools. Add tools to extend capabilities (Search, Calculator, API calls)."
    None
    (Some ["SerpAPI"; "Calculator"; "Custom Tool"; "Request Tool"; "Web Browser"]).

Definition output_parser_suggestion : suggestion :=
  mk_suggestion "medium" "output" "Add Output Parser"
    "Add an Output Parser to structure responses (JSON, CSV, structured data)."
    None
    (Some ["Structured Output Parser"; "JSON Output Parser"; "List Output Parser"]).

Definition prompt_practice : best_practice :=
  mk_practice "prompts" "Prompt Engineering Tips"
    [ "Use clear, specific instructions in your prompts";
      "Include examples (few-shot learning) for better results";
      "Define the output format explicitly";
      "Use system prompts to set context and behavior" ].

Definition moderation_suggestion : suggestion :=
  mk_suggestion "medium" "safety" "Add Input Moderation"
    "This public flow lacks moderation. Add an Input Moderation node to filter inappropriate content."
    None
    (Some ["OpenAI Moderation"; "Simple Prompt Moderation"]).

Definition cache_practice : best_practice :=
  mk_practice "performance" "Consider Adding Caching"
    [ "Add a Cache node to store repeated LLM responses";
      "Caching reduces costs and latency significantly";
      "Redis Cache or In-Memory Cache are good options" ].

Definition accuracy_suggestion : suggestion :=
  mk_suggestion "high" "accuracy" "Improve Response Accuracy"
    "To improve accuracy:"
    (Some [ "Use a more capable model (GPT-4o, Claude 3.5 Sonnet)";
            "Add relevant context through RAG";
            "Improve prompts with clearer instructions";
            "Add few-shot examples";
            "Adjust temperature (lower for consistency, higher for creativity)" ])
    None.

Definition speed_suggestion : suggestion :=
  mk_suggestion "high" "performance" "Improve Response Speed"
    "To make responses faster:"
    (Some [ "Use a faster model (GPT-4o-mini, Claude 3 Haiku)";
            "Enable streaming for perceived faster responses";
            "Add caching for repeated queries";
            "Reduce context length where possible";
            "Use smaller chunk sizes in RAG" ])
    None.

(** [str(improvement_goal)] inside the f-string of the last rule. *)
Definition goal_text (improvement_goal : option string) : string :=
  match improvement_goal with
  | Some g => g
  | None => "None"
  end.

Definition capability_suggestion (improvement_goal : option string) : suggestion :=
  mk_suggestion "medium" "capability" "Extend Capabilities"
    ("Based on your goal '" ++ goal_text improvement_goal ++ "':")
    (Some [ "Add specific tools for the functionality needed";
            "Create custom tools using the Custom Tool node";
            "Add relevant document sources via Document Loaders";
            "Consider using Agent flows for complex multi-step tasks";
            "Add conditional routing with Condition nodes" ])
    None.

(** [flow_type in ("AGENTFLOW", "MULTIAGENT")] *)
Definition is_agent_type (flow_type : json) : bool :=
  match flow_type with
  | JStr t => String.eqb t "AGENTFLOW" || String.eqb t "MULTIAGENT"
  | _ => false
  end.

(** [improvement_goal.lower() if improvement_goal else ""] *)
Definition lower_goal (improvement_goal : option string) : string :=
  match improvement_goal with
  | Some g => if truthy (JStr g) then lower g else EmptyString
  | None => EmptyString
  end.

(** The ten [if] statements that follow the node loop, in source order;
    each appends to [analysis["suggestions"]] or to
    [analysis["best_practices"]]. *)
Definition rule_battery (flow : pydict) (flow_type : json)
    (categories_found : str_set) (improvement_goal : option string)
  : list suggestion * list best_practice :=
  let is_agent_flow := is_agent_type flow_type in
  let goal_lower := lower_goal improvement_goal in
  let suggestions := [] in
  let best_practices := [] in
  let suggestions :=
    append_if (negb (set_mem "memory" categories_found))
      suggestions memory_suggestion in
  let suggestions :=
    append_if (str_in "knowledge" goal_lower
               && negb (set_mem "vector_store" categories_found))
      suggestions (vector_store_suggestion categories_found) in
  let suggestions :=
    append_if (is_agent_flow && negb (set_mem "tool" categories_found))
      suggestions tools_suggestion in
  let suggestions :=
    append_if (str_in "format" goal_lower
               && negb (set_mem "output_parser" categories_found))
      suggestions output_parser_suggestion in
  let best_practices :=
    append_if (set_mem "prompt" categories_found)
      best_practices prompt_practice in
  let suggestions :=
    append_if (truthy (dict_get flow "isPublic" JNull)
               && negb (set_mem "moderation" categories_found))
      suggestions moderation_suggestion in
  let best_practices :=
    append_if (negb (set_mem "cache" categories_found))
      best_practices cache_practice in
  let suggestions :=
    append_if (str_in "accuracy" goal_lower || str_in "better" goal_lower)
      suggestions accuracy_suggestion in
  let suggestions :=
    append_if (str_in "fast" goal_lower || str_in "speed" goal_lower)
      suggestions speed_suggestion in
  let suggestions :=
    append_if (str_in "handle" goal_lower || str_in "support" goal_lower)
      suggestions (capability_suggestion improvement_goal) in
  (suggestions, best_practices).

Definition corrupted_issue : string :=
  "Could not parse flow data - flow may be corrupted".

(** The [try] statement around
    [json.loads(flow_data_str) if isinstance(flow_data_str, str) else
    flow_data_str]: [Ok None] when the clause
    [except (json.JSONDecodeError, TypeError)] is entered; any other
    exception of the decoder leaves the statement.  The decoder
    [json_loads] is the standard library's; it is a parameter here, a
    function that returns a value or raises. *)
Definition decode_flow_data (json_loads : string -> result json)
    (flow_data_str : json) : result (option json) :=
  match flow_data_str with
  | JStr s =>
      match json_loads s with
      | Ok flow_data => Ok (Some flow_data)
      | Raise JSONDecodeError | Raise TypeError => Ok None
      | Raise e => Raise e
      end
  | v => Ok (Some v)
  end.

(** [flow.get("flowData", "{}")] *)
Definition flow_data_str (flow : pydict) : json :=
  dict_get flow "flowData" (JStr "{}").

Definition analyze_flow_data (json_loads : string -> result json)
    (flow : pydict) (improvement_goal : option string) : result analysis :=
  let flow_type := dict_get flow "type" (JStr "CHATFLOW") in
  let flow_name := dict_get flow "name" (JStr "Unknown") in
  decoded <- decode_flow_data json_loads (flow_data_str flow) ;;
  match decoded with
  | None =>
      Ok (mk_analysis flow_name flow_type EmptyString [] [] [] [corrupted_issue])
  | Some flow_data =>
      nodes <- py_get flow_data "nodes" (JArr []) ;;
      edges <- py_get flow_data "edges" (JArr []) ;;
      items <- py_iter nodes ;;
      st <- for_each node_step items ([], []) ;;
      let '(categories_found, entries) := st in
      n_nodes <- py_len nodes ;;
      n_edges <- py_len edges ;;
      let summary :=
        ("Flow contains " ++ str_of_nat n_nodes ++ " nodes and "
           ++ str_of_nat n_edges ++ " connections.")%string in
      let '(suggestions, best_practices) :=
        rule_battery flow flow_type categories_found improvement_goal in
      Ok (mk_analysis flow_name flow_type summary entries
            suggestions best_practices [])
  end.

(* ===================================================================== *)
(** ** JSON text: [json.dumps(_, indent=2)] and [json.loads] *)
(* ===================================================================== *)

(** The serializer and the decoder of Python's standard library on the values
    of [json].  [loads] is the value that [json.loads] builds: it returns
    [None] where Python raises [JSONDecodeError]; it also returns [None] on
    the literals that denote values outside [json]: numbers with a fraction
    or an exponent, [NaN], [Infinity], and [\u] escapes of code points from
    256 on.  [json_loads] is the call, which returns that value or raises. *)
Module Json.

Definition DQ : ascii := "034"%char.   (* double quote *)
Definition BS : ascii := "092"%char.   (* backslash *)
Definition LF : ascii := "010"%char.
Definition CR : ascii := "013"%char.
Definition TAB : ascii := "009"%char.
Definition BSP : ascii := "008"%char.  (* backspace *)
Definition FF : ascii := "012"%char.   (* form feed *)

Definition str1 (c : ascii) : string := String c EmptyString.

Definition hex_digit (n : nat) : ascii :=
  if (n <? 10)%nat then ascii_of_nat (48 + n) else ascii_of_nat (87 + n).

(** [ESCAPE_ASCII]: the quote and the backslash get a backslash, the usual
    control characters their letter, and every other character outside
    [' ' .. '~'] the form [\u00xx]. *)
Definition escape_char (c : ascii) : string :=
  let n := nat_of_ascii c in
  if Ascii.eqb c DQ then String BS (str1 DQ)
  else if Ascii.eqb c BS then String BS (str1 BS)
  else if Ascii.eqb c LF then String BS "n"
  else if Ascii.eqb c CR then String BS "r"
  else if Ascii.eqb c TAB then String BS "t"
  else if Ascii.eqb c BSP then String BS "b"
  else if Ascii.eqb c FF then String BS "f"
  else if ((n <? 32) || (126 <? n))%nat
       then String BS (String "u" (String "0" (String "0"
              (String (hex_digit (n / 16)) (str1 (hex_digit (n mod 16)))))))
       else str1 c.

Fixpoint escape (s : string) : string :=
  match s with
  | EmptyString => EmptyString
  | String c t => (escape_char c ++ escape t)%string
  end.

Definition quote (s : string) : string :=
  String DQ (escape s ++ str1 DQ).

Fixpoint spaces (n : nat) : string :=
  match n with
  | O => EmptyString
  | S k => String " " (spaces k)
  end.

(** The line break before an item at nesting depth [level]. *)
Definition newline_indent (level : nat) : string :=
  String LF (spaces (2 * level)).

(** The items after the first: each preceded by the separator. *)
Section JoinTail.

Context {A : Type} (f : A -> string) (sep : string).

Fixpoint join_tail (l : list A) : string :=
  match l with
  | [] => EmptyString
  | y :: l' => (sep ++ f y ++ join_tail l')%string
  end.

End JoinTail.

(** [json.dumps(v, indent=2)] at nesting depth [level]. *)
Fixpoint emit (level : nat) (v : json) : string :=
  match v with
  | JNull => "null"
  | JBool true => "true"
  | JBool false => "false"
  | JNum n => str_of_Z n
  | JStr s => quote s
  | JArr [] => "[]"
  | JArr (x :: xs) =>
      ("[" ++ newline_indent (S level) ++ emit (S level) x
       ++ join_tail (emit (S level)) ("," ++ newline_indent (S level)) xs
       ++ newline_indent level ++ "]")%string
  | JObj [] => "{}"
  | JObj (kx :: kxs) =>
      let member := fun kv : string * json =>
        (quote (fst kv) ++ ": " ++ emit (S level) (snd kv))%string in
      ("{" ++ newline_indent (S level) ++ member kx
       ++ join_tail member ("," ++ newline_indent (S level)) kxs
       ++ newline_indent level ++ "}")%string
  end.

Definition dumps (v : json) : string := emit 0 v.

(** *** Decoder *)

Definition is_ws (c : ascii) : bool :=
  Ascii.eqb c " " || Ascii.eqb c TAB || Ascii.eqb c LF || Ascii.eqb c CR.

Fixpoint skip_ws (s : string) : string :=
  match s with
  | String c t => if is_ws c then skip_ws t else s
  | EmptyString => EmptyString
  end.

Definition hex_value (c : ascii) : option nat :=
  let n := nat_of_ascii c in
  if ((48 <=? n) && (n <=? 57))%nat then Some (n - 48)
  else if ((97 <=? n) && (n <=? 102))%nat then Some (n - 87)
  else if ((65 <=? n) && (n <=? 70))%nat then Some (n - 55)
  else None.

(** The character a one-letter escape stands for. *)
Definition unescape (e : ascii) : option ascii :=
  if Ascii.eqb e DQ then Some DQ
  else if Ascii.eqb e BS then Some BS
  else if Ascii.eqb e "/" then Some "/"%char
  else if Ascii.eqb e "b" then Some BSP
  else if Ascii.eqb e "f" then Some FF
  else if Ascii.eqb e "n" then Some LF
  else if Ascii.eqb e "r" then Some CR
  else if Ascii.eqb e "t" then Some TAB
  else None.

Definition cons_fst (c : ascii) (r : option (string * string))
  : option (string * string) :=
  match r with
  | Some (s, rest) => Some (String c s, rest)
  | None => None
  end.

(** The body of a string literal, after its opening quote: the decoded text
    and what follows the closing quote. *)
Fixpoint scan_string (s : string) : option (string * string) :=
  match s with
  | EmptyString => None
  | String c t =>
      if Ascii.eqb c DQ then Some (EmptyString, t)
      else if Ascii.eqb c BS then
        match t with
        | EmptyString => None
        | String e t' =>
            if Ascii.eqb e "u" then
              match t' with
              | String h1 (String h2 (String h3 (String h4 t''))) =>
                  match hex_value h1, hex_value h2, hex_value h3, hex_value h4 with
                  | Some 0, Some 0, Some a, Some b =>
                      cons_fst (ascii_of_nat (16 * a + b)) (scan_string t'')
                  | _, _, _, _ => None
                  end
              | _ => None
              end
            else
              match unescape e with
              | Some c' => cons_fst c' (scan_string t')
              | None => None
              end
        end
      else if (nat_of_ascii c <? 32)%nat then None
      else cons_fst c (scan_string t)
  end.

Definition digit_of (c : ascii) : option (uint -> uint) :=
  match nat_of_ascii c - 48, (48 <=? nat_of_ascii c)%nat with
  | 0, true => Some D0 | 1, _ => Some D1 | 2, _ => Some D2 | 3, _ => Some D3
  | 4, _ => Some D4 | 5, _ => Some D5 | 6, _ => Some D6 | 7, _ => Some D7
  | 8, _ => Some D8 | 9, _ => Some D9
  | _, _ => None
  end.

(** The longest run of decimal digits at the head of [s]. *)
Fixpoint scan_digits (s : string) : uint * string :=
  match s with
  | EmptyString => (Nil, EmptyString)
  | String c t =>
      match digit_of c with
      | Some d => let (u, r) := scan_digits t in (d u, r)
      | None => (Nil, s)
      end
  end.

(** An integer literal is a non-empty run of digits without a leading zero
    (it is its own normal form) that no fraction or exponent follows. *)
Definition scan_nat (s : string) : option (N * string) :=
  let (u, r) := scan_digits s in
  let followed_ok :=
    match r with
    | String c _ => negb (Ascii.eqb c "." || Ascii.eqb c "e" || Ascii.eqb c "E")
    | EmptyString => true
    end in
  match u with
  | Nil => None
  | _ => if uint_beq (unorm u) u && followed_ok then Some (N.of_uint u, r)
         else None
  end.

Fixpoint drop (n : nat) (s : string) : string :=
  match n, s with
  | S k, String _ t => drop k t
  | _, _ => s
  end.

(** The text after the character [c], when [s] starts with it. *)
Definition expect (c : ascii) (s : string) : option string :=
  match s with
  | String c' r => if Ascii.eqb c' c then Some r else None
  | EmptyString => None
  end.

(** One value at the head of [s] (no leading white space), and the text
    after it.  [parse_items] and [parse_members] read the remainder of an
    array and of an object whose first entry starts at [s]. *)
Fixpoint parse_value (fuel : nat) (s : string) : option (json * string) :=
  match fuel with
  | O => None
  | S fuel' =>
      match s with
      | EmptyString => None
      | String c t =>
          if Ascii.eqb c DQ then
            match scan_string t with
            | Some (text, r) => Some (JStr text, r)
            | None => None
            end
          else if Ascii.eqb c "{" then
            match expect "}" (skip_ws t) with
            | Some r => Some (JObj [], r)
            | None => parse_members fuel' (skip_ws t) []
            end
          else if Ascii.eqb c "[" then
            match expect "]" (skip_ws t) with
            | Some r => Some (JArr [], r)
            | None => parse_items fuel' (skip_ws t) []
            end
          else if starts_with "null" s then Some (JNull, drop 4 s)
          else if starts_with "true" s then Some (JBool true, drop 4 s)
          else if starts_with "false" s then Some (JBool false, drop 5 s)
          else if Ascii.eqb c "-" then
            match scan_nat t with
            | Some (n, r) => Some (JNum (- Z.of_N n), r)
            | None => None
            end
          else
            match scan_nat s with
            | Some (n, r) => Some (JNum (Z.of_N n), r)
            | None => None
            end
      end
  end
with parse_items (fuel : nat) (s : string) (acc : list json)
  : option (json * string) :=
  match fuel with
  | O => None
  | S fuel' =>
      match parse_value fuel' s with
      | None => None
      | Some (v, r) =>
          match expect "," (skip_ws r) with
          | Some r' => parse_items fuel' (skip_ws r') (acc ++ [v])
          | None =>
              match expect "]" (skip_ws r) with
              | Some r' => Some (JArr (acc ++ [v]), r')
              | None => None
              end
          end
      end
  end
with parse_members (fuel : nat) (s : string) (acc : pydict)
  : option (json * string) :=
  match fuel with
  | O => None
  | S fuel' =>
      match expect DQ s with
      | None => None
      | Some t =>
          match scan_string t with
          | None => None
          | Some (k, r) =>
              match expect ":" (skip_ws r) with
              | None => None
              | Some r1 =>
                  match parse_value fuel' (skip_ws r1) with
                  | None => None
                  | Some (v, r2) =>
                      match expect "," (skip_ws r2) with
                      | Some r3 =>
                          parse_members fuel' (skip_ws r3) (dict_set acc k v)
                      | None =>
                          match expect "}" (skip_ws r2) with
                          | Some r3 => Some (JObj (dict_set acc k v), r3)
                          | None => None
                          end
                      end
                  end
              end
          end
      end
  end.

(** [json.loads(s)]: one value, white space allowed around it, nothing
    else. *)
Definition loads (s : string) : option json :=
  match parse_value (S (String.length s)) (skip_ws s) with
  | Some (v, r) =>
      match skip_ws r with
      | EmptyString => Some v
      | _ => None
      end
  | None => None
  end.

(** *** The decoder as a call *)

(** [sys.int_info.default_max_str_digits]: the number of digits that [int]
    converts, in CPython 3.11 and later and unless the process changes it. *)
Definition max_str_digits : nat := 4300.

(** The integer literal at the head of [s], converted with [int]: a literal
    of more than [max_str_digits] digits raises [ValueError]. *)
Definition scan_int (s : string) : result (N * string) :=
  match scan_nat s with
  | Some (n, r) =>
      if (max_str_digits <? String.length s - String.length r)%nat
      then Raise ValueError
      else Ok (n, r)
  | None => Raise JSONDecodeError
  end.

(** [parse_value], [parse_items] and [parse_members] once more, as the
    scanner runs: it stops at the first exception, which is the
    [ValueError] of an integer literal that is too long, when it reaches one,
    and [JSONDecodeError] otherwise. *)
Fixpoint decode_value (fuel : nat) (s : string) : result (json * string) :=
  match fuel with
  | O => Raise JSONDecodeError
  | S fuel' =>
      match s with
      | EmptyString => Raise JSONDecodeError
      | String c t =>
          if Ascii.eqb c DQ then
            match scan_string t with
            | Some (text, r) => Ok (JStr text, r)
            | None => Raise JSONDecodeError
            end
          else if Ascii.eqb c "{" then
            match expect "}" (skip_ws t) with
            | Some r => Ok (JObj [], r)
            | None => decode_members fuel' (skip_ws t) []
            end
          else if Ascii.eqb c "[" then
            match expect "]" (skip_ws t) with
            | Some r => Ok (JArr [], r)
            | None => decode_items fuel' (skip_ws t) []
            end
          else if starts_with "null" s then Ok (JNull, drop 4 s)
          else if starts_with "true" s then Ok (JBool true, drop 4 s)
          else if starts_with "false" s then Ok (JBool false, drop 5 s)
          else if Ascii.eqb c "-" then
            match scan_int t with
            | Ok (n, r) => Ok (JNum (- Z.of_N n), r)
            | Raise e => Raise e
            end
          else
            match scan_int s with
            | Ok (n, r) => Ok (JNum (Z.of_N n), r)
            | Raise e => Raise e
            end
      end
  end
with decode_items (fuel : nat) (s : string) (acc : list json)
  : result (json * string) :=
  match fuel with
  | O => Raise JSONDecodeError
  | S fuel' =>
      match decode_value fuel' s with
      | Raise e => Raise e
      | Ok (v, r) =>
          match expect "," (skip_ws r) with
          | Some r' => decode_items fuel' (skip_ws r') (acc ++ [v])
          | None =>
              match expect "]" (skip_ws r) with
              | Some r' => Ok (JArr (acc ++ [v]), r')
              | None => Raise JSONDecodeError
              end
          end
      end
  end
with decode_members (fuel : nat) (s : string) (acc : pydict)
  : result (json * string) :=
  match fuel with
  | O => Raise JSONDecodeError
  | S fuel' =>
      match expect DQ s with
      | None => Raise JSONDecodeError
      | Some t =>
          match scan_string t with
          | None => Raise JSONDecodeError
          | Some (k, r) =>
              match expect ":" (skip_ws r) with
              | None => Raise JSONDecodeError
              | Some r1 =>
                  match decode_value fuel' (skip_ws r1) with
                  | Raise e => Raise e
                  | Ok (v, r2) =>
                      match expect "," (skip_ws r2) with
                      | Some r3 =>
                          decode_members fuel' (skip_ws r3) (dict_set acc k v)
                      | None =>
                          match expect "}" (skip_ws r2) with
                          | Some r3 => Ok (JObj (dict_set acc k v), r3)
                          | None => Raise JSONDecodeError
                          end
                      end
                  end
              end
          end
      end
  end.

(** The call [json.loads(s)]: it returns the value of [loads s] or raises.
    On the literals outside [json] it raises [JSONDecodeError], as [loads]
    returns [None] there.  The depth at which CPython gives up with
    [RecursionError] depends on the state of the interpreter and is not
    modelled: the analyser and the validators take the decoder as a
    parameter, which covers it. *)
Definition json_loads (s : string) : result json :=
  match decode_value (S (String.length s)) (skip_ws s) with
  | Ok (v, r) =>
      match skip_ws r with
      | EmptyString => Ok v
      | _ => Raise JSONDecodeError
      end
  | Raise e => Raise e
  end.

(** A text that starts like a value: not with white space and not with a
    closing bracket. *)
Definition value_head (s : string) : Prop :=
  exists c t, s = String c t /\ is_ws c = false /\
              Ascii.eqb c "]" = false /\ Ascii.eqb c "}" = false.

(** A text that does not start with a decimal digit. *)
Definition no_digit_head (s : string) : Prop :=
  match s with
  | EmptyString => True
  | String c _ => digit_of c = None
  end.

(** JSON text written with apostrophes for the string quotes, for the
    flows used as concrete inputs below. *)
Fixpoint requote (s : string) : string :=
  match s with
  | EmptyString => EmptyString
  | String c t => String (if Ascii.eqb c "'" then DQ else c) (requote t)
  end.

End Json.

(* ===================================================================== *)
(** ** [format_analysis] *)
(* ===================================================================== *)

Inductive ResponseFormat : Type := MARKDOWN | JSON.

(** [repr(s)] of a string: apostrophes around it, unless it holds an
    apostrophe and no double quote. *)
Definition repr_quote (s : string) : ascii :=
  if str_in "'" s && negb (str_in (Json.str1 Json.DQ) s) then Json.DQ
  else "'"%char.

Definition repr_char (q c : ascii) : string :=
  let n := nat_of_ascii c in
  if Ascii.eqb c Json.BS then String Json.BS (Json.str1 Json.BS)
  else if Ascii.eqb c q then String Json.BS (Json.str1 q)
  else if Ascii.eqb c Json.TAB then String Json.BS "t"
  else if Ascii.eqb c Json.LF then String Json.BS "n"
  else if Ascii.eqb c Json.CR then String Json.BS "r"
  else if ((n <? 32) || ((127 <=? n) && (n <=? 160)) || (n =? 173))%nat
       then String Json.BS (String "x"
              (String (Json.hex_digit (n / 16))
                 (Json.str1 (Json.hex_digit (n mod 16)))))
       else Json.str1 c.

Definition repr_str (s : string) : string :=
  let q := repr_quote s in
  String q ((fix body (t : string) : string :=
               match t with
               | EmptyString => EmptyString
               | String c t' => (repr_char q c ++ body t')%string
               end) s ++ Json.str1 q).

(** [repr(v)] *)
Fixpoint py_repr (v : json) : string :=
  match v with
  | JNull => "None"
  | JBool true => "True"
  | JBool false => "False"
  | JNum n => str_of_Z n
  | JStr s => repr_str s
  | JArr items => ("[" ++ String.concat ", " (map py_repr items) ++ "]")%string
  | JObj d =>
      ("{" ++ String.concat ", "
                (map (fun kv => (repr_str (fst kv) ++ ": " ++ py_repr (snd kv))%string) d)
           ++ "}")%string
  end.

(** [str(v)], as an f-string formats a value. *)
Definition py_str (v : json) : string :=
  match v with
  | JStr s => s
  | _ => py_repr v
  end.

Definition nl : string := Json.str1 Json.LF.

(** [categories[cat].append(line)], after [categories[cat] = []] for a new
    [cat]. *)
Fixpoint group_add (groups : list (string * list string)) (cat line : string)
  : list (string * list string) :=
  match groups with
  | [] => [(cat, [line])]
  | (c, ls) :: rest =>
      if String.eqb c cat then (c, ls ++ [line]) :: rest
      else (c, ls) :: group_add rest cat line
  end.

Definition node_line (n : node_entry) : string :=
  (py_str (node_label n) ++ " (" ++ node_type n ++ ")")%string.

Definition nodes_overview (a : analysis) : list string :=
  match nodes a with
  | [] => []
  | _ =>
      let categories :=
        fold_left (fun groups n => group_add groups (node_category n) (node_line n))
                  (nodes a) [] in
      ["## Nodes Overview"]
      ++ flat_map
           (fun g =>
              ("### " ++ str_title (replace_char "_" " " (fst g)))%string
              :: map (fun n => ("- " ++ n)%string) (snd g))
           (py_sorted (fun g1 g2 => String.leb (fst g1) (fst g2)) categories)
      ++ [EmptyString]
  end.

Definition issues_section (a : analysis) : list string :=
  match potential_issues a with
  | [] => []
  | issues =>
      ["## [!] Potential Issues"]
      ++ map (fun issue => ("- " ++ issue)%string) issues
      ++ [EmptyString]
  end.

(** [0 if x["priority"] == "high" else 1] *)
Definition priority_key (s : suggestion) : nat :=
  if String.eqb (priority s) "high" then 0 else 1.

(** The order that the sort key induces. *)
Definition priority_le (x y : suggestion) : bool :=
  (priority_key x <=? priority_key y)%nat.

(** The lines of one suggestion. *)
Definition suggestion_lines (s : suggestion) : list string :=
  let priority_indicator :=
    if String.eqb (priority s) "high" then "[HIGH]" else "[MEDIUM]" in
  [ ("### " ++ priority_indicator ++ " " ++ title s)%string;
    ("**Category**: " ++ sug_category s)%string;
    (nl ++ description s)%string ]
  ++ match tips s with
     | Some (t :: ts) =>
         (nl ++ "**Recommendations:**")%string
         :: map (fun tip => ("- " ++ tip)%string) (t :: ts)
     | _ => []
     end
  ++ match nodes_to_add s with
     | Some (n :: ns) =>
         [ (nl ++ "**Suggested nodes**: " ++ String.concat ", " (n :: ns))%string ]
     | _ => []
     end
  ++ [EmptyString].

Definition suggestions_section (a : analysis) : list string :=
  match suggestions a with
  | [] => []
  | _ =>
      ["## Improvement Suggestions"]
      ++ flat_map suggestion_lines
           (py_sorted priority_le (suggestions a))
  end.

Definition practices_section (a : analysis) : list string :=
  match best_practices a with
  | [] => []
  | practices =>
      ["## Best Practices"]
      ++ flat_map
           (fun p =>
              [("### " ++ bp_title p)%string]
              ++ map (fun tip => ("- " ++ tip)%string) (bp_tips p)
              ++ [EmptyString])
           practices
  end.

Definition strings_to_json (l : list string) : json := JArr (map JStr l).

Definition node_to_json (n : node_entry) : json :=
  JObj [ ("id", node_id n); ("type", JStr (node_type n));
         ("label", node_label n); ("category", JStr (node_category n)) ].

Definition suggestion_to_json (s : suggestion) : json :=
  JObj ([ ("priority", JStr (priority s)); ("category", JStr (sug_category s));
          ("title", JStr (title s)); ("description", JStr (description s)) ]
        ++ match tips s with
           | Some l => [("tips", strings_to_json l)]
           | None => []
           end
        ++ match nodes_to_add s with
           | Some l => [("nodes_to_add", strings_to_json l)]
           | None => []
           end).

Definition practice_to_json (p : best_practice) : json :=
  JObj [ ("category", JStr (bp_category p)); ("title", JStr (bp_title p));
         ("tips", strings_to_json (bp_tips p)) ].

(** The dict that the record stands for, keys in the order of the literals
    in [analyze_flow_data]. *)
Definition analysis_to_json (a : analysis) : json :=
  JObj [ ("flow_name", flow_name a);
         ("flow_type", flow_type a);
         ("summary", JStr (summary a));
         ("nodes", JArr (map node_to_json (nodes a)));
         ("suggestions", JArr (map suggestion_to_json (suggestions a)));
         ("best_practices", JArr (map practice_to_json (best_practices a)));
         ("potential_issues", strings_to_json (potential_issues a)) ].

Definition format_analysis (a : analysis) (format_type : ResponseFormat)
  : string :=
  match format_type with
  | JSON => Json.dumps (analysis_to_json a)
  | MARKDOWN =>
      String.concat nl
        ([ ("# Flow Analysis: " ++ py_str (flow_name a))%string;
           EmptyString;
           ("**Type**: " ++ py_str (flow_type a))%string;
           ("**Summary**: " ++ summary a)%string;
           EmptyString ]
         ++ nodes_overview a
         ++ issues_section a
         ++ suggestions_section a
         ++ practices_section a)
  end.







(** Every dict inside the value has pairwise distinct keys, as every
    Python dict has. *)
Fixpoint unique_keys (v : json) : Prop :=
  match v with
  | JArr items => fold_right (fun x rest => unique_keys x /\ rest) True items
  | JObj d =>
      NoDup (map fst d)
      /\ fold_right (fun kv rest => unique_keys (snd kv) /\ rest) True d
  | _ => True
  end.


(** Fuel that decoding the serialization of [v] needs. *)
Fixpoint size (v : json) : nat :=
  match v with
  | JArr items => S (fold_right (fun x rest => S (size x + rest)) 0 items)
  | JObj d => S (fold_right (fun kv rest => S (size (snd kv) + rest)) 0 d)
  | _ => 1
  end.

(** What may follow a serialized value: nothing, a comma or a line break. *)
Definition follow_ok (rest : string) : Prop :=
  match rest with
  | EmptyString => True
  | String c _ => c = ","%char \/ c = Json.LF
  end.

(** The serialization of [v] at any depth, followed by any admissible text,
    decodes to [v] and leaves that text. *)
Definition decodes_back (v : json) : Prop :=
  forall level fuel rest,
    size v <= fuel -> follow_ok rest ->
    Json.parse_value fuel (Json.emit level v ++ rest)%string = Some (v, rest).

(** The fuel for the items of an array and for the members of an object. *)
Definition items_size (items : list json) : nat :=
  fold_right (fun x rest => S (size x + rest)) 0 items.

Definition members_size (d : pydict) : nat :=
  fold_right (fun kv rest => S (size (snd kv) + rest)) 0 d.

(* ===================================================================== *)
(** ** [analyze_flow_data] over a store of mutable objects *)
(* ===================================================================== *)

(** The same function once more, this time with Python's object model made
    explicit: lists, dicts and sets live in a heap and are passed by
    reference, [append], [extend], [add] and item assignment update an
    object in place, and every such update is logged.  This is the model
    for statements about what the call does to the objects it was given. *)
Module Store.

Definition loc : Type := nat.

Inductive val : Type :=
| VNone
| VBool (b : bool)
| VInt (n : Z)
| VStr (s : string)
| VRef (l : loc).

Inductive obj : Type :=
| OList (items : list val)
| ODict (fields : list (string * val))
| OSet (elems : str_set).

(** The heap, and the locations updated in place so far (latest first). *)
Record state : Type := mk_state {
  heap : list obj;
  writes : list loc
}.

(** A call returns, raises, is stuck on a location that holds no object
    (which no Python program can reach), or is still in a loop when the
    fuel given to that loop runs out. *)
Inductive outcome (A : Type) : Type :=
| Done (a : A)
| Raised (e : exn)
| Stuck
| Unfinished.
Arguments Done {A} a.
Arguments Raised {A} e.
Arguments Stuck {A}.
Arguments Unfinished {A}.

Definition M (A : Type) : Type := state -> outcome A * state.

Definition ret {A : Type} (a : A) : M A := fun s => (Done a, s).

Definition throw {A : Type} (e : exn) : M A := fun s => (Raised e, s).

Definition sbind {A B : Type} (m : M A) (k : A -> M B) : M B :=
  fun s =>
    match m s with
    | (Done a, s') => k a s'
    | (Raised e, s') => (Raised e, s')
    | (Stuck, s') => (Stuck, s')
    | (Unfinished, s') => (Unfinished, s')
    end.

Notation "x <~ m ;; k" := (sbind m (fun x => k))
  (at level 61, m at next level, right associativity).

(** [l[i] = x]; the locations handed out by [alloc] are always in range. *)
Fixpoint update {A : Type} (i : nat) (x : A) (l : list A) {struct l}
  : list A :=
  match l with
  | [] => []
  | y :: t =>
      match i with
      | O => x :: t
      | S j => y :: update j x t
      end
  end.

(** *** The three primitive effects *)

(** A new object; its location is the next free one. *)
Definition alloc (o : obj) : M loc :=
  fun s => (Done (List.length (heap s)), mk_state (heap s ++ [o]) (writes s)).

Definition read (l : loc) : M obj :=
  fun s =>
    match nth_error (heap s) l with
    | Some o => (Done o, s)
    | None => (Stuck, s)
    end.

(** An update in place, logged. *)
Definition write (l : loc) (o : obj) : M unit :=
  fun s => (Done tt, mk_state (update l o (heap s)) (l :: writes s)).

(** *** Python operations *)

Definition new_list (items : list val) : M val :=
  l <~ alloc (OList items) ;; ret (VRef l).

Definition new_dict (fields : list (string * val)) : M val :=
  l <~ alloc (ODict fields) ;; ret (VRef l).

Definition new_set : M val :=
  l <~ alloc (OSet []) ;; ret (VRef l).

Definition str_list (l : list string) : M val := new_list (map VStr l).

(** [recv.get(key, default)]: the receiver must be a dict; the default is
    evaluated before the call. *)
Definition get (recv : val) (key : string) (default : M val) : M val :=
  match recv with
  | VRef l =>
      o <~ read l ;;
      match o with
      | ODict d =>
          dflt <~ default ;;
          ret (match lookup d key with Some v => v | None => dflt end)
      | _ => throw AttributeError
      end
  | _ => throw AttributeError
  end.

(** [recv[key]] for a string key. *)
Definition getitem (recv : val) (key : string) : M val :=
  match recv with
  | VRef l =>
      o <~ read l ;;
      match o with
      | ODict d =>
          match lookup d key with
          | Some v => ret v
          | None => throw KeyError
          end
      | _ => throw TypeError
      end
  | _ => throw TypeError
  end.

(** [recv[key] = v] *)
Definition setitem (recv : val) (key : string) (v : val) : M unit :=
  match recv with
  | VRef l =>
      o <~ read l ;;
      match o with
      | ODict d => write l (ODict (dict_set d key v))
      | _ => throw TypeError
      end
  | _ => throw TypeError
  end.

(** [recv.append(x)] *)
Definition append (recv : val) (x : val) : M unit :=
  match recv with
  | VRef l =>
      o <~ read l ;;
      match o with
      | OList items => write l (OList (items ++ [x]))
      | _ => throw AttributeError
      end
  | _ => throw AttributeError
  end.

(** [recv.extend(xs)] for a list [xs] *)
Definition extend (recv : val) (xs : val) : M unit :=
  match recv, xs with
  | VRef l, VRef l' =>
      o <~ read l ;;
      match o with
      | OList items =>
          o' <~ read l' ;;
          match o' with
          | OList more => write l (OList (items ++ more))
          | _ => throw TypeError
          end
      | _ => throw AttributeError
      end
  | _, _ => throw AttributeError
  end.

(** [recv.add(x)] *)
Definition add (recv : val) (x : string) : M unit :=
  match recv with
  | VRef l =>
      o <~ read l ;;
      match o with
      | OSet elems => write l (OSet (set_add x elems))
      | _ => throw AttributeError
      end
  | _ => throw AttributeError
  end.

(** [x in recv] for a set *)
Definition contains (recv : val) (x : string) : M bool :=
  match recv with
  | VRef l =>
      o <~ read l ;;
      match o with
      | OSet elems => ret (set_mem x elems)
      | _ => throw TypeError
      end
  | _ => throw TypeError
  end.

Fixpoint chars (s : string) : list val :=
  match s with
  | EmptyString => []
  | String c t => VStr (String c EmptyString) :: chars t
  end.

Fixpoint for_each {A : Type} (body : A -> M unit) (xs : list A) : M unit :=
  match xs with
  | [] => ret tt
  | x :: rest => _ <~ body x ;; for_each body rest
  end.

(** What an iterator over the object yields at position [i]: an item of a
    list, a key of a dict, an element of a set. *)
Definition item_at (o : obj) (i : nat) : option val :=
  match o with
  | OList items => nth_error items i
  | ODict d => option_map (fun kv => VStr (fst kv)) (nth_error d i)
  | OSet elems => option_map VStr (nth_error elems i)
  end.

Definition obj_len (o : obj) : nat :=
  match o with
  | OList items => List.length items
  | ODict d => List.length d
  | OSet elems => List.length elems
  end.

(** The iterator protocol on the object at [l]: each step looks at the
    object as it is then.  A list is read at the next index until the index
    is past its end; a dict or a set whose size is no longer the size it had
    when the loop started raises [RuntimeError]. *)
Fixpoint for_in_object (fuel : nat) (l : loc) (size0 : nat) (i : nat)
    (body : val -> M unit) : M unit :=
  match fuel with
  | O => fun s => (Unfinished, s)
  | S fuel' =>
      o <~ read l ;;
      if match o with OList _ => true | _ => Nat.eqb (obj_len o) size0 end
      then match item_at o i with
           | Some x => _ <~ body x ;; for_in_object fuel' l size0 (S i) body
           | None => ret tt
           end
      else throw RuntimeError
  end.

(** [for x in v: body(x)] *)
Definition for_in (fuel : nat) (v : val) (body : val -> M unit) : M unit :=
  match v with
  | VRef l => o <~ read l ;; for_in_object fuel l (obj_len o) 0 body
  | VStr s => for_each body (chars s)
  | _ => throw TypeError
  end.

(** [len(v)] *)
Definition len (v : val) : M nat :=
  match v with
  | VRef l =>
      o <~ read l ;;
      match o with
      | OList items => ret (List.length items)
      | ODict d => ret (List.length d)
      | OSet elems => ret (List.length elems)
      end
  | VStr s => ret (String.length s)
  | _ => throw TypeError
  end.

(** [bool(v)] *)
Definition truthy (v : val) : M bool :=
  match v with
  | VNone => ret false
  | VBool b => ret b
  | VInt n => ret (negb (Z.eqb n 0))
  | VStr s => ret (negb (String.eqb s EmptyString))
  | VRef l =>
      o <~ read l ;;
      ret (match o with
           | OList [] | ODict [] | OSet [] => false
           | _ => true
           end)
  end.

(** The objects that [json.loads] builds for a decoded value. *)
Fixpoint alloc_json (v : json) : M val :=
  match v with
  | JNull => ret VNone
  | JBool b => ret (VBool b)
  | JNum n => ret (VInt n)
  | JStr s => ret (VStr s)
  | JArr items =>
      vs <~ (fix each (l : list json) : M (list val) :=
               match l with
               | [] => ret []
               | x :: l' =>
                   vx <~ alloc_json x ;; vl <~ each l' ;; ret (vx :: vl)
               end) items ;;
      new_list vs
  | JObj d =>
      fields <~ (fix each (l : list (string * json)) : M (list (string * val)) :=
                   match l with
                   | [] => ret []
                   | (k, x) :: l' =>
                       vx <~ alloc_json x ;; vl <~ each l' ;;
                       ret ((k, vx) :: vl)
                   end) d ;;
      new_dict fields
  end.

(** The decoded value behind [v], read from the heap. *)
Fixpoint reify (fuel : nat) (h : list obj) (v : val) : option json :=
  match fuel with
  | O => None
  | S fuel' =>
      match v with
      | VNone => Some JNull
      | VBool b => Some (JBool b)
      | VInt n => Some (JNum n)
      | VStr s => Some (JStr s)
      | VRef l =>
          match nth_error h l with
          | Some (OList items) =>
              option_map JArr
                (fold_right
                   (fun x acc =>
                      match reify fuel' h x, acc with
                      | Some j, Some js => Some (j :: js)
                      | _, _ => None
                      end)
                   (Some []) items)
          | Some (ODict d) =>
              option_map JObj
                (fold_right
                   (fun kv acc =>
                      match reify fuel' h (snd kv), acc with
                      | Some j, Some js => Some ((fst kv, j) :: js)
                      | _, _ => None
                      end)
                   (Some []) d)
          | _ => None
          end
      end
  end.

(** *** The function *)

(** [categorize_node(node_type)] *)
Definition categorize (node_type : val) : M string :=
  match node_type with
  | VStr t => ret (categorize_node t)
  | _ => throw AttributeError
  end.

(** Body of [for node in nodes]. *)
Definition node_step (analysis categories_found : val) (node : val) : M unit :=
  node_data <~ get node "data" (new_dict []) ;;
  node_type <~ get node_data "type" (get node_data "name" (ret (VStr "Unknown"))) ;;
  node_label <~ get node_data "label" (get node "id" (ret (VStr "Unnamed"))) ;;
  category <~ categorize node_type ;;
  _ <~ add categories_found category ;;
  target <~ getitem analysis "nodes" ;;
  id <~ get node "id" (ret VNone) ;;
  entry <~ new_dict [ ("id", id); ("type", node_type);
                      ("label", node_label); ("category", VStr category) ] ;;
  append target entry.

(** [analysis[key].append({..fields.., extra: [..items..]})]: an entry whose
    last key, if any, holds a list of strings written as a literal. *)
Definition append_entry (analysis : val) (key : string)
    (fields : list (string * string)) (extra : option (string * list string))
  : M unit :=
  target <~ getitem analysis key ;;
  last <~ match extra with
          | Some (k, items) => l <~ str_list items ;; ret [(k, l)]
          | None => ret []
          end ;;
  entry <~ new_dict (map (fun kv => (fst kv, VStr (snd kv))) fields ++ last) ;;
  append target entry.

Definition suggestion_fields (s : suggestion) : list (string * string) :=
  [ ("priority", priority s); ("category", sug_category s);
    ("title", title s); ("description", description s) ].

Definition append_suggestion (analysis : val) (s : suggestion) : M unit :=
  append_entry analysis "suggestions" (suggestion_fields s)
    match tips s, nodes_to_add s with
    | Some l, _ => Some ("tips", l)
    | None, Some l => Some ("nodes_to_add", l)
    | None, None => None
    end.

Definition append_practice (analysis : val) (p : best_practice) : M unit :=
  append_entry analysis "best_practices"
    [("category", bp_category p); ("title", bp_title p)]
    (Some ("tips", bp_tips p)).

Definition when (cond : bool) (m : M unit) : M unit :=
  if cond then m else ret tt.

(** The rule that builds [nodes_to_add] step by step before it appends the
    suggestion. *)
Definition vector_store_rule (analysis categories_found : val) : M unit :=
  nodes_to_add <~ str_list ["Chroma"; "Pinecone"; "FAISS"; "OpenAI Embeddings"] ;;
  has_loader <~ contains categories_found "document_loader" ;;
  _ <~ when (negb has_loader)
         (more <~ str_list ["PDF Loader"; "Text Loader"] ;;
          extend nodes_to_add more) ;;
  has_retriever <~ contains categories_found "retriever" ;;
  _ <~ when (negb has_retriever)
         (append nodes_to_add (VStr "Vector Store Retriever")) ;;
  target <~ getitem analysis "suggestions" ;;
  entry <~ new_dict
             (map (fun kv => (fst kv, VStr (snd kv)))
                  (suggestion_fields (vector_store_suggestion []))
              ++ [("nodes_to_add", nodes_to_add)]) ;;
  append target entry.

Definition is_agent_type (flow_type : val) : bool :=
  match flow_type with
  | VStr t => String.eqb t "AGENTFLOW" || String.eqb t "MULTIAGENT"
  | _ => false
  end.

(** The ten [if] statements. *)
Definition rule_battery (flow flow_type analysis categories_found : val)
    (improvement_goal : option string) : M unit :=
  let is_agent_flow := is_agent_type flow_type in
  let goal_lower := lower_goal improvement_goal in
  has_memory <~ contains categories_found "memory" ;;
  _ <~ when (negb has_memory) (append_suggestion analysis memory_suggestion) ;;
  _ <~ (if str_in "knowledge" goal_lower
        then has_vs <~ contains categories_found "vector_store" ;;
             when (negb has_vs) (vector_store_rule analysis categories_found)
        else ret tt) ;;
  _ <~ (if is_agent_flow
        then has_tool <~ contains categories_found "tool" ;;
             when (negb has_tool) (append_suggestion analysis tools_suggestion)
        else ret tt) ;;
  _ <~ (if str_in "format" goal_lower
        then has_parser <~ contains categories_found "output_parser" ;;
             when (negb has_parser)
               (append_suggestion analysis output_parser_suggestion)
        else ret tt) ;;
  has_prompt <~ contains categories_found "prompt" ;;
  _ <~ when has_prompt (append_practice analysis prompt_practice) ;;
  is_public <~ (p <~ get flow "isPublic" (ret VNone) ;; truthy p) ;;
  _ <~ (if is_public
        then has_mod <~ contains categories_found "moderation" ;;
             when (negb has_mod)
               (append_suggestion analysis moderation_suggestion)
        else ret tt) ;;
  has_cache <~ contains categories_found "cache" ;;
  _ <~ when (negb has_cache) (append_practice analysis cache_practice) ;;
  _ <~ when (str_in "accuracy" goal_lower || str_in "better" goal_lower)
         (append_suggestion analysis accuracy_suggestion) ;;
  _ <~ when (str_in "fast" goal_lower || str_in "speed" goal_lower)
         (append_suggestion analysis speed_suggestion) ;;
  when (str_in "handle" goal_lower || str_in "support" goal_lower)
    (append_suggestion analysis (capability_suggestion improvement_goal)).

(** [fuel] bounds the number of passes of the loop over the nodes. *)
Definition analyze_flow_data (fuel : nat) (json_loads : string -> result json)
    (flow : val) (improvement_goal : option string) : M val :=
  flow_type <~ get flow "type" (ret (VStr "CHATFLOW")) ;;
  flow_name <~ get flow "name" (ret (VStr "Unknown")) ;;
  nodes_list <~ new_list [] ;;
  suggestions_list <~ new_list [] ;;
  practices_list <~ new_list [] ;;
  issues_list <~ new_list [] ;;
  analysis <~ new_dict [ ("flow_name", flow_name); ("flow_type", flow_type);
                         ("summary", VStr EmptyString);
                         ("nodes", nodes_list);
                         ("suggestions", suggestions_list);
                         ("best_practices", practices_list);
                         ("potential_issues", issues_list) ] ;;
  flow_data_str <~ get flow "flowData" (ret (VStr "{}")) ;;
  decoded <~ match flow_data_str with
             | VStr s =>
                 match json_loads s with
                 | Ok j => v <~ alloc_json j ;; ret (Some v)
                 | Raise JSONDecodeError | Raise TypeError => ret None
                 | Raise e => throw e
                 end
             | v => ret (Some v)
             end ;;
  match decoded with
  | None =>
      target <~ getitem analysis "potential_issues" ;;
      _ <~ append target (VStr corrupted_issue) ;;
      ret analysis
  | Some flow_data =>
      nodes <~ get flow_data "nodes" (new_list []) ;;
      edges <~ get flow_data "edges" (new_list []) ;;
      categories_found <~ new_set ;;
      _ <~ for_in fuel nodes (node_step analysis categories_found) ;;
      n_nodes <~ len nodes ;;
      n_edges <~ len edges ;;
      _ <~ setitem analysis "summary"
             (VStr ("Flow contains " ++ str_of_nat n_nodes ++ " nodes and "
                      ++ str_of_nat n_edges ++ " connections.")%string) ;;
      _ <~ rule_battery flow flow_type analysis categories_found
             improvement_goal ;;
      ret analysis
  end.

(** *** Vocabulary of the statements about the heap *)

Section FrameVocabulary.

(** The heap the call starts from. *)
Variable h0 : list obj.

(** The heap still starts with [h0], and no in-place update has touched a
    location of [h0]. *)
Definition framed (s : state) : Prop :=
  firstn (List.length h0) (heap s) = h0 /\
  Forall (fun l => List.length h0 <= l) (writes s).

Definition is_fresh (v : val) : Prop :=
  exists l, v = VRef l /\ List.length h0 <= l.

(** The dict at [la] is the analysis under construction: a new object whose
    four list-valued keys hold new lists. *)
Definition shaped (la : loc) (s : state) : Prop :=
  List.length h0 <= la /\
  exists d,
    nth_error (heap s) la = Some (ODict d) /\
    Forall (fun k => exists v, lookup d k = Some v /\ is_fresh v)
           ["nodes"; "suggestions"; "best_practices"; "potential_issues"].

Definition inv (la : loc) (s : state) : Prop := framed s /\ shaped la s.

(** When [m] starts in a state with [P]: if it returns [a], the state has
    [Q a]; if it does not, the state is still framed. *)
Definition triple {A : Type} (P : state -> Prop) (m : M A)
    (Q : A -> state -> Prop) : Prop :=
  forall s, P s ->
    match m s with
    | (Done a, s') => Q a s'
    | (_, s') => framed s'
    end.

(** [m] keeps the invariant [I] and returns a value with [phi]. *)
Definition keeps {A : Type} (I : state -> Prop) (m : M A) (phi : A -> Prop)
  : Prop :=
  triple I m (fun a s => phi a /\ I s).

Definition any {A : Type} (_ : A) : Prop := True.

(** The invariants at hand all contain [framed]. *)
Class Framing (I : state -> Prop) : Prop := {
  framing : forall s, I s -> framed s;
  framing_alloc :
    forall o s, I s -> I (mk_state (heap s ++ [o]) (writes s))
}.

End FrameVocabulary.

(** Running a call from a heap with an empty log. *)
Definition run {A : Type} (m : M A) (h : list obj) : outcome A * state :=
  m (mk_state h []).

End Store.

(** *** Vocabulary of the statements about [analyze_flow_data] *)

(** The flow's graph description decodes (or needs no decoding). *)
Definition decodes (json_loads : string -> result json) (flow : pydict) : Prop :=
  exists flow_data,
    decode_flow_data json_loads (flow_data_str flow) = Ok (Some flow_data).


(** The flow's graph description is a string on which the decoder raises
    one of the two exceptions of the [except] clause. *)
Definition decode_caught (json_loads : string -> result json) (flow : pydict)
  : Prop :=
  exists s e,
    flow_data_str flow = JStr s /\ json_loads s = Raise e /\
    (e = JSONDecodeError \/ e = TypeError).

(** The flow's graph description is a string on which the decoder raises
    [e], an exception that the [except] clause does not name. *)
Definition decode_escapes (json_loads : string -> result json) (flow : pydict)
    (e : exn) : Prop :=
  exists s,
    flow_data_str flow = JStr s /\ json_loads s = Raise e /\
    e <> JSONDecodeError /\ e <> TypeError.

(** A raw node and the entry the analysis lists for it. *)
Definition entry_describes (raw : json) (e : node_entry) : Prop :=
  exists node data,
    raw = JObj node /\
    dict_get node "data" (JObj []) = JObj data /\
    node_label e =
      match lookup data "label" with
      | Some l => l
      | None =>
          match lookup node "id" with
          | Some i => i
          | None => JStr "Unnamed"
          end
      end /\
    JStr (node_type e) =
      match lookup data "type" with
      | Some t => t
      | None =>
          match lookup data "name" with
          | Some n => n
          | None => JStr "Unknown"
          end
      end /\
    node_id e = dict_get node "id" JNull /\
    node_category e = categorize_node (node_type e).

(** A raw node of the expected shape: a dict whose [data], when present, is
    a dict whose [type] (or, failing that, [name]) is a string when
    present. *)
Definition node_shaped (raw : json) : Prop :=
  exists node data t,
    raw = JObj node /\
    dict_get node "data" (JObj []) = JObj data /\
    dict_get data "type" (dict_get data "name" (JStr "Unknown")) = JStr t.

(** [[x] if cond else []] *)
Definition opt {A : Type} (cond : bool) (x : A) : list A :=
  if cond then [x] else [].

(** Some node of the analysis has category [c]. *)
Definition has_category (a : analysis) (c : string) : bool :=
  existsb (fun n => String.eqb (node_category n) c) (nodes a).

(** The analysis holds a suggestion with this title and priority. *)
Definition suggests (a : analysis) (t p : string) : Prop :=
  exists s, In s (suggestions a) /\ title s = t /\ priority s = p.

(** [l1] is a subsequence of [l2]. *)
Inductive subseq {A : Type} : list A -> list A -> Prop :=
| subseq_nil : subseq [] []
| subseq_skip (x : A) (l1 l2 : list A) : subseq l1 l2 -> subseq l1 (x :: l2)
| subseq_keep (x : A) (l1 l2 : list A) : subseq l1 l2 -> subseq (x :: l1) (x :: l2).

(** The label of a raw node as the specification words it: nested [label],
    then nested [name], then the node's [id], then [Unnamed]. *)
Definition label_as_specified (node data : pydict) : json :=
  match lookup data "label" with
  | Some l => l
  | None =>
      match lookup data "name" with
      | Some n => n
      | None =>
          match lookup node "id" with
          | Some i => i
          | None => JStr "Unnamed"
          end
      end
  end.

(** The titles of the five rules that test the goal text. *)
Definition goal_gated_titles : list string :=
  [ "Add Vector Store for Knowledge Base"; "Add Output Parser";
    "Improve Response Accuracy"; "Improve Response Speed";
    "Extend Capabilities" ].

(** *** Concrete flows *)

(** The flow of the repository's own tests: one [ChatOpenAI] node, the graph
    given as JSON text. *)
Definition chat_flow : pydict :=
  [ ("name", JStr "Test"); ("type", JStr "CHATFLOW");
    ("flowData",
     JStr (Json.requote "{'nodes': [{'data': {'type': 'ChatOpenAI'}}], 'edges': []}")) ].

(** A flow whose only node has an [id] and a nested [name] but no nested
    [label]. *)
Definition named_node : pydict :=
  [ ("id", JStr "n1");
    ("data", JObj [("type", JStr "ChatOpenAI"); ("name", JStr "chatOpenAI")]) ].

Definition named_node_flow : pydict :=
  [ ("name", JStr "Test"); ("type", JStr "CHATFLOW");
    ("flowData",
     JStr (Json.requote
       "{'nodes': [{'id': 'n1', 'data': {'type': 'ChatOpenAI', 'name': 'chatOpenAI'}}], 'edges': []}")) ].

(** The corrupted flow of the tests. *)
Definition corrupted_flow : pydict :=
  [ ("name", JStr "Test"); ("type", JStr "CHATFLOW");
    ("flowData", JStr "invalid json {") ].

(** A flow whose graph description is one integer literal of 4301 digits,
    which is JSON text that [int] does not convert. *)
Definition long_number : string := String.concat EmptyString (repeat "1" 4301).

Definition long_number_flow : pydict :=
  [ ("name", JStr "Test"); ("type", JStr "CHATFLOW");
    ("flowData", JStr long_number) ].

(** *** A flow in the heap *)

(** A flow whose graph is an already decoded structure. *)
Definition decoded_flow : pydict :=
  [ ("name", JStr "Test"); ("type", JStr "AGENTFLOW"); ("isPublic", JBool true);
    ("flowData",
     JObj [ ("nodes", JArr [JObj named_node]); ("edges", JArr []) ]) ].

(** The heap that holds [decoded_flow] and nothing else, and the reference
    to the flow in it. *)
Definition decoded_heap : list Store.obj :=
  Store.heap (snd (Store.run (Store.alloc_json (JObj decoded_flow)) [])).

Definition decoded_flow_ref : Store.val :=
  match fst (Store.run (Store.alloc_json (JObj decoded_flow)) []) with
  | Store.Done v => v
  | _ => Store.VNone
  end.

(** What a call on a flow held in a fresh heap does: the dict it returns,
    read back as a value, or the exception it raises. *)
Definition store_analysis (json_loads : string -> result json)
    (flow : pydict) (goal : option string) : option (result json) :=
  match Store.run (Store.alloc_json (JObj flow)) [] with
  | (Store.Done ref, s) =>
      match Store.analyze_flow_data 100 json_loads ref goal
              (Store.mk_state (Store.heap s) []) with
      | (Store.Done a, s') => option_map Ok (Store.reify 8 (Store.heap s') a)
      | (Store.Raised e, _) => Some (Raise e)
      | _ => None
      end
  | _ => None
  end.

(** The same for the model without a heap. *)
Definition pure_analysis (json_loads : string -> result json)
    (flow : pydict) (goal : option string) : option (result json) :=
  match analyze_flow_data json_loads flow goal with
  | Ok a => Some (Ok (analysis_to_json a))
  | Raise e => Some (Raise e)
  end.

(** Graph descriptions of unexpected shapes. *)
Definition odd_graphs : list string :=
  map Json.requote
    [ "[]"; "3"; "null"; "'nodes'";
      "{'nodes': 3}"; "{'nodes': null, 'edges': []}";
      "{'nodes': ['x']}"; "{'nodes': [[]]}";
      "{'nodes': [{'data': {'type': 5}}]}";
      "{'nodes': [{'data': {'name': null}}]}";
      "{'nodes': [{'data': 'x'}]}";
      "{'nodes': [], 'edges': null}"; "{'nodes': [], 'edges': 7}";
      "{'nodes': {'a': 1}}"; "{'nodes': {}}"; "{'nodes': 'ab'}"; "{'nodes': ''}";
      "{'nodes': [{}], 'edges': 'abc'}"; "{'nodes': [{'id': 4}], 'edges': {'k': []}}";
      "{'nodes': [{'data': {'type': 'Cache'}}, {'data': {'name': 'promptTemplate'}}, 5]}";
      "{'edges': [1, 2, 3]}" ].

(* ===================================================================== *)
(** ** [format_flow_list] *)
(* ===================================================================== *)

(** One element of the comprehension [simplified_flows]: the dict literal,
    key by key.  [flow.get(key)] is [None] for a missing key. *)
Definition simplified_flow (flow : json) : result pydict :=
  id <- py_get flow "id" JNull ;;
  name <- py_get flow "name" JNull ;;
  type <- py_get flow "type" (JStr "CHATFLOW") ;;
  deployed <- py_get flow "deployed" (JBool false) ;;
  isPublic <- py_get flow "isPublic" (JBool false) ;;
  category <- py_get flow "category" JNull ;;
  updatedDate <- py_get flow "updatedDate" JNull ;;
  Ok [ ("id", id); ("name", name); ("type", type); ("deployed", deployed);
       ("isPublic", isPublic); ("category", category);
       ("updatedDate", updatedDate) ].

(** [[f(x) for x in xs]], stopping at the first exception. *)
Fixpoint map_each {A B : Type} (f : A -> result B) (xs : list A)
  : result (list B) :=
  match xs with
  | [] => Ok []
  | x :: rest => y <- f x ;; ys <- map_each f rest ;; Ok (y :: ys)
  end.

(** Body of [for flow in simplified_flows]: the lines appended for one
    flow. *)
Definition flow_lines (flow : pydict) : list string :=
  let flow_type := dict_get flow "type" (JStr "CHATFLOW") in
  let type_indicator := if is_agent_type flow_type then "[AGENT]" else "[CHAT]" in
  let deployed :=
    if truthy (dict_get flow "deployed" JNull) then "[YES]" else "[NO]" in
  let public :=
    if truthy (dict_get flow "isPublic" JNull) then "[PUBLIC]" else "[PRIVATE]" in
  [ ("## " ++ type_indicator ++ " "
       ++ py_str (dict_get flow "name" (JStr "Unnamed")))%string;
    ("- **ID**: `" ++ py_str (dict_get flow "id" (JStr "N/A")) ++ "`")%string;
    ("- **Type**: " ++ py_str flow_type)%string;
    ("- **Deployed**: " ++ deployed)%string;
    ("- **Public**: " ++ public)%string ]
  ++ (if truthy (dict_get flow "category" JNull)
      then [("- **Categories**: " ++ py_str (dict_get flow "category" JNull))%string]
      else [])
  ++ [ ("- **Updated**: "
          ++ py_str (dict_get flow "updatedDate" (JStr "N/A")))%string;
       EmptyString ].

(** [flows] is whatever the caller passes: the comprehension iterates it
    and calls [get] on each element. *)
Definition format_flow_list (flows : json) (format_type : ResponseFormat)
  : result string :=
  items <- py_iter flows ;;
  simplified_flows <- map_each simplified_flow items ;;
  match format_type with
  | JSON => Ok (Json.dumps (JArr (map JObj simplified_flows)))
  | MARKDOWN =>
      if negb (truthy flows) then Ok "No flows found."
      else
        Ok (String.concat nl
              (("# Flowise Flows" ++ nl)%string
               :: flat_map flow_lines simplified_flows))
  end.

(** The block of one flow in the listing, written on the flow as it came:
    a missing field is shown as [None]. *)
Definition listed_flow (flow : pydict) : list string :=
  let shown := fun key => py_str (dict_get flow key JNull) in
  let flow_type := dict_get flow "type" (JStr "CHATFLOW") in
  [ ("## " ++ (if is_agent_type flow_type then "[AGENT]" else "[CHAT]")
       ++ " " ++ shown "name")%string;
    ("- **ID**: `" ++ shown "id" ++ "`")%string;
    ("- **Type**: " ++ py_str flow_type)%string;
    ("- **Deployed**: "
       ++ (if truthy (dict_get flow "deployed" JNull) then "[YES]" else "[NO]"))%string;
    ("- **Public**: "
       ++ (if truthy (dict_get flow "isPublic" JNull) then "[PUBLIC]" else "[PRIVATE]"))%string ]
  ++ (if truthy (dict_get flow "category" JNull)
      then [("- **Categories**: " ++ shown "category")%string]
      else [])
  ++ [ ("- **Updated**: " ++ shown "updatedDate")%string; EmptyString ].

(** The seven fields that the listing keeps of a flow, with the defaults
    of the comprehension. *)
Definition listed_fields (flow : pydict) : json :=
  JObj [ ("id", dict_get flow "id" JNull);
         ("name", dict_get flow "name" JNull);
         ("type", dict_get flow "type" (JStr "CHATFLOW"));
         ("deployed", dict_get flow "deployed" (JBool false));
         ("isPublic", dict_get flow "isPublic" (JBool false));
         ("category", dict_get flow "category" JNull);
         ("updatedDate", dict_get flow "updatedDate" JNull) ].

(* ===================================================================== *)
(** ** [format_flow_detail] *)
(* ===================================================================== *)

(** One entry of [nodes_summary]: the dict
    [{"id": .., "type": .., "label": .., "category": ..}]. *)
Record summary_node : Type := mk_summary_node {
  sn_id : json;
  sn_type : json;
  sn_label : json;
  sn_category : json
}.

Definition summary_node_to_json (n : summary_node) : json :=
  JObj [ ("id", sn_id n); ("type", sn_type n);
         ("label", sn_label n); ("category", sn_category n) ].

(** Body of [for node in flow_data.get("nodes", [])]. *)
Definition summary_step (nodes_summary : list summary_node) (node : json)
  : result (list summary_node) :=
  node_data <- py_get node "data" (JObj []) ;;
  id <- py_get node "id" JNull ;;
  type_default <- py_get node "type" (JStr "Unknown") ;;
  type <- py_get node_data "type" type_default ;;
  label_default <- py_get node_data "name" (JStr "Unnamed") ;;
  label <- py_get node_data "label" label_default ;;
  category <- py_get node_data "category" (JStr "other") ;;
  Ok (nodes_summary ++ [mk_summary_node id type label category]).

(** The [try] block.  A [JSONDecodeError] leaves [nodes_summary] empty; so
    does the [TypeError] of a [nodes] value that cannot be iterated, which
    is raised before the first node is reached.  The calls to [get] raise
    [AttributeError] only, which the handler lets through, as it does any
    other exception of the decoder. *)
Definition nodes_summary_of (json_loads : string -> result json)
    (flow : pydict) : result (list summary_node) :=
  decoded <- decode_flow_data json_loads (flow_data_str flow) ;;
  match decoded with
  | None => Ok []
  | Some flow_data =>
      nodes <- py_get flow_data "nodes" (JArr []) ;;
      match py_iter nodes with
      | Ok items => for_each summary_step items []
      | Raise TypeError => Ok []
      | Raise e => Raise e
      end
  end.

(** The dict [simplified_flow] of [format_flow_detail]. *)
Definition detailed_flow (flow : pydict) (nodes_summary : list summary_node)
  : json :=
  JObj [ ("id", dict_get flow "id" JNull);
         ("name", dict_get flow "name" JNull);
         ("type", dict_get flow "type" (JStr "CHATFLOW"));
         ("deployed", dict_get flow "deployed" (JBool false));
         ("isPublic", dict_get flow "isPublic" (JBool false));
         ("category", dict_get flow "category" JNull);
         ("createdDate", dict_get flow "createdDate" JNull);
         ("updatedDate", dict_get flow "updatedDate" JNull);
         ("nodes", JArr (map summary_node_to_json nodes_summary)) ].

Definition detail_lines (flow : pydict) (nodes_summary : list summary_node)
  : list string :=
  let flow_type := dict_get flow "type" (JStr "CHATFLOW") in
  let type_indicator := if is_agent_type flow_type then "[AGENT]" else "[CHAT]" in
  [ ("# " ++ type_indicator ++ " "
       ++ py_str (dict_get flow "name" (JStr "Unnamed")))%string;
    EmptyString;
    ("**ID**: `" ++ py_str (dict_get flow "id" (JStr "N/A")) ++ "`")%string;
    ("**Type**: " ++ py_str flow_type)%string;
    ("**Deployed**: "
       ++ (if truthy (dict_get flow "deployed" JNull) then "Yes" else "No"))%string;
    ("**Public**: "
       ++ (if truthy (dict_get flow "isPublic" JNull) then "Yes" else "No"))%string;
    ("**Created**: " ++ py_str (dict_get flow "createdDate" (JStr "N/A")))%string;
    ("**Updated**: " ++ py_str (dict_get flow "updatedDate" (JStr "N/A")))%string ]
  ++ (if truthy (dict_get flow "category" JNull)
      then [("**Categories**: " ++ py_str (dict_get flow "category" JNull))%string]
      else [])
  ++ match nodes_summary with
     | [] => []
     | _ =>
         [EmptyString; "## Nodes"]
         ++ map (fun node =>
                   ("- **" ++ py_str (sn_label node) ++ "** ("
                      ++ py_str (sn_type node) ++ ")")%string)
                nodes_summary
     end.

Definition format_flow_detail (json_loads : string -> result json)
    (flow : pydict) (format_type : ResponseFormat) : result string :=
  nodes_summary <- nodes_summary_of json_loads flow ;;
  match format_type with
  | JSON => Ok (Json.dumps (detailed_flow flow nodes_summary))
  | MARKDOWN => Ok (String.concat nl (detail_lines flow nodes_summary))
  end.

(** A raw node and the entry [format_flow_detail] lists for it. *)
Definition summary_describes (raw : json) (e : summary_node) : Prop :=
  exists node data,
    raw = JObj node /\
    dict_get node "data" (JObj []) = JObj data /\
    sn_id e = dict_get node "id" JNull /\
    sn_type e =
      match lookup data "type" with
      | Some t => t
      | None => dict_get node "type" (JStr "Unknown")
      end /\
    sn_label e =
      match lookup data "label" with
      | Some l => l
      | None => dict_get data "name" (JStr "Unnamed")
      end /\
    sn_category e = dict_get data "category" (JStr "other").

(** What [format_flow_detail] returns when its node list is [l]. *)
Definition detail_text (flow : pydict) (l : list summary_node)
    (format_type : ResponseFormat) : string :=
  match format_type with
  | JSON => Json.dumps (detailed_flow flow l)
  | MARKDOWN => String.concat nl (detail_lines flow l)
  end.

(** The graph cannot be read: the decoder raises on its text one of the
    two exceptions that the handler names, or its [nodes] entry is [None],
    a [bool] or a number. *)
Definition graph_unreadable (json_loads : string -> result json)
    (flow : pydict) : Prop :=
  decode_caught json_loads flow
  \/ exists fd,
       decode_flow_data json_loads (flow_data_str flow) = Ok (Some (JObj fd)) /\
       py_iter (dict_get fd "nodes" (JArr [])) = Raise TypeError.


(* ===================================================================== *)
(** ** [models.py]: the input models *)
(* ===================================================================== *)

(** The inputs of the tools are pydantic models; a value of one of the
    records below is an input that passed validation. *)

Inductive FlowType : Type := CHATFLOW | AGENTFLOW.

(** [flow_type.value] *)
Definition FlowType_value (t : FlowType) : string :=
  match t with
  | CHATFLOW => "CHATFLOW"
  | AGENTFLOW => "AGENTFLOW"
  end.

(** What a field validator does with a value: it returns it, raises
    [ValueError(message)] itself, or lets an exception of a call it makes
    through. *)
Inductive validation (A : Type) : Type :=
| Valid (v : A)
| RaiseValueError (message : string)
| Propagated (e : exn).
Arguments Valid {A} v.
Arguments RaiseValueError {A} message.
Arguments Propagated {A} e.

Module ListFlowsInput.
Record t : Type := mk {
  flow_type : option FlowType;
  response_format : ResponseFormat
}.
End ListFlowsInput.

Module GetFlowInput.
Record t : Type := mk {
  flow_id : string;
  response_format : ResponseFormat
}.
End GetFlowInput.

Module AnalyzeFlowInput.
Record t : Type := mk {
  flow_id : string;
  improvement_goal : option string;
  response_format : ResponseFormat
}.
End AnalyzeFlowInput.

Module PredictionInput.
Record t : Type := mk {
  flow_id : string;
  question : string;
  session_id : option string;
  streaming : bool;
  override_config : option pydict
}.
End PredictionInput.

Module CreateFlowInput.

(** [json.loads(v)] is tried for its exception only; the [except] clause
    names [json.JSONDecodeError]. *)
Definition validate_flow_data (json_loads : string -> result json) (v : string)
  : validation string :=
  match json_loads v with
  | Ok _ => Valid v
  | Raise JSONDecodeError =>
      RaiseValueError "flow_data must be a valid JSON string"
  | Raise e => Propagated e
  end.

End CreateFlowInput.

Module UpdateFlowInput.

Definition validate_flow_data (json_loads : string -> result json)
    (v : option string) : validation (option string) :=
  match v with
  | Some s =>
      match json_loads s with
      | Ok _ => Valid v
      | Raise JSONDecodeError =>
          RaiseValueError "flow_data must be a valid JSON string"
      | Raise e => Propagated e
      end
  | None => Valid v
  end.

End UpdateFlowInput.

(* ===================================================================== *)
(** ** [client.py] *)
(* ===================================================================== *)

Module Client.

(** An exception, as far as [make_api_request] and [handle_api_error] tell
    exceptions apart: an instance of [httpx.HTTPStatusError] (with the
    status and the text of its response), of [httpx.TimeoutException], of
    [httpx.ConnectError], or any other exception, with its
    [type(e).__name__].  Each has its [str(e)], the [message]. *)
Inductive exception : Type :=
| HTTPStatusError (status_code : Z) (response_text : string) (message : string)
| TimeoutException (message : string)
| ConnectError (message : string)
| Exception (class_name message : string).

(** [str(e)] *)
Definition str_of_exception (e : exception) : string :=
  match e with
  | HTTPStatusError _ _ message => message
  | TimeoutException message => message
  | ConnectError message => message
  | Exception _ message => message
  end.

Inductive outcome (A : Type) : Type :=
| Returned (a : A)
| Raised (e : exception).
Arguments Returned {A} a.
Arguments Raised {A} e.

Definition handle_api_error (e : exception) : string :=
  match e with
  | HTTPStatusError status text _ =>
      if (status =? 401)%Z then
        "Error: Authentication failed. Please check your FLOWISE_API_KEY environment variable."
      else if (status =? 403)%Z then
        "Error: Permission denied. Your API key may not have access to this resource."
      else if (status =? 404)%Z then
        "Error: Resource not found. Please verify the flow ID is correct."
      else if (status =? 429)%Z then
        "Error: Rate limit exceeded. Please wait before making more requests."
      else if (500 <=? status)%Z then
        "Error: Flowise server error (status " ++ str_of_Z status
          ++ "). Check if Flowise is running."
      else
        "Error: API request failed with status " ++ str_of_Z status ++ ": " ++ text
  | TimeoutException _ =>
      "Error: Request timed out. The Flowise server may be overloaded or unreachable."
  | ConnectError _ =>
      "Error: Could not connect to Flowise. Verify FLOWISE_BASE_URL and that Flowise is running."
  | Exception class_name message =>
      "Error: " ++ class_name ++ ": " ++ message
  end.

Section Requests.

(** Python's floats and [float(s)] on a string ([None] for [ValueError]);
    the process environment; and the HTTP exchange, [client.request(..)]
    followed by [response.raise_for_status()]. *)
Variable float : Type.
Variable float_of_string : string -> option float.
Variable environ : string -> option string.

Record config : Type := mk_config {
  base_url : string;
  api_key : string;
  timeout : float
}.

Record request : Type := mk_request {
  req_method : string;
  req_url : string;
  req_headers : list (string * string);
  req_json : option pydict;
  req_params : option pydict;
  req_timeout : float
}.

(** What the code reads of a response: [status_code],
    [headers.get("content-type")], [json()] and [text]. *)
Record response : Type := mk_response {
  status_code : Z;
  content_type : option string;
  response_json : outcome json;
  response_text : string
}.

Variable send : request -> outcome response.

(** [os.getenv(name, default)] *)
Definition getenv (name default : string) : string :=
  match environ name with
  | Some v => v
  | None => default
  end.

Definition get_config : outcome config :=
  let base_url := getenv "FLOWISE_BASE_URL" "http://localhost:3000" in
  let api_key := getenv "FLOWISE_API_KEY" EmptyString in
  let timeout_text := getenv "FLOWISE_TIMEOUT" "60.0" in
  match float_of_string timeout_text with
  | Some timeout => Returned (mk_config base_url api_key timeout)
  | None =>
      Raised (Exception "ValueError"
                ("could not convert string to float: " ++ repr_str timeout_text))
  end.

(** The three [except] clauses. *)
Definition translate {A : Type} (o : outcome A) : outcome A :=
  match o with
  | Raised (HTTPStatusError status text _) =>
      Raised (Exception "FlowiseClientError"
                ("API request failed with status " ++ str_of_Z status
                   ++ ": " ++ text))
  | Raised (TimeoutException _) =>
      Raised (Exception "ConnectionError" "Request timed out")
  | Raised (ConnectError message) =>
      Raised (Exception "ConnectionError"
                ("Failed to connect to Flowise: " ++ message))
  | _ => o
  end.

(** The request: the URL, the content type, and the key as a bearer token
    when there is one. *)
Definition api_request (config : config) (endpoint method : string)
    (data params : option pydict) : request :=
  let url := (base_url config ++ "/api/v1/" ++ endpoint)%string in
  let headers := [("Content-Type", "application/json")] in
  let headers :=
    if negb (String.eqb (api_key config) EmptyString)
    then headers ++ [("Authorization", ("Bearer " ++ api_key config)%string)]
    else headers in
  mk_request method url headers data params (timeout config).

Definition make_api_request (endpoint method : string)
    (data params : option pydict) : outcome json :=
  match get_config with
  | Raised e => Raised e
  | Returned config =>
      translate
        (match send (api_request config endpoint method data params) with
         | Raised e => Raised e
         | Returned response =>
             if (status_code response =? 204)%Z
             then Returned (JObj [("success", JBool true)])
             else
               let content_type :=
                 match content_type response with
                 | Some c => c
                 | None => EmptyString
                 end in
               if str_in "application/json" content_type
               then response_json response
               else Returned (JStr (response_text response))
         end)
  end.

End Requests.

End Client.

(* ===================================================================== *)
(** ** [server.py]: the tools that list, show and analyse flows, and the
       resources *)
(* ===================================================================== *)

Module Server.
Import Client.

(** [type(e).__name__] *)
Definition exn_name (e : exn) : string :=
  match e with
  | AttributeError => "AttributeError"
  | TypeError => "TypeError"
  | KeyError => "KeyError"
  | RuntimeError => "RuntimeError"
  | JSONDecodeError => "JSONDecodeError"
  | ValueError => "ValueError"
  | RecursionError => "RecursionError"
  end.

(** The end of a tool's [try] block: its text, or
    [except Exception as e: return handle_api_error(e)] for an exception
    of the formatting code.  [str_e] is [str(e)]: the wording of Python's
    own error messages is an input of the model. *)
Definition caught (body : result string) (str_e : string) : string :=
  match body with
  | Ok text => text
  | Raise e => handle_api_error (Exception (exn_name e) str_e)
  end.

(** The first thing that each formatter does with the flow is to call its
    [get]. *)
Definition as_dict (flow : json) : result pydict :=
  match flow with
  | JObj d => Ok d
  | _ => Raise AttributeError
  end.

(** [[f for f in flows if keep(f)]], stopping at the first exception. *)
Fixpoint filter_each {A : Type} (keep : A -> result bool) (xs : list A)
  : result (list A) :=
  match xs with
  | [] => Ok []
  | x :: rest =>
      k <- keep x ;;
      kept <- filter_each keep rest ;;
      Ok (if k then x :: kept else kept)
  end.

(** [json.dumps(v)] without [indent]: the items of a list and the members of
    a dict are separated by a comma and a space. *)
Fixpoint emit_flat (v : json) : string :=
  match v with
  | JNull => "null"
  | JBool true => "true"
  | JBool false => "false"
  | JNum n => str_of_Z n
  | JStr s => Json.quote s
  | JArr [] => "[]"
  | JArr (x :: xs) =>
      ("[" ++ emit_flat x ++ Json.join_tail emit_flat ", " xs ++ "]")%string
  | JObj [] => "{}"
  | JObj (kx :: kxs) =>
      let member := fun kv : string * json =>
        (Json.quote (fst kv) ++ ": " ++ emit_flat (snd kv))%string in
      ("{" ++ member kx ++ Json.join_tail member ", " kxs ++ "}")%string
  end.

(** [d.update(other)]: the items of [other] are assigned one by one. *)
Definition dict_update (d other : pydict) : pydict :=
  fold_left (fun acc kv => dict_set acc (fst kv) (snd kv)) other d.

(** The request body that [flowise_predict] builds. *)
Definition predict_payload (params : PredictionInput.t) : pydict :=
  let payload := [("question", JStr (PredictionInput.question params))] in
  let payload :=
    if PredictionInput.streaming params
    then dict_set payload "streaming" (JBool true) else payload in
  let override_config : pydict := [] in
  let override_config :=
    match PredictionInput.session_id params with
    | Some session_id =>
        if truthy (JStr session_id)
        then dict_set override_config "sessionId" (JStr session_id)
        else override_config
    | None => override_config
    end in
  let override_config :=
    match PredictionInput.override_config params with
    | Some given =>
        if truthy (JObj given) then dict_update override_config given
        else override_config
    | None => override_config
    end in
  if truthy (JObj override_config)
  then dict_set payload "overrideConfig" (JObj override_config)
  else payload.

(** What [flowise_predict] returns for a response. *)
Definition predict_text (response : json) : string :=
  match response with
  | JObj d =>
      match lookup d "text" with
      | Some text => py_str text
      | None =>
          match lookup d "json" with
          | Some j => Json.dumps j
          | None => Json.dumps response
          end
      end
  | _ => py_str response
  end.

(** [f.get("type") == value] *)
Definition type_is (value : string) (f : json) : result bool :=
  t <- py_get f "type" JNull ;;
  Ok (match t with
      | JStr s => String.eqb s value
      | _ => false
      end).

Section Tools.

Variable float : Type.
Variable float_of_string : string -> option float.
Variable environ : string -> option string.
Variable send : request float -> outcome response.
Variable json_loads : string -> result json.

(** [await make_api_request(endpoint)] *)
Definition get (endpoint : string) : outcome json :=
  make_api_request float float_of_string environ send endpoint "GET" None None.

(** The statements of [flowise_list_flows] that follow the request. *)
Definition list_flows_text (params : ListFlowsInput.t) (flows : json)
  : result string :=
  flows <- match ListFlowsInput.flow_type params with
           | Some t =>
               items <- py_iter flows ;;
               kept <- filter_each (type_is (FlowType_value t)) items ;;
               Ok (JArr kept)
           | None => Ok flows
           end ;;
  format_flow_list flows (ListFlowsInput.response_format params).

Definition flowise_list_flows (params : ListFlowsInput.t) (str_e : string)
  : string :=
  match get "chatflows" with
  | Raised e => handle_api_error e
  | Returned flows => caught (list_flows_text params flows) str_e
  end.

Definition get_flow_text (params : GetFlowInput.t) (flow : json)
  : result string :=
  flow <- as_dict flow ;;
  format_flow_detail json_loads flow (GetFlowInput.response_format params).

Definition flowise_get_flow (params : GetFlowInput.t) (str_e : string)
  : string :=
  match get ("chatflows/" ++ GetFlowInput.flow_id params) with
  | Raised e => handle_api_error e
  | Returned flow => caught (get_flow_text params flow) str_e
  end.

Definition analyze_flow_text (params : AnalyzeFlowInput.t) (flow : json)
  : result string :=
  flow <- as_dict flow ;;
  analysis <- analyze_flow_data json_loads flow
                (AnalyzeFlowInput.improvement_goal params) ;;
  Ok (format_analysis analysis (AnalyzeFlowInput.response_format params)).

Definition flowise_analyze_flow (params : AnalyzeFlowInput.t) (str_e : string)
  : string :=
  match get ("chatflows/" ++ AnalyzeFlowInput.flow_id params) with
  | Raised e => handle_api_error e
  | Returned flow => caught (analyze_flow_text params flow) str_e
  end.

Definition flowise_predict (params : PredictionInput.t) : string :=
  match make_api_request float float_of_string environ send
          ("prediction/" ++ PredictionInput.flow_id params) "POST"
          (Some (predict_payload params)) None with
  | Raised e => handle_api_error e
  | Returned response => predict_text response
  end.

(** The resource [flowise://flows]. *)
Definition list_all_flows : string :=
  match get "chatflows" with
  | Raised e => emit_flat (JObj [("error", JStr (str_of_exception e))])
  | Returned flows => Json.dumps flows
  end.

(** The resource [flowise://flow/{flow_id}]. *)
Definition get_flow_resource (flow_id : string) : string :=
  match get ("chatflows/" ++ flow_id) with
  | Raised e => emit_flat (JObj [("error", JStr (str_of_exception e))])
  | Returned flow => Json.dumps flow
  end.

End Tools.

End Server.

(* ===================================================================== *)
(** ** Vocabulary of the further statements *)
(* ===================================================================== *)

(** The names [categorize_node] can return, in the order of its table. *)
Definition category_names : list string :=
  [ "llm"; "memory"; "vector_store"; "retriever"; "document_loader";
    "embeddings"; "tool"; "prompt"; "agent"; "chain"; "text_splitter";
    "moderation"; "cache"; "output_parser"; "other" ].

(** The suggestion says what to do in exactly one of its two ways: by
    naming nodes to add, or by giving tips. *)
Definition one_kind_of_advice (s : suggestion) : Prop :=
  (tips s = None /\ exists n ns, nodes_to_add s = Some (n :: ns))
  \/ (nodes_to_add s = None /\ exists t ts, tips s = Some (t :: ts)).

(** The goal text holds the keyword, in any letter case. *)
Definition goal_mentions (goal : option string) (kw : string) : Prop :=
  exists g, goal = Some g /\ occurs_ci kw g.

(** All eight suggestions, in rule order. *)
Definition every_suggestion (cats : str_set) (goal : option string)
  : list suggestion :=
  [ memory_suggestion; vector_store_suggestion cats; tools_suggestion;
    output_parser_suggestion; moderation_suggestion; accuracy_suggestion;
    speed_suggestion; capability_suggestion goal ].

(** The heading of each category in the nodes overview, the categories in
    the order of Python's string comparison. *)
Definition category_headings : list (string * string) :=
  [ ("agent", "### Agent"); ("cache", "### Cache"); ("chain", "### Chain");
    ("document_loader", "### Document Loader");
    ("embeddings", "### Embeddings"); ("llm", "### Llm");
    ("memory", "### Memory"); ("moderation", "### Moderation");
    ("other", "### Other"); ("output_parser", "### Output Parser");
    ("prompt", "### Prompt"); ("retriever", "### Retriever");
    ("text_splitter", "### Text Splitter"); ("tool", "### Tool");
    ("vector_store", "### Vector Store") ].


(** The request raised, or the statements after it did. *)
Definition tool_failed (api : Client.outcome json) (body : json -> result string)
  : Prop :=
  (exists e, api = Client.Raised e)
  \/ (exists v e, api = Client.Returned v /\ body v = Raise e).

(** The flow has a [type] field, and it is the string [value]. *)
Definition has_type (value : string) (flow : pydict) : bool :=
  match lookup flow "type" with
  | Some (JStr s) => String.eqb s value
  | _ => false
  end.

(** The session entry that [flowise_predict] puts into the overrides. *)
Definition session_entry (params : PredictionInput.t) : pydict :=
  match PredictionInput.session_id params with
  | Some s => if truthy (JStr s) then [("sessionId", JStr s)] else []
  | None => []
  end.

(** The overrides given with the input, none counting as empty. *)
Definition given_overrides (params : PredictionInput.t) : pydict :=
  match PredictionInput.override_config params with
  | Some given => given
  | None => []
  end.

(** *** Further concrete inputs *)

(** [chat_flow] with its edges changed and a field added. *)
Definition chat_flow_rewired : pydict :=
  [ ("name", JStr "Test"); ("type", JStr "CHATFLOW"); ("deployed", JBool true);
    ("flowData",
     JStr (Json.requote
       "{'nodes': [{'data': {'type': 'ChatOpenAI'}}], 'edges': [{'source': 'a'}]}")) ].


(** A server that answers every request with status 401. *)
Definition refusing (_ : Client.request unit) : Client.outcome Client.response :=
  Client.Raised
    (Client.HTTPStatusError 401%Z "Unauthorized"
       "Client error '401 Unauthorized' for url 'http://localhost:3000/api/v1/chatflows'").

(** Two flows, one of them without a [type] field, and a server that
    answers every request with them. *)
Definition two_flows : list pydict :=
  [ [("id", JStr "a"); ("name", JStr "Untyped")];
    [("id", JStr "b"); ("name", JStr "Agents"); ("type", JStr "AGENTFLOW")] ].

Definition serving (_ : Client.request unit) : Client.outcome Client.response :=
  Client.Returned
    (Client.mk_response 200%Z (Some "application/json; charset=utf-8")
       (Client.Returned (JArr (map JObj two_flows))) EmptyString).

(** A prediction input with a session and overrides that name another
    session. *)
Definition session_twice : PredictionInput.t :=
  PredictionInput.mk "flow-1" "Hello" (Some "s1") false
    (Some [("temperature", JNum 0); ("sessionId", JStr "s2")]).


(* ===================================================================== *)
(** * Properties *)
(* ===================================================================== *)

(** ** String primitives *)

Lemma lower_app (a b : string) :
  lower (a ++ b) = (lower a ++ lower b)%string.
Proof.
  induction a as [|c a IH]; simpl; [reflexivity|].
  now rewrite IH.
Qed.

Lemma lower_char_idem (c : ascii) : lower_char (lower_char c) = lower_char c.
Proof.
  destruct c as [[] [] [] [] [] [] [] []]; reflexivity.
Qed.

Lemma lower_idem (s : string) : lower (lower s) = lower s.
Proof.
  induction s as [|c s IH]; simpl; [reflexivity|].
  now rewrite lower_char_idem, IH.
Qed.

Lemma starts_with_spec (p s : string) :
  starts_with p s = true <-> exists post, s = (p ++ post)%string.
Proof.
  revert s; induction p as [|a p IH]; intros s; simpl.
  - split; [intros _; now exists s | reflexivity].
  - destruct s as [|b s].
    + split; [discriminate | intros [post H]; discriminate].
    + rewrite andb_true_iff, Ascii.eqb_eq, IH. split.
      * intros [-> [post ->]]. now exists post.
      * intros [post H]. injection H as -> ->. split; [reflexivity|now exists post].
Qed.

Lemma str_in_spec (needle hay : string) :
  str_in needle hay = true <->
  exists pre post, hay = (pre ++ needle ++ post)%string.
Proof.
  induction hay as [|c hay IH]; simpl.
  - destruct (starts_with needle EmptyString) eqn:E.
    + apply starts_with_spec in E as [post E]. split; [intros _|reflexivity].
      now exists EmptyString, post.
    + split; [discriminate|]. intros [pre [post H]].
      destruct pre; simpl in H.
      * assert (starts_with needle EmptyString = true) as E'
          by (apply starts_with_spec; now exists post).
        congruence.
      * discriminate.
  - destruct (starts_with needle (String c hay)) eqn:E.
    + apply starts_with_spec in E as [post E]. split; [intros _|reflexivity].
      now exists EmptyString, post.
    + rewrite IH. split.
      * intros [pre [post ->]]. now exists (String c pre), post.
      * intros [pre [post H]]. destruct pre as [|d pre]; simpl in H.
        -- assert (starts_with needle (String c hay) = true) as E'
             by (apply starts_with_spec; now exists post).
           congruence.
        -- injection H as _ ->. now exists pre, post.
Qed.

(** A case-insensitive occurrence survives lowering. *)
Lemma occurs_ci_lower (needle hay : string) :
  occurs_ci needle hay -> str_in needle (lower hay) = true.
Proof.
  intros [pre [w [post [-> Hw]]]].
  apply str_in_spec. exists (lower pre), (lower post).
  now rewrite !lower_app, Hw.
Qed.

(** A literal occurrence of an already lower-case word is one up to case. *)
Lemma str_in_occurs_ci (needle hay : string) :
  lower needle = needle -> str_in needle hay = true -> occurs_ci needle hay.
Proof.
  intros Hl H. apply str_in_spec in H as [pre [post ->]].
  now exists pre, needle, post.
Qed.

(** ** Classifier *)

Example categorize_ChatOpenAI : categorize_node "ChatOpenAI" = "llm".
Proof. reflexivity. Qed.
Example categorize_WindowMemory : categorize_node "WindowMemory" = "memory".
Proof. reflexivity. Qed.
Example categorize_FAISS : categorize_node "FAISS" = "vector_store".
Proof. reflexivity. Qed.
Example categorize_SerpAPI : categorize_node "SerpAPI" = "tool".
Proof. reflexivity. Qed.
Example categorize_SomeRandomNode : categorize_node "SomeRandomNode" = "other".
Proof. reflexivity. Qed.

Lemma any_kw_in_spec (keywords : list string) (text : string) :
  any_kw_in keywords text = true <->
  exists kw pre post, In kw keywords /\ text = (pre ++ kw ++ post)%string.
Proof.
  unfold any_kw_in. rewrite existsb_exists. split.
  - intros [kw [Hin H]]. apply str_in_spec in H as [pre [post H]].
    now exists kw, pre, post.
  - intros [kw [pre [post [Hin H]]]]. exists kw. split; [assumption|].
    apply str_in_spec. now exists pre, post.
Qed.

(** The loop returns the category of the first matching rule. *)
Lemma first_match_hit (pre post : list (list string * string))
      (kws : list string) (c text : string) :
  Forall (fun r => any_kw_in (fst r) text = false) pre ->
  any_kw_in kws text = true ->
  first_match (pre ++ (kws, c) :: post) text = c.
Proof.
  induction 1 as [|[k c'] pre Hk _ IH]; intros Hm; simpl.
  - now rewrite Hm.
  - simpl in Hk. rewrite Hk. now apply IH.
Qed.

Lemma first_match_miss (rules : list (list string * string)) (text : string) :
  Forall (fun r => any_kw_in (fst r) text = false) rules ->
  first_match rules text = "other".
Proof.
  induction 1 as [|[k c] rules Hk _ IH]; simpl; [reflexivity|].
  simpl in Hk. now rewrite Hk.
Qed.

Lemma first_match_inv (rules : list (list string * string)) (text : string) :
  (exists pre kws post,
      rules = pre ++ (kws, first_match rules text) :: post /\
      Forall (fun r => any_kw_in (fst r) text = false) pre /\
      any_kw_in kws text = true)
  \/ (first_match rules text = "other" /\
      Forall (fun r => any_kw_in (fst r) text = false) rules).
Proof.
  induction rules as [|[k c] rules IH]; simpl.
  - right. split; [reflexivity|constructor].
  - destruct (any_kw_in k text) eqn:E.
    + left. exists [], k, rules. repeat split; [constructor|assumption].
    + destruct IH as [[pre [kws [post [Heq [Hpre Hm]]]]]|[Ho Hall]].
      * left. exists ((k, c) :: pre), kws, post. repeat split.
        -- simpl. now rewrite <- Heq.
        -- constructor; assumption.
        -- assumption.
      * right. split; [assumption|]. constructor; assumption.
Qed.

Lemma rule_matches_iff (keywords : list string) (text : string) :
  rule_matches keywords text <-> any_kw_in keywords text = true.
Proof. symmetry. apply any_kw_in_spec. Qed.

Lemma rule_misses_iff (keywords : list string) (text : string) :
  ~ rule_matches keywords text <-> any_kw_in keywords text = false.
Proof.
  rewrite rule_matches_iff. destruct (any_kw_in keywords text); split; congruence.
Qed.

Lemma Forall_rule_misses (rules : list (list string * string)) (text : string) :
  Forall (fun r => ~ rule_matches (fst r) text) rules <->
  Forall (fun r => any_kw_in (fst r) text = false) rules.
Proof.
  split; apply Forall_impl; intros r; apply rule_misses_iff.
Qed.

(** Strings that differ in letter case only are classified alike. *)
Lemma categorize_node_case_insensitive (s t : string) :
  lower s = lower t -> categorize_node s = categorize_node t.
Proof. unfold categorize_node. now intros ->. Qed.

(** C1, the clause on agent and output keywords as the claim states it: a
    type string that holds a keyword of rule 9 and a keyword of rule 14 is
    not always classified [agent]; an earlier rule (here rule 7, [tool])
    takes it. *)
Lemma categorize_agent_output_refuted :
  rule_matches agent_keywords (lower "ToolAgentOutput") /\
  rule_matches output_keywords (lower "ToolAgentOutput") /\
  categorize_node "ToolAgentOutput" = "tool" /\
  categorize_node "ToolAgentOutput" <> "agent".
Proof.
  repeat split.
  - apply rule_matches_iff. reflexivity.
  - apply rule_matches_iff. reflexivity.
  - discriminate.
Qed.

(** C1 (amended): [categorize_node] lowercases its input and returns the
    category of the first rule of the fixed 14-entry table one of whose
    keywords is a substring of the lowered text, and [other] when no rule
    matches.  A string holding [gpt] in any letter case is an [llm].  A
    string holding an agent keyword and an output/parser keyword is an
    [agent] provided no keyword of rules 1 to 8 occurs in it. *)
Theorem categorize_node_first_match (node_type : string) :
  List.length categories = 14 /\
  (forall c,
      categorize_node node_type = c <->
      (exists pre kws post,
          categories = pre ++ (kws, c) :: post /\
          Forall (fun r => ~ rule_matches (fst r) (lower node_type)) pre /\
          rule_matches kws (lower node_type))
      \/ (c = "other" /\
          Forall (fun r => ~ rule_matches (fst r) (lower node_type)) categories)) /\
  (occurs_ci "gpt" node_type -> categorize_node node_type = "llm") /\
  (rule_matches agent_keywords (lower node_type) ->
   rule_matches output_keywords (lower node_type) ->
   Forall (fun r => ~ rule_matches (fst r) (lower node_type)) (firstn 8 categories) ->
   categorize_node node_type = "agent").
Proof.
  split; [reflexivity|]. split; [|split].
  - intros c. unfold categorize_node. split.
    + intros <-.
      destruct (first_match_inv categories (lower node_type))
        as [[pre [kws [post [Heq [Hpre Hm]]]]]|[Ho Hall]].
      * left. exists pre, kws, post. repeat split.
        -- exact Heq.
        -- now apply Forall_rule_misses.
        -- now apply rule_matches_iff.
      * right. split; [exact Ho | now apply Forall_rule_misses].
    + intros [[pre [kws [post [Heq [Hpre Hm]]]]]|[-> Hall]].
      * rewrite Heq. apply first_match_hit.
        -- now apply Forall_rule_misses.
        -- now apply rule_matches_iff.
      * apply first_match_miss. now apply Forall_rule_misses.
  - intros H. apply occurs_ci_lower in H.
    unfold categorize_node, categories, first_match.
    replace (any_kw_in _ (lower node_type)) with true; [reflexivity|].
    symmetry. unfold any_kw_in. simpl. rewrite H. now rewrite orb_true_r.
  - intros Ha _ Hpre. unfold categorize_node.
    change categories
      with (firstn 8 categories ++ (agent_keywords, "agent") :: skipn 9 categories).
    apply first_match_hit.
    + now apply Forall_rule_misses.
    + now apply rule_matches_iff.
Qed.

Lemma categorize_node_first_match_witness :
  categorize_node "AgentOutputParser" = "agent" /\
  categorize_node "my-GpT-4" = "llm".
Proof.
  split.
  - apply (categorize_node_first_match "AgentOutputParser").
    + apply rule_matches_iff. reflexivity.
    + apply rule_matches_iff. reflexivity.
    + apply Forall_rule_misses. repeat constructor.
  - apply (categorize_node_first_match "my-GpT-4").
    exists "my-", "GpT", "-4". split; reflexivity.
Defined.

(** ** The analyser *)

Lemma set_mem_add (x y : string) (s : str_set) :
  set_mem x (set_add y s) = (String.eqb x y || set_mem x s)%bool.
Proof.
  unfold set_add, set_mem.
  destruct (existsb (String.eqb y) s) eqn:E.
  - destruct (String.eqb_spec x y) as [->|]; [now rewrite E | reflexivity].
  - rewrite existsb_app. simpl. rewrite orb_false_r. apply orb_comm.
Qed.

Lemma bind_ok_inv {A B : Type} (m : result A) (k : A -> result B) (b : B) :
  bind m k = Ok b -> exists a, m = Ok a /\ k a = Ok b.
Proof. destruct m; simpl; [eauto | discriminate]. Qed.

Lemma py_get_ok_inv (obj : json) (key : string) (default v : json) :
  py_get obj key default = Ok v ->
  exists d, obj = JObj d /\ v = dict_get d key default.
Proof. destruct obj; simpl; try discriminate. intros [= <-]. eauto. Qed.

Ltac bind_inv H :=
  let x := fresh "x" in
  let Hx := fresh "Hx" in
  apply bind_ok_inv in H as [x [Hx H]].

(** One pass of the loop body: the entry it appends and the category it
    records. *)
Lemma node_step_inv (cats : str_set) (entries : list node_entry)
      (node : json) (st' : str_set * list node_entry) :
  node_step (cats, entries) node = Ok st' ->
  exists nd dd t,
    node = JObj nd /\
    dict_get nd "data" (JObj []) = JObj dd /\
    dict_get dd "type" (dict_get dd "name" (JStr "Unknown")) = JStr t /\
    st' = (set_add (categorize_node t) cats,
           entries ++ [mk_node (dict_get nd "id" JNull) t
                         (dict_get dd "label" (dict_get nd "id" (JStr "Unnamed")))
                         (categorize_node t)]).
Proof.
  unfold node_step. intros H.
  bind_inv H. apply py_get_ok_inv in Hx as [nd [-> ->]].
  bind_inv H. apply py_get_ok_inv in Hx as [dd [Hdd ->]].
  bind_inv H. apply py_get_ok_inv in Hx as [dd' [Hdd' ->]].
  bind_inv H. apply py_get_ok_inv in Hx as [nd' [Hnd' ->]].
  bind_inv H. apply py_get_ok_inv in Hx as [dd'' [Hdd'' ->]].
  bind_inv H. destruct x as [t c].
  rewrite Hdd in Hdd', Hdd''. injection Hdd' as <-. injection Hdd'' as <-.
  injection Hnd' as <-.
  unfold categorize_value in Hx.
  destruct (dict_get dd "type" _) eqn:Et; try discriminate.
  injection Hx as <- <-.
  simpl in H. injection H as <-.
  exists nd, dd, s. repeat split; assumption.
Qed.

(** What the whole loop leaves behind: one entry per raw node, in order,
    each carrying the category of its type, and exactly the categories of
    those entries added to the set. *)
Lemma node_loop_inv (items : list json) (cats : str_set)
      (entries : list node_entry) (cats' : str_set) (entries' : list node_entry) :
  for_each node_step items (cats, entries) = Ok (cats', entries') ->
  exists new,
    entries' = entries ++ new /\
    Forall2 entry_describes items new /\
    Forall (fun e => node_category e = categorize_node (node_type e)) new /\
    forall c, set_mem c cats' =
              (set_mem c cats || existsb (fun e => String.eqb (node_category e) c) new)%bool.
Proof.
  revert cats entries. induction items as [|node items IH]; intros cats entries H.
  - simpl in H. injection H as <- <-. exists []. rewrite app_nil_r.
    repeat split; [constructor|constructor|]. intros c. simpl.
    now rewrite orb_false_r.
  - simpl in H. bind_inv H. destruct x as [cats1 entries1].
    apply node_step_inv in Hx as [nd [dd [t [-> [Hdd [Ht Hst]]]]]].
    injection Hst as -> ->.
    apply IH in H as [new [-> [Hlen [Hcat Hmem]]]].
    eexists (_ :: new). repeat split.
    + now rewrite <- app_assoc.
    + constructor; [|assumption].
      exists nd, dd. simpl. rewrite <- Ht. repeat split; assumption.
    + constructor; [reflexivity | assumption].
    + intros c. rewrite Hmem, set_mem_add. simpl.
      rewrite (String.eqb_sym (categorize_node t) c).
      destruct (String.eqb c (categorize_node t)), (set_mem c cats); reflexivity.
Qed.

Lemma decode_caught_iff (json_loads : string -> result json) (flow : pydict) :
  decode_caught json_loads flow <->
  decode_flow_data json_loads (flow_data_str flow) = Ok None.
Proof.
  unfold decode_caught, decode_flow_data. split.
  - intros (s & e & -> & -> & [-> | ->]); reflexivity.
  - destruct (flow_data_str flow) as [| | |s| |]; try discriminate.
    destruct (json_loads s) as [v|e] eqn:E; [discriminate|].
    destruct e; try discriminate; intros _; exists s; eauto.
Qed.

Lemma decode_escapes_iff (json_loads : string -> result json) (flow : pydict)
      (e : exn) :
  decode_escapes json_loads flow e <->
  decode_flow_data json_loads (flow_data_str flow) = Raise e.
Proof.
  unfold decode_escapes, decode_flow_data. split.
  - intros (s & -> & -> & Hj & Ht). destruct e; congruence.
  - destruct (flow_data_str flow) as [| | |s| |]; try discriminate.
    destruct (json_loads s) as [v|e'] eqn:E; [discriminate|].
    destruct e'; try discriminate; intros [= <-]; exists s;
      repeat split; try discriminate; assumption.
Qed.



(** The two ways [analyze_flow_data] returns. *)
Lemma analyze_ok_inv (json_loads : string -> result json) (flow : pydict)
      (goal : option string) (a : analysis) :
  analyze_flow_data json_loads flow goal = Ok a ->
  (decode_caught json_loads flow /\
   a = mk_analysis (dict_get flow "name" (JStr "Unknown"))
         (dict_get flow "type" (JStr "CHATFLOW")) EmptyString [] [] []
         [corrupted_issue])
  \/
  (exists fd ns es items cats entries n_nodes n_edges,
      decode_flow_data json_loads (flow_data_str flow) = Ok (Some (JObj fd)) /\
      ns = dict_get fd "nodes" (JArr []) /\
      es = dict_get fd "edges" (JArr []) /\
      py_iter ns = Ok items /\
      for_each node_step items ([], []) = Ok (cats, entries) /\
      py_len ns = Ok n_nodes /\
      py_len es = Ok n_edges /\
      a = mk_analysis (dict_get flow "name" (JStr "Unknown"))
            (dict_get flow "type" (JStr "CHATFLOW"))
            ("Flow contains " ++ str_of_nat n_nodes ++ " nodes and "
               ++ str_of_nat n_edges ++ " connections.")%string
            entries
            (fst (rule_battery flow (dict_get flow "type" (JStr "CHATFLOW")) cats goal))
            (snd (rule_battery flow (dict_get flow "type" (JStr "CHATFLOW")) cats goal))
            []).
Proof.
  unfold analyze_flow_data. rewrite decode_caught_iff.
  destruct (decode_flow_data json_loads (flow_data_str flow))
    as [[fdv|]|e] eqn:Ed; cbn [bind]; [| |discriminate].
  - intros H. right.
    bind_inv H. apply py_get_ok_inv in Hx as [fd [-> ->]].
    bind_inv H. apply py_get_ok_inv in Hx as [fd' [Hfd ->]]. injection Hfd as <-.
    bind_inv H. rename x into items.
    bind_inv H. destruct x as [cats entries].
    bind_inv H. rename x into n_nodes.
    bind_inv H. rename x into n_edges.
    destruct (rule_battery _ _ cats goal) as [sugs bps] eqn:Er.
    injection H as <-.
    exists fd, (dict_get fd "nodes" (JArr [])), (dict_get fd "edges" (JArr [])),
      items, cats, entries, n_nodes, n_edges.
    rewrite Er. repeat split; assumption.
  - intros [= <-]. left. split; reflexivity.
Qed.

(** After a successful decode the set of categories found is the set of
    categories of the listed nodes. *)
Lemma analyze_categories (json_loads : string -> result json) (flow : pydict)
      (goal : option string) (a : analysis) :
  decodes json_loads flow ->
  analyze_flow_data json_loads flow goal = Ok a ->
  exists cats,
    (forall c, set_mem c cats = has_category a c) /\
    Forall (fun e => node_category e = categorize_node (node_type e)) (nodes a) /\
    suggestions a =
      fst (rule_battery flow (dict_get flow "type" (JStr "CHATFLOW")) cats goal) /\
    best_practices a =
      snd (rule_battery flow (dict_get flow "type" (JStr "CHATFLOW")) cats goal) /\
    potential_issues a = [].
Proof.
  intros [fdv Hdec] H.
  apply analyze_ok_inv in H as [[Hf _]|H].
  - apply decode_caught_iff in Hf. congruence.
  - destruct H as (fd & ns & es & items & cats & entries & nn & ne &
                   _ & _ & _ & _ & Hloop & _ & _ & ->).
    apply node_loop_inv in Hloop as [new [Hent [_ [Hcat Hmem]]]].
    simpl in Hent. subst entries.
    exists cats. unfold has_category. simpl. repeat split; assumption.
Qed.

(** The raw nodes and the listed entries correspond one to one, in order. *)
Lemma analyze_nodes (json_loads : string -> result json) (flow : pydict)
      (goal : option string) (a : analysis) :
  decodes json_loads flow ->
  analyze_flow_data json_loads flow goal = Ok a ->
  exists fd items,
    decode_flow_data json_loads (flow_data_str flow) = Ok (Some (JObj fd)) /\
    py_iter (dict_get fd "nodes" (JArr [])) = Ok items /\
    Forall2 entry_describes items (nodes a).
Proof.
  intros [fdv Hdec] H.
  apply analyze_ok_inv in H as [[Hf _]|H].
  - apply decode_caught_iff in Hf. congruence.
  - destruct H as (fd & ns & es & items & cats & entries & nn & ne &
                   Hd & -> & _ & Hit & Hloop & _ & _ & ->).
    apply node_loop_inv in Hloop as [new [Hent [Hdesc _]]].
    simpl in Hent. subst entries.
    exists fd, items. repeat split; assumption.
Qed.

(** On a graph of the expected shape the call returns. *)
Lemma node_loop_returns (items : list json) (st : str_set * list node_entry) :
  Forall node_shaped items ->
  exists st', for_each node_step items st = Ok st'.
Proof.
  intros H. revert st. induction H as [|raw items Hraw _ IH]; intros [cats entries].
  - now eexists.
  - destruct Hraw as (node & data & t & -> & Hd & Ht).
    cbn [for_each]. unfold node_step. cbn [py_get bind].
    rewrite Hd. cbn [py_get bind]. rewrite Ht. cbn [categorize_value bind].
    apply IH.
Qed.

Lemma analyze_returns (json_loads : string -> result json) (flow : pydict)
      (goal : option string) (fd : pydict) (items edges : list json) :
  decode_flow_data json_loads (flow_data_str flow) = Ok (Some (JObj fd)) ->
  dict_get fd "nodes" (JArr []) = JArr items ->
  dict_get fd "edges" (JArr []) = JArr edges ->
  Forall node_shaped items ->
  exists a,
    analyze_flow_data json_loads flow goal = Ok a /\
    Forall2 entry_describes items (nodes a) /\
    summary a
    = ("Flow contains " ++ str_of_nat (List.length items) ++ " nodes and "
         ++ str_of_nat (List.length edges) ++ " connections.")%string.
Proof.
  intros Hd Hn He Hshape.
  destruct (node_loop_returns items ([], []) Hshape) as [[cats entries] Hloop].
  assert (exists a, analyze_flow_data json_loads flow goal = Ok a
                    /\ summary a
                       = ("Flow contains " ++ str_of_nat (List.length items)
                            ++ " nodes and " ++ str_of_nat (List.length edges)
                            ++ " connections.")%string) as [a [Ha Hs]].
  { unfold analyze_flow_data. rewrite Hd. cbn [py_get bind].
    rewrite Hn, He. cbn [py_iter bind]. rewrite Hloop. cbn [py_len bind].
    destruct (rule_battery flow _ cats goal). eexists. split; reflexivity. }
  exists a. repeat split; try assumption.
  destruct (analyze_nodes json_loads flow goal a) as (fd' & items' & Hd' & Hit & Hall);
    [now exists (JObj fd) | exact Ha |].
  rewrite Hd in Hd'. injection Hd' as <-. rewrite Hn in Hit.
  injection Hit as <-. exact Hall.
Qed.

(** A graph that is not a dict makes the call raise. *)
Example analyze_raises_on_list :
  analyze_flow_data Json.json_loads [("name", JStr "Test"); ("flowData", JStr "[]")] None
  = Raise AttributeError.
Proof. reflexivity. Qed.

Lemma append_if_app {A : Type} (c : bool) (l : list A) (x : A) :
  append_if c l x = l ++ opt c x.
Proof. destruct c; simpl; [reflexivity | now rewrite app_nil_r]. Qed.

Lemma In_opt {A : Type} (c : bool) (x y : A) :
  In y (opt c x) <-> c = true /\ y = x.
Proof.
  destruct c; simpl; split.
  - intros [<-|[]]. now split.
  - intros [_ ->]. now left.
  - intros [].
  - intros [H _]. discriminate.
Qed.

(** The suggestions of the battery, rule by rule. *)
Lemma rule_battery_suggestions (flow : pydict) (flow_type : json)
      (cats : str_set) (goal : option string) :
  fst (rule_battery flow flow_type cats goal) =
    opt (negb (set_mem "memory" cats)) memory_suggestion
    ++ opt (str_in "knowledge" (lower_goal goal)
            && negb (set_mem "vector_store" cats))
         (vector_store_suggestion cats)
    ++ opt (is_agent_type flow_type && negb (set_mem "tool" cats))
         tools_suggestion
    ++ opt (str_in "format" (lower_goal goal)
            && negb (set_mem "output_parser" cats))
         output_parser_suggestion
    ++ opt (truthy (dict_get flow "isPublic" JNull)
            && negb (set_mem "moderation" cats))
         moderation_suggestion
    ++ opt (str_in "accuracy" (lower_goal goal)
            || str_in "better" (lower_goal goal))
         accuracy_suggestion
    ++ opt (str_in "fast" (lower_goal goal) || str_in "speed" (lower_goal goal))
         speed_suggestion
    ++ opt (str_in "handle" (lower_goal goal)
            || str_in "support" (lower_goal goal))
         (capability_suggestion goal).
Proof.
  unfold rule_battery. cbv zeta. unfold fst.
  rewrite !append_if_app. rewrite app_nil_l, <- !app_assoc. reflexivity.
Qed.

(** The best-practice notes of the battery; the goal plays no part. *)
Lemma rule_battery_practices (flow : pydict) (flow_type : json)
      (cats : str_set) (goal : option string) :
  snd (rule_battery flow flow_type cats goal) =
    opt (set_mem "prompt" cats) prompt_practice
    ++ opt (negb (set_mem "cache" cats)) cache_practice.
Proof.
  unfold rule_battery. cbv zeta. unfold snd.
  rewrite !append_if_app. reflexivity.
Qed.

Lemma lower_goal_some (g : string) : lower_goal (Some g) = lower g.
Proof. destruct g; reflexivity. Qed.


Ltac split_in H :=
  repeat (apply in_app_or in H as [H|H]);
  apply In_opt in H as [? ->].






(** C5: for a node with an [id] and a nested [name] but no nested [label],
    [analyze_flow_data] labels the entry with the [id]; the claim takes the
    nested [name], and so does [format_flow_detail] for the same node of
    the same flow. *)
Lemma label_name_fallback_refuted :
  exists a e n,
    analyze_flow_data Json.json_loads named_node_flow None = Ok a /\
    nodes a = [e] /\
    node_label e = JStr "n1" /\
    label_as_specified named_node
      [("type", JStr "ChatOpenAI"); ("name", JStr "chatOpenAI")]
      = JStr "chatOpenAI" /\
    node_label e <>
    label_as_specified named_node
      [("type", JStr "ChatOpenAI"); ("name", JStr "chatOpenAI")] /\
    nodes_summary_of Json.json_loads named_node_flow = Ok [n] /\
    sn_label n = JStr "chatOpenAI".
Proof.
  eexists. eexists. eexists. split; [vm_compute; reflexivity|].
  split; [reflexivity|]. split; [reflexivity|]. split; [reflexivity|].
  split; [discriminate|]. split; [vm_compute; reflexivity | reflexivity].
Qed.

Lemma occurs_ci_goal (kw g : string) :
  occurs_ci kw g -> str_in kw (lower_goal (Some g)) = true.
Proof. rewrite lower_goal_some. apply occurs_ci_lower. Qed.

(** C6: after a successful decode, a goal that holds [accuracy] or [better]
    in any letter case brings the high-priority suggestion
    [Improve Response Accuracy], and one that holds [fast] or [speed] brings
    the high-priority suggestion [Improve Response Speed]; for the goal
    [I want better accuracy and faster responses] both are there, the
    accuracy one first.  Without a goal no suggestion of a goal-gated rule
    is there. *)
Theorem goal_gated_suggestions (json_loads : string -> result json)
        (flow : pydict) :
  decodes json_loads flow ->
  (forall g a,
      analyze_flow_data json_loads flow (Some g) = Ok a ->
      (occurs_ci "accuracy" g \/ occurs_ci "better" g ->
       suggests a "Improve Response Accuracy" "high") /\
      (occurs_ci "fast" g \/ occurs_ci "speed" g ->
       suggests a "Improve Response Speed" "high")) /\
  (forall a,
      analyze_flow_data json_loads flow
        (Some "I want better accuracy and faster responses") = Ok a ->
      exists l1 s1 l2 s2 l3,
        suggestions a = l1 ++ s1 :: l2 ++ s2 :: l3 /\
        title s1 = "Improve Response Accuracy" /\ priority s1 = "high" /\
        title s2 = "Improve Response Speed" /\ priority s2 = "high") /\
  (forall a,
      analyze_flow_data json_loads flow None = Ok a ->
      forall s, In s (suggestions a) -> ~ In (title s) goal_gated_titles).
Proof.
  intros Hdec. split; [|split].
  - intros g a H.
    destruct (analyze_categories _ _ _ _ Hdec H) as [cats [_ [_ [Hs _]]]].
    unfold suggests. rewrite Hs, rule_battery_suggestions. split.
    + intros Hg. exists accuracy_suggestion. split; [|split; reflexivity].
      assert (str_in "accuracy" (lower_goal (Some g))
              || str_in "better" (lower_goal (Some g)) = true) as ->.
      { apply orb_true_iff.
        destruct Hg as [Hg|Hg]; [left|right]; now apply occurs_ci_goal. }
      rewrite !in_app_iff. do 5 right. left. now left.
    + intros Hg. exists speed_suggestion. split; [|split; reflexivity].
      assert (str_in "fast" (lower_goal (Some g))
              || str_in "speed" (lower_goal (Some g)) = true) as ->.
      { apply orb_true_iff.
        destruct Hg as [Hg|Hg]; [left|right]; now apply occurs_ci_goal. }
      rewrite !in_app_iff. do 6 right. left. now left.
  - intros a H.
    destruct (analyze_categories _ _ _ _ Hdec H) as [cats [_ [_ [Hs _]]]].
    rewrite Hs, rule_battery_suggestions.
    set (g := lower_goal (Some "I want better accuracy and faster responses")).
    replace (str_in "accuracy" g || str_in "better" g) with true by reflexivity.
    replace (str_in "fast" g || str_in "speed" g) with true by reflexivity.
    replace (str_in "handle" g || str_in "support" g) with false by reflexivity.
    cbn [opt].
    match goal with
    | |- exists _ _ _ _ _, ?A ++ ?B ++ ?C ++ ?D ++ ?E ++ _ = _ /\ _ =>
        exists (A ++ B ++ C ++ D ++ E), accuracy_suggestion, [],
               speed_suggestion, []
    end.
    split; [now rewrite <- !app_assoc|]. repeat split.
  - intros a H s Hin.
    destruct (analyze_categories _ _ _ _ Hdec H) as [cats [_ [_ [Hs _]]]].
    rewrite Hs, rule_battery_suggestions in Hin.
    change (lower_goal None) with EmptyString in Hin.
    simpl str_in in Hin. rewrite ?andb_false_l in Hin. simpl orb in Hin.
    split_in Hin; try discriminate;
      simpl; intros Ht; repeat (destruct Ht as [Ht|Ht]; [discriminate Ht|]);
      exact Ht.
Qed.

Lemma goal_gated_suggestions_witness :
  exists a,
    analyze_flow_data Json.json_loads chat_flow
      (Some "I want better accuracy and faster responses") = Ok a /\
    suggests a "Improve Response Accuracy" "high" /\
    suggests a "Improve Response Speed" "high".
Proof.
  assert (decodes Json.json_loads chat_flow) as Hdec
    by (eexists; vm_compute; reflexivity).
  assert (exists a, analyze_flow_data Json.json_loads chat_flow
                      (Some "I want better accuracy and faster responses") = Ok a)
    as [a Ha] by (eexists; vm_compute; reflexivity).
  destruct (goal_gated_suggestions Json.json_loads chat_flow Hdec) as [H1 _].
  destruct (H1 _ _ Ha) as [Hacc Hspeed].
  exists a. split; [exact Ha|]. split.
  - apply Hacc. right.
    exists "I want ", "better", " accuracy and faster responses".
    split; reflexivity.
  - apply Hspeed. left.
    exists "I want better accuracy and ", "fast", "er responses".
    split; reflexivity.
Defined.

(** C7: after a successful decode, when the goal holds [knowledge] and no
    node has category [vector_store], the analysis holds exactly one
    suggestion titled [Add Vector Store for Knowledge Base]; it has high
    priority and its [nodes_to_add] is the four vector-store candidates,
    followed by the two document loaders exactly when no node has category
    [document_loader], followed by the retriever exactly when no node has
    category [retriever]. *)
Theorem vector_store_suggestion_nodes (json_loads : string -> result json)
        (flow : pydict) (g : string) (a : analysis) :
  decodes json_loads flow ->
  analyze_flow_data json_loads flow (Some g) = Ok a ->
  occurs_ci "knowledge" g ->
  has_category a "vector_store" = false ->
  exists l1 s l2,
    suggestions a = l1 ++ s :: l2 /\
    title s = "Add Vector Store for Knowledge Base" /\
    priority s = "high" /\
    nodes_to_add s =
      Some (["Chroma"; "Pinecone"; "FAISS"; "OpenAI Embeddings"]
            ++ (if has_category a "document_loader" then []
                else ["PDF Loader"; "Text Loader"])
            ++ (if has_category a "retriever" then []
                else ["Vector Store Retriever"])) /\
    (forall s', In s' (l1 ++ l2) ->
                title s' <> "Add Vector Store for Knowledge Base").
Proof.
  intros Hdec H Hg Hvs.
  destruct (analyze_categories _ _ _ _ Hdec H) as [cats [Hmem [_ [Hs _]]]].
  rewrite Hs, rule_battery_suggestions.
  rewrite (occurs_ci_goal _ _ Hg), (Hmem "vector_store"), Hvs.
  cbn [negb andb opt].
  exists (opt (negb (set_mem "memory" cats)) memory_suggestion),
    (vector_store_suggestion cats).
  eexists. split; [reflexivity|]. repeat split.
  - unfold vector_store_suggestion, vector_store_nodes. cbn [nodes_to_add].
    rewrite !Hmem.
    now destruct (has_category a "document_loader"), (has_category a "retriever").
  - intros s' Hin. split_in Hin; discriminate.
Qed.

Lemma vector_store_suggestion_nodes_witness :
  exists a l1 s l2,
    analyze_flow_data Json.json_loads chat_flow (Some "Add a Knowledge base") = Ok a /\
    suggestions a = l1 ++ s :: l2 /\
    nodes_to_add s =
      Some ["Chroma"; "Pinecone"; "FAISS"; "OpenAI Embeddings";
            "PDF Loader"; "Text Loader"; "Vector Store Retriever"].
Proof.
  assert (exists a, analyze_flow_data Json.json_loads chat_flow
                      (Some "Add a Knowledge base") = Ok a)
    as [a Ha] by (eexists; vm_compute; reflexivity).
  assert (decodes Json.json_loads chat_flow) as Hdec
    by (eexists; vm_compute; reflexivity).
  destruct (vector_store_suggestion_nodes Json.json_loads chat_flow
              "Add a Knowledge base" a Hdec Ha)
    as (l1 & s & l2 & Hs & _ & _ & Hn & _).
  - exists "Add a ", "Knowledge", " base". split; reflexivity.
  - vm_compute in Ha. injection Ha as <-. reflexivity.
  - exists a, l1, s, l2. repeat split; try assumption.
    rewrite Hn. vm_compute in Ha. injection Ha as <-. reflexivity.
Defined.

Lemma subseq_refl {A : Type} (l : list A) : subseq l l.
Proof. induction l; constructor; assumption. Qed.

Lemma subseq_nil_l {A : Type} (l : list A) : subseq [] l.
Proof. induction l; constructor; assumption. Qed.

Lemma subseq_app {A : Type} (l1 l1' l2 l2' : list A) :
  subseq l1 l1' -> subseq l2 l2' -> subseq (l1 ++ l2) (l1' ++ l2').
Proof.
  intros H1 H2. induction H1; simpl; [assumption | |]; constructor; assumption.
Qed.

(** Everything [analyze_flow_data] does before the rule battery is the same
    for every goal. *)
Lemma analyze_goal_split (json_loads : string -> result json) (flow : pydict) :
  (exists e, forall goal, analyze_flow_data json_loads flow goal = Raise e)
  \/ (exists a, forall goal, analyze_flow_data json_loads flow goal = Ok a /\
                             suggestions a = [])
  \/ (exists name type text entries cats,
        forall goal,
          analyze_flow_data json_loads flow goal =
          Ok (mk_analysis name type text entries
                (fst (rule_battery flow type cats goal))
                (snd (rule_battery flow type cats goal)) [])).
Proof.
  unfold analyze_flow_data.
  destruct (decode_flow_data json_loads (flow_data_str flow)) as [[fd|]|e];
    cbn [bind].
  3:{ left. now exists e. }
  2:{ right. left. eexists. intros goal. split; reflexivity. }
  destruct (py_get fd "nodes" (JArr [])) as [ns|e]; cbn [bind].
  2:{ left. now exists e. }
  destruct (py_get fd "edges" (JArr [])) as [es|e]; cbn [bind].
  2:{ left. now exists e. }
  destruct (py_iter ns) as [items|e]; cbn [bind].
  2:{ left. now exists e. }
  destruct (for_each node_step items ([], [])) as [[cats entries]|e]; cbn [bind].
  2:{ left. now exists e. }
  destruct (py_len ns) as [nn|e]; cbn [bind].
  2:{ left. now exists e. }
  destruct (py_len es) as [ne|e]; cbn [bind].
  2:{ left. now exists e. }
  right. right.
  exists (dict_get flow "name" (JStr "Unknown")),
    (dict_get flow "type" (JStr "CHATFLOW")).
  eexists. exists entries, cats. intros goal.
  destruct (rule_battery flow (dict_get flow "type" (JStr "CHATFLOW")) cats goal)
    eqn:E.
  reflexivity.
Qed.

(** C10: supplying a goal is monotone.  The call with a goal raises exactly
    when the call without one does; when both return, the suggestions
    without a goal are a subsequence of the suggestions with the goal (the
    shared ones being the same records), and the name, type, summary, nodes,
    best-practice notes and issues are the same. *)
Theorem goal_is_monotone (json_loads : string -> result json)
        (flow : pydict) (g : string) :
  match analyze_flow_data json_loads flow None,
        analyze_flow_data json_loads flow (Some g) with
  | Ok a0, Ok a1 =>
      subseq (suggestions a0) (suggestions a1) /\
      nodes a0 = nodes a1 /\
      summary a0 = summary a1 /\
      best_practices a0 = best_practices a1 /\
      potential_issues a0 = potential_issues a1 /\
      flow_name a0 = flow_name a1 /\
      flow_type a0 = flow_type a1
  | Raise e0, Raise e1 => e0 = e1
  | _, _ => False
  end.
Proof.
  destruct (analyze_goal_split json_loads flow)
    as [[e He]|[[a Ha]|(name & type & text & entries & cats & Ha)]].
  - now rewrite !He.
  - rewrite (proj1 (Ha None)), (proj1 (Ha (Some g))).
    repeat split. apply subseq_refl.
  - rewrite !Ha. cbn [suggestions nodes summary best_practices
                       potential_issues flow_name flow_type].
    rewrite !rule_battery_practices.
    repeat split.
    rewrite !rule_battery_suggestions.
    change (lower_goal None) with EmptyString.
      change (str_in "knowledge" EmptyString) with false.
      change (str_in "format" EmptyString) with false.
      change (str_in "accuracy" EmptyString) with false.
      change (str_in "better" EmptyString) with false.
      change (str_in "fast" EmptyString) with false.
      change (str_in "speed" EmptyString) with false.
      change (str_in "handle" EmptyString) with false.
      change (str_in "support" EmptyString) with false.
    cbn [andb orb].
    repeat first
      [ apply subseq_app; [first [apply subseq_refl | apply subseq_nil_l]|]
      | apply subseq_nil_l ].
Qed.

(** ** The renderer *)

Lemma insert_sorted_perm {A : Type} (le : A -> A -> bool) (x : A) (l : list A) :
  Permutation (insert_sorted le x l) (x :: l).
Proof.
  induction l as [|y l IH]; simpl; [reflexivity|].
  destruct (le x y); [reflexivity|].
  rewrite IH. apply perm_swap.
Qed.


(** Sorting by a key keeps, for each key, the elements with that key in
    their original order. *)
Lemma insert_sorted_filter {A : Type} (key : A -> nat) (x : A) (l : list A)
      (k : nat) :
  filter (fun y => key y =? k)%nat
         (insert_sorted (fun a b => key a <=? key b)%nat x l)
  = filter (fun y => key y =? k)%nat (x :: l).
Proof.
  induction l as [|y l IH]; [reflexivity|].
  cbn [insert_sorted]. destruct (Nat.leb_spec (key x) (key y)) as [Hle|Hlt].
  - reflexivity.
  - cbn [filter] in *. rewrite IH.
    destruct (Nat.eqb_spec (key x) k) as [Hx|Hx],
             (Nat.eqb_spec (key y) k) as [Hy|Hy]; try reflexivity.
    lia.
Qed.

Lemma py_sorted_stable {A : Type} (key : A -> nat) (l : list A) (k : nat) :
  filter (fun y => key y =? k)%nat
         (py_sorted (fun a b => key a <=? key b)%nat l)
  = filter (fun y => key y =? k)%nat l.
Proof.
  induction l as [|x l IH]; [reflexivity|].
  cbn [py_sorted]. rewrite insert_sorted_filter. cbn [filter]. now rewrite IH.
Qed.

Lemma insert_sorted_sorted {A : Type} (key : A -> nat) (x : A) (l : list A) :
  StronglySorted (fun a b => key a <= key b) l ->
  StronglySorted (fun a b => key a <= key b)
                 (insert_sorted (fun a b => key a <=? key b)%nat x l).
Proof.
  induction 1 as [|y l Hl IH Hy]; cbn [insert_sorted].
  - repeat constructor.
  - destruct (Nat.leb_spec (key x) (key y)) as [Hle|Hlt].
    + constructor; [now constructor|]. constructor; [exact Hle|].
      eapply Forall_impl; [|exact Hy]. intros z Hz. simpl in Hz. lia.
    + constructor; [exact IH|].
      eapply Permutation_Forall.
      * symmetry. apply insert_sorted_perm.
      * constructor; [lia | exact Hy].
Qed.

(** The result is in key order. *)
Lemma py_sorted_sorted {A : Type} (key : A -> nat) (l : list A) :
  StronglySorted (fun a b => key a <= key b)
                 (py_sorted (fun a b => key a <=? key b)%nat l).
Proof.
  induction l as [|x l IH]; cbn [py_sorted]; [constructor|].
  now apply insert_sorted_sorted.
Qed.








(** ** JSON text: decoding what the serializer writes *)

Module JsonFacts.
Import Json.

Lemma append_assoc (a b c : string) : ((a ++ b) ++ c = a ++ (b ++ c))%string.
Proof. induction a as [|x a IH]; simpl; [reflexivity|now rewrite IH]. Qed.

Lemma append_length (a b : string) :
  String.length (a ++ b) = String.length a + String.length b.
Proof. induction a as [|x a IH]; simpl; [reflexivity|now rewrite IH]. Qed.

(** Induction on a value, with the property available for every item of an
    array and every member of an object. *)
Lemma json_nested_ind (P : json -> Prop) :
  P JNull ->
  (forall b, P (JBool b)) ->
  (forall n, P (JNum n)) ->
  (forall s, P (JStr s)) ->
  (forall items, Forall P items -> P (JArr items)) ->
  (forall d, Forall (fun kv => P (snd kv)) d -> P (JObj d)) ->
  forall v, P v.
Proof.
  intros Hnull Hbool Hnum Hstr Harr Hobj.
  fix IH 1. intros [| b | n | s | items | d].
  - exact Hnull.
  - apply Hbool.
  - apply Hnum.
  - apply Hstr.
  - apply Harr. induction items as [|x items IHitems]; constructor.
    + apply IH.
    + exact IHitems.
  - apply Hobj. induction d as [|[k x] d IHd]; constructor.
    + apply IH.
    + exact IHd.
Qed.

(** *** Strings *)

Lemma scan_escape_char (c : ascii) (t : string) :
  scan_string (escape_char c ++ t) = cons_fst c (scan_string t).
Proof.
  destruct c as [[] [] [] [] [] [] [] []]; reflexivity.
Qed.

Lemma scan_escape (s rest : string) :
  scan_string (escape s ++ String DQ rest) = Some (s, rest).
Proof.
  induction s as [|c s IH]; simpl.
  - reflexivity.
  - rewrite append_assoc, scan_escape_char, IH. reflexivity.
Qed.

Lemma scan_quote (s rest : string) :
  exists t, (quote s ++ rest)%string = String DQ t /\
            scan_string t = Some (s, rest).
Proof.
  exists (escape s ++ String DQ rest)%string. split.
  - unfold quote. simpl. now rewrite append_assoc.
  - apply scan_escape.
Qed.

(** *** White space and punctuation *)

Lemma skip_ws_spaces (n : nat) (s : string) : skip_ws (spaces n ++ s) = skip_ws s.
Proof. induction n; simpl; [reflexivity|assumption]. Qed.

Lemma skip_ws_newline (level : nat) (s : string) :
  skip_ws (newline_indent level ++ s) = skip_ws s.
Proof. unfold newline_indent. simpl. apply skip_ws_spaces. Qed.

Lemma value_head_skip (s : string) : value_head s -> skip_ws s = s.
Proof. intros (c & t & -> & Hws & _). simpl. now rewrite Hws. Qed.

Lemma value_head_not_close (s : string) :
  value_head s -> expect "]" s = None /\ expect "}" s = None.
Proof. intros (c & t & -> & _ & H1 & H2). simpl. now rewrite H1, H2. Qed.

(** *** Numbers *)

Lemma scan_digits_uint (u : uint) (rest : string) :
  no_digit_head rest ->
  scan_digits (NilEmpty.string_of_uint u ++ rest) = (u, rest).
Proof.
  intros Hrest. induction u; simpl; try (rewrite IHu; reflexivity).
  destruct rest as [|c rest]; simpl; [reflexivity|].
  simpl in Hrest. now rewrite Hrest.
Qed.

Lemma uint_beq_refl (u : uint) : uint_beq u u = true.
Proof. induction u; simpl; auto. Qed.

Lemma to_uint_normal (n : N) : unorm (N.to_uint n) = N.to_uint n.
Proof.
  rewrite <- (DecimalN.Unsigned.to_of (N.to_uint n)).
  now rewrite DecimalN.Unsigned.of_to.
Qed.

Lemma to_uint_not_nil (n : N) : N.to_uint n <> Nil.
Proof.
  destruct n as [|p]; simpl; [discriminate|].
  apply DecimalPos.Unsigned.to_uint_nonnil.
Qed.

Lemma follow_ok_no_digit (rest : string) : follow_ok rest -> no_digit_head rest.
Proof.
  destruct rest as [|c rest]; simpl; [trivial|]. now intros [->| ->].
Qed.

Lemma scan_nat_to_uint (n : N) (rest : string) :
  follow_ok rest ->
  scan_nat (NilEmpty.string_of_uint (N.to_uint n) ++ rest) = Some (n, rest).
Proof.
  intros Hrest. unfold scan_nat.
  rewrite scan_digits_uint by now apply follow_ok_no_digit.
  rewrite to_uint_normal, uint_beq_refl, DecimalN.Unsigned.of_to.
  assert (match rest with
          | EmptyString => true
          | String c _ =>
              negb (Ascii.eqb c "." || Ascii.eqb c "e" || Ascii.eqb c "E")
          end = true) as ->.
  { destruct rest as [|c rest]; [reflexivity|].
    destruct Hrest as [->| ->]; reflexivity. }
  pose proof (to_uint_not_nil n).
  destruct (N.to_uint n); [congruence| reflexivity ..].
Qed.

(** On a text that starts with a digit, [parse_value] is [scan_nat]. *)
Lemma parse_value_digits (fuel : nat) (u : uint) (rest : string) :
  u <> Nil ->
  parse_value (S fuel) (NilEmpty.string_of_uint u ++ rest) =
  match scan_nat (NilEmpty.string_of_uint u ++ rest) with
  | Some (n, r) => Some (JNum (Z.of_N n), r)
  | None => None
  end.
Proof.
  intros Hu. destruct u; [congruence| reflexivity ..].
Qed.

Lemma parse_number (fuel : nat) (n : Z) (rest : string) :
  follow_ok rest ->
  parse_value (S fuel) (str_of_Z n ++ rest) = Some (JNum n, rest).
Proof.
  intros Hrest. unfold str_of_Z. destruct (Z.ltb_spec n 0) as [Hn|Hn].
  - change (("-" ++ NilEmpty.string_of_uint (N.to_uint (Z.abs_N n))) ++ rest)%string
      with (String "-" (NilEmpty.string_of_uint (N.to_uint (Z.abs_N n)) ++ rest)).
    cbn [parse_value]. simpl Ascii.eqb. cbn iota.
    change (starts_with "null" (String "-" ?x)) with false.
    cbv beta. rewrite scan_nat_to_uint by assumption.
    now rewrite N2Z.inj_abs_N, Z.abs_neq, Z.opp_involutive by lia.
  - rewrite parse_value_digits by apply to_uint_not_nil.
    rewrite scan_nat_to_uint by assumption.
    now rewrite N2Z.inj_abs_N, Z.abs_eq by lia.
Qed.

(** *** Values *)

Lemma uint_string_head (u : uint) (rest : string) :
  u <> Nil -> value_head (NilEmpty.string_of_uint u ++ rest).
Proof.
  intros Hu. destruct u; [congruence|..]; simpl;
    eexists _, _; (split; [reflexivity|]); repeat split.
Qed.

Lemma emit_head (level : nat) (v : json) (rest : string) :
  value_head (emit level v ++ rest).
Proof.
  destruct v as [| [|] | n | s | [|x xs] | [|kx kxs]]; simpl;
    try (eexists _, _; (split; [reflexivity|]); repeat split).
  unfold str_of_Z. destruct (n <? 0)%Z.
  - simpl. eexists _, _. split; [reflexivity|]. repeat split.
  - apply uint_string_head, to_uint_not_nil.
Qed.

Lemma expect_head (c : ascii) (s : string) : expect c (String c s) = Some s.
Proof. simpl. now rewrite Ascii.eqb_refl. Qed.

Lemma parse_items_emit (level : nat) (xs : list json) :
  Forall decodes_back xs ->
  forall x acc fuel rest,
    decodes_back x ->
    items_size (x :: xs) <= fuel ->
    parse_items fuel
      (emit (S level) x
       ++ join_tail (emit (S level)) ("," ++ newline_indent (S level)) xs
       ++ newline_indent level ++ String "]" rest) acc
    = Some (JArr (acc ++ x :: xs), rest).
Proof.
  induction 1 as [|y ys Hy _ IH]; intros x acc fuel rest Hx Hfuel;
    (destruct fuel as [|fuel]; [simpl in Hfuel; lia|]);
    cbn [parse_items]; simpl in Hfuel.
  - cbn [join_tail]. rewrite Hx; [|lia|now right].
    change (EmptyString ++ ?s)%string with s.
    rewrite skip_ws_newline.
    change (skip_ws (String "]" rest)) with (String "]" rest).
    change (expect "," (String "]" rest)) with (@None string).
    now rewrite expect_head.
  - cbn [join_tail]. rewrite !append_assoc.
    change ("," ++ ?a)%string with (String "," a).
    rewrite Hx; [|lia|now left].
    change (skip_ws (String "," ?s)) with (String "," s).
    rewrite expect_head.
    rewrite skip_ws_newline, value_head_skip by apply emit_head.
    replace (acc ++ x :: y :: ys) with ((acc ++ [x]) ++ y :: ys)
      by now rewrite <- app_assoc.
    apply IH; [assumption|]. simpl. lia.
Qed.

Lemma dict_set_fresh (d : pydict) (k : string) (v : json) :
  ~ In k (map fst d) -> dict_set d k v = d ++ [(k, v)].
Proof.
  induction d as [|[k' v'] d IH]; simpl; intros Hk; [reflexivity|].
  destruct (String.eqb_spec k' k) as [->|Hne].
  - exfalso. apply Hk. now left.
  - rewrite IH; [reflexivity|]. intros Hin. apply Hk. now right.
Qed.

Lemma quote_head (k rest : string) : value_head (quote k ++ rest).
Proof.
  unfold quote. simpl. eexists _, _. split; [reflexivity|]. repeat split.
Qed.

Lemma parse_member_head (fuel : nat) (k : string) (x : json) (level : nat)
      (rest : string) (acc : pydict) :
  decodes_back x ->
  size x <= fuel ->
  follow_ok rest ->
  parse_members (S fuel)
    (quote k ++ ": " ++ emit (S level) x ++ rest) acc
  = match expect "," (skip_ws rest) with
    | Some r3 => parse_members fuel (skip_ws r3) (dict_set acc k x)
    | None =>
        match expect "}" (skip_ws rest) with
        | Some r3 => Some (JObj (dict_set acc k x), r3)
        | None => None
        end
    end.
Proof.
  intros Hx Hfuel Hrest. cbn [parse_members].
  destruct (scan_quote k (": " ++ emit (S level) x ++ rest)) as [t [-> Ht]].
  rewrite expect_head, Ht.
  change (skip_ws (": " ++ ?s)) with (String ":" (String " " s)).
  rewrite expect_head.
  change (skip_ws (String " " ?s)) with (skip_ws s).
  rewrite value_head_skip by apply emit_head.
  now rewrite Hx.
Qed.

Lemma parse_members_emit (level : nat) (kxs : pydict) :
  Forall (fun kv => decodes_back (snd kv)) kxs ->
  forall kx acc fuel rest,
    decodes_back (snd kx) ->
    NoDup (map fst (acc ++ kx :: kxs)) ->
    members_size (kx :: kxs) <= fuel ->
    parse_members fuel
      (quote (fst kx) ++ ": " ++ emit (S level) (snd kx)
       ++ join_tail (fun kv => quote (fst kv) ++ ": " ++ emit (S level) (snd kv))
            ("," ++ newline_indent (S level)) kxs
       ++ newline_indent level ++ String "}" rest)%string acc
    = Some (JObj (acc ++ kx :: kxs), rest).
Proof.
  induction 1 as [|ky kys Hy _ IH]; intros [k x] acc fuel rest Hx Hnd Hfuel;
    (destruct fuel as [|fuel]; [simpl in Hfuel; lia|]);
    simpl in Hfuel; simpl fst; simpl snd; simpl in Hx;
    assert (~ In k (map fst acc)) as Hk
      by (rewrite map_app in Hnd; apply NoDup_remove_2 in Hnd;
          intros Hin; apply Hnd; apply in_or_app; now left).
  - cbn [join_tail]. change (EmptyString ++ ?s)%string with s.
    rewrite parse_member_head; [|assumption|lia|now right].
    rewrite skip_ws_newline.
    change (skip_ws (String "}" rest)) with (String "}" rest).
    change (expect "," (String "}" rest)) with (@None string).
    now rewrite expect_head, dict_set_fresh.
  - cbn [join_tail]. rewrite !append_assoc.
    change ("," ++ ?a)%string with (String "," a).
    rewrite parse_member_head; [|assumption|lia|now left].
    change (skip_ws (String "," ?s)) with (String "," s).
    rewrite expect_head, skip_ws_newline.
    rewrite value_head_skip by apply quote_head.
    rewrite dict_set_fresh by assumption.
    replace (acc ++ (k, x) :: ky :: kys) with ((acc ++ [(k, x)]) ++ ky :: kys)
      by now rewrite <- app_assoc.
    apply IH; [assumption| |simpl; lia].
    now rewrite <- app_assoc.
Qed.

Lemma items_size_le (items : list json) : items_size items < size (JArr items).
Proof. simpl. unfold items_size. lia. Qed.

(** Every value with distinct keys decodes back from its serialization. *)
Lemma emit_decodes_back (v : json) : unique_keys v -> decodes_back v.
Proof.
  induction v as [| b | n | s | items IH | d IH] using json_nested_ind;
    intros Hu level fuel rest Hfuel Hrest;
    (destruct fuel as [|fuel]; [simpl in Hfuel; lia|]).
  - reflexivity.
  - destruct b; reflexivity.
  - now apply parse_number.
  - cbn [emit]. destruct (scan_quote s rest) as [t [-> Ht]].
    cbn [parse_value]. change (Ascii.eqb DQ DQ) with true. cbn iota.
    now rewrite Ht.
  - destruct items as [|x xs]; [reflexivity|].
    cbn [emit]. rewrite !append_assoc.
    change ("[" ++ ?a)%string with (String "[" a).
    cbn [parse_value]. simpl Ascii.eqb. cbn iota.
    rewrite skip_ws_newline, value_head_skip by apply emit_head.
    match goal with
    | |- context [expect "]" (emit ?l ?a ++ ?b)%string] =>
        destruct (value_head_not_close _ (emit_head l a b)) as [-> _]
    end.
    simpl in Hu. destruct Hu as [Hux Huxs].
    inversion IH as [|? ? IHx IHxs]; subst.
    apply (parse_items_emit level xs) with (acc := []).
    + clear -IHxs Huxs. induction IHxs as [|y ys Hy _ IHys]; constructor.
      * apply Hy. apply Huxs.
      * apply IHys. apply Huxs.
    + now apply IHx.
    + simpl in Hfuel. unfold items_size. simpl. lia.
  - destruct d as [|[k x] kxs]; [reflexivity|].
    cbn [emit]. cbv zeta. rewrite !append_assoc.
    change ("{" ++ ?a)%string with (String "{" a).
    cbn [parse_value]. simpl Ascii.eqb. cbn iota.
    rewrite skip_ws_newline, value_head_skip by apply quote_head.
    match goal with
    | |- context [expect "}" (quote ?a ++ ?b)%string] =>
        destruct (value_head_not_close _ (quote_head a b)) as [_ ->]
    end.
    simpl in Hu. destruct Hu as [Hnd [Hux Huxs]].
    inversion IH as [|? ? IHx IHxs]; subst.
    apply (parse_members_emit level kxs) with (acc := []).
    + clear -IHxs Huxs. induction IHxs as [|y ys Hy _ IHys]; constructor.
      * apply Hy. apply Huxs.
      * apply IHys. apply Huxs.
    + now apply IHx.
    + exact Hnd.
    + simpl in Hfuel. unfold members_size. simpl. lia.
Qed.

Lemma append_empty_r (s : string) : (s ++ EmptyString)%string = s.
Proof. induction s as [|c s IH]; simpl; [reflexivity|now rewrite IH]. Qed.

Lemma uint_string_length (u : uint) :
  u <> Nil -> 1 <= String.length (NilEmpty.string_of_uint u).
Proof. destruct u; [congruence|..]; simpl; lia. Qed.

Lemma join_tail_length {A : Type} (f : A -> string) (sep : string)
      (measure : A -> nat) (l : list A) :
  1 <= String.length sep ->
  Forall (fun y => measure y <= String.length (f y)) l ->
  fold_right (fun y rest => S (measure y + rest)) 0 l
  <= String.length (join_tail f sep l).
Proof.
  intros Hsep. induction 1 as [|y l Hy _ IH]; simpl; [lia|].
  rewrite !append_length. lia.
Qed.

(** The serialization is at least as long as the fuel its decoding needs. *)
Lemma size_le_length (v : json) (level : nat) :
  size v <= String.length (emit level v).
Proof.
  revert level.
  induction v as [| b | n | s | items IH | d IH] using json_nested_ind;
    intros level.
  - simpl. lia.
  - destruct b; simpl; lia.
  - simpl. unfold str_of_Z.
    pose proof (uint_string_length _ (to_uint_not_nil (Z.abs_N n))).
    destruct (n <? 0)%Z; [rewrite append_length|]; simpl; lia.
  - simpl. lia.
  - destruct items as [|x xs]; [simpl; lia|].
    inversion IH as [|? ? IHx IHxs]; subst.
    cbn [emit size fold_right]. rewrite !append_length.
    pose proof (join_tail_length (emit (S level))
                  ("," ++ newline_indent (S level)) size xs) as Hj.
    specialize (IHx (S level)).
    assert (Forall (fun y => size y <= String.length (emit (S level) y)) xs)
      as Hall by (eapply Forall_impl; [|exact IHxs]; intros y Hy; apply Hy).
    specialize (Hj ltac:(rewrite append_length; simpl; lia) Hall).
    cbn [String.length]. lia.
  - destruct d as [|[k x] kxs]; [simpl; lia|].
    inversion IH as [|? ? IHx IHxs]; subst.
    cbn [emit size fold_right]. cbv zeta. rewrite !append_length.
    pose proof (join_tail_length
                  (fun kv => (quote (fst kv) ++ ": " ++ emit (S level) (snd kv))%string)
                  ("," ++ newline_indent (S level))
                  (fun kv => size (snd kv)) kxs) as Hj.
    specialize (IHx (S level)). simpl in IHx.
    assert (Forall (fun kv : string * json =>
                      size (snd kv)
                      <= String.length
                           (quote (fst kv) ++ ": " ++ emit (S level) (snd kv))) kxs)
      as Hall.
    { eapply Forall_impl; [|exact IHxs]. intros kv Hkv.
      rewrite !append_length. specialize (Hkv (S level)). lia. }
    specialize (Hj ltac:(rewrite append_length; simpl; lia) Hall).
    cbn [String.length fst snd]. lia.
Qed.

(** [json.loads(json.dumps(v, indent=2)) == v] *)
Lemma loads_dumps (v : json) : unique_keys v -> loads (dumps v) = Some v.
Proof.
  intros Hu. unfold loads, dumps.
  rewrite <- (append_empty_r (emit 0 v)) at 2.
  rewrite value_head_skip by apply emit_head.
  rewrite append_empty_r.
  rewrite <- (append_empty_r (emit 0 v)) at 2.
  rewrite (emit_decodes_back v Hu 0 _ EmptyString).
  - reflexivity.
  - pose proof (size_le_length v 0). lia.
  - exact I.
Qed.

End JsonFacts.

(** ** Structured rendering *)

Lemma unique_keys_array (items : list json) :
  unique_keys (JArr items) <-> Forall unique_keys items.
Proof.
  simpl. induction items as [|x items IH]; simpl.
  - split; [constructor | trivial].
  - rewrite IH. split.
    + intros [Hx Hi]. now constructor.
    + intros H. inversion H. now split.
Qed.


Lemma unique_keys_map {A : Type} (f : A -> json) (l : list A) :
  Forall (fun x => unique_keys (f x)) l -> unique_keys (JArr (map f l)).
Proof.
  intros H. apply unique_keys_array. now apply Forall_map.
Qed.

Ltac distinct_keys :=
  repeat (constructor; [simpl; intuition discriminate|]); constructor.











(** ** The store model: what a call does to the heap *)

Module StoreFacts.
Import Store.

Lemma firstn_update {A : Type} (n i : nat) (x : A) (l : list A) :
  n <= i -> firstn n (update i x l) = firstn n l.
Proof.
  revert n i. induction l as [|y l IH]; intros n i Hn; simpl.
  - reflexivity.
  - destruct i as [|i].
    + assert (n = 0) as -> by lia. reflexivity.
    + destruct n as [|n]; [reflexivity|]. simpl. f_equal. apply IH. lia.
Qed.

Lemma nth_error_update_ne {A : Type} (i j : nat) (x : A) (l : list A) :
  i <> j -> nth_error (update i x l) j = nth_error l j.
Proof.
  revert i j. induction l as [|y l IH]; intros i j Hij; simpl.
  - reflexivity.
  - destruct i as [|i], j as [|j]; simpl; try reflexivity; try congruence.
    apply IH. congruence.
Qed.

Lemma nth_error_update_eq {A : Type} (i : nat) (x y : A) (l : list A) :
  nth_error l i = Some y -> nth_error (update i x l) i = Some x.
Proof.
  revert i. induction l as [|z l IH]; intros [|i]; simpl; try discriminate.
  - reflexivity.
  - apply IH.
Qed.

Lemma lookup_dict_set_ne {V : Type} (d : list (string * V)) (k k' : string) (v : V) :
  k <> k' -> lookup (dict_set d k v) k' = lookup d k'.
Proof.
  intros Hk. induction d as [|[k0 v0] d IH]; simpl.
  - destruct (String.eqb_spec k k'); [congruence | reflexivity].
  - destruct (String.eqb_spec k0 k) as [->|Hne]; simpl.
    + destruct (String.eqb_spec k k'); [congruence | reflexivity].
    + destruct (String.eqb_spec k0 k'); [reflexivity | exact IH].
Qed.

Section Frame.

Variable h0 : list obj.

Local Abbreviation framed := (Store.framed h0).
Local Abbreviation is_fresh := (Store.is_fresh h0).
Local Abbreviation shaped := (Store.shaped h0).
Local Abbreviation inv := (Store.inv h0).
Local Abbreviation triple := (Store.triple h0).
Local Abbreviation keeps := (Store.keeps h0).

Lemma framed_length (s : state) : framed s -> List.length h0 <= List.length (heap s).
Proof.
  intros [H _]. rewrite <- H at 1. rewrite length_firstn. lia.
Qed.

Lemma triple_bind {A B : Type} (P : state -> Prop) (m : M A)
      (Q : A -> state -> Prop) (k : A -> M B) (R : B -> state -> Prop) :
  triple P m Q -> (forall a, triple (Q a) (k a) R) -> triple P (sbind m k) R.
Proof.
  intros Hm Hk s Hs. unfold sbind. specialize (Hm s Hs).
  destruct (m s) as [[a|e| |] s']; try exact Hm.
  now apply Hk.
Qed.

Lemma triple_pure {A : Type} (phi : Prop) (P : state -> Prop) (m : M A)
      (Q : A -> state -> Prop) :
  (phi -> triple P m Q) -> triple (fun s => phi /\ P s) m Q.
Proof. intros H s [Hphi Hs]. now apply H. Qed.

Lemma triple_weaken {A : Type} (P P' : state -> Prop) (m : M A)
      (Q Q' : A -> state -> Prop) :
  triple P m Q -> (forall s, P' s -> P s) -> (forall a s, Q a s -> Q' a s) ->
  triple P' m Q'.
Proof.
  intros H HP HQ s Hs. specialize (H s (HP s Hs)).
  destruct (m s) as [[a|e| |] s']; auto.
Qed.

(** Sequencing under one invariant. *)
Lemma keeps_bind {A B : Type} (I : state -> Prop) (m : M A) (phi : A -> Prop)
      (k : A -> M B) (psi : B -> Prop) :
  keeps I m phi -> (forall a, phi a -> keeps I (k a) psi) ->
  keeps I (sbind m k) psi.
Proof.
  intros Hm Hk. eapply triple_bind; [exact Hm|].
  intros a. apply triple_pure. apply Hk.
Qed.

Lemma keeps_any {A : Type} (I : state -> Prop) (m : M A) (phi : A -> Prop) :
  keeps I m phi -> keeps I m any.
Proof.
  intros H. eapply triple_weaken; [exact H|auto|]. intros a s [_ Hs]. now split.
Qed.

Lemma framed_alloc (o : obj) (s : state) :
  framed s -> framed (mk_state (heap s ++ [o]) (writes s)).
Proof.
  intros Hs. pose proof (framed_length s Hs) as Hlen.
  destruct Hs as [Hh Hw]. split; [|exact Hw]. simpl.
  rewrite firstn_app. replace (_ - _) with 0 by lia.
  simpl. now rewrite app_nil_r.
Qed.

#[local] Instance framing_framed : Store.Framing h0 framed.
Proof. split; [auto | apply framed_alloc]. Qed.

#[local] Instance framing_inv (la : loc) : Store.Framing h0 (inv la).
Proof.
  split.
  - now intros s [H _].
  - intros o s [Hf [Hla [d [Hd Hkeys]]]]. split; [now apply framed_alloc|].
    split; [exact Hla|]. exists d. split; [|exact Hkeys]. simpl.
    rewrite nth_error_app1; [exact Hd|]. apply nth_error_Some. congruence.
Qed.

Section Invariant.
Context (I : state -> Prop) {HI : Store.Framing h0 I}.

Lemma keeps_ret {A : Type} (a : A) (phi : A -> Prop) :
  phi a -> keeps I (ret a) phi.
Proof. intros Ha s Hs. simpl. now split. Qed.

Lemma keeps_throw {A : Type} (e : exn) (phi : A -> Prop) :
  keeps I (throw e) phi.
Proof. intros s Hs. simpl. now apply (@Store.framing h0 I HI). Qed.

Lemma keeps_alloc (o : obj) :
  keeps I (alloc o) (fun l => List.length h0 <= l).
Proof.
  intros s Hs. simpl. split.
  - apply framed_length. now apply (@Store.framing h0 I HI).
  - now apply (@Store.framing_alloc h0 I HI).
Qed.

Lemma keeps_read (l : loc) : keeps I (read l) any.
Proof.
  intros s Hs. unfold read. destruct (nth_error (heap s) l).
  - now split.
  - now apply (@Store.framing h0 I HI).
Qed.

Lemma keeps_new_list (items : list val) : keeps I (new_list items) is_fresh.
Proof.
  eapply keeps_bind; [apply keeps_alloc|]. intros l Hl.
  apply keeps_ret. now exists l.
Qed.

Lemma keeps_new_dict (fields : list (string * val)) :
  keeps I (new_dict fields) is_fresh.
Proof.
  eapply keeps_bind; [apply keeps_alloc|]. intros l Hl.
  apply keeps_ret. now exists l.
Qed.

Lemma keeps_new_list_any (items : list val) : keeps I (new_list items) any.
Proof. eapply keeps_any, keeps_new_list. Qed.

Lemma keeps_new_dict_any (fields : list (string * val)) :
  keeps I (new_dict fields) any.
Proof. eapply keeps_any, keeps_new_dict. Qed.

Lemma keeps_new_set : keeps I new_set is_fresh.
Proof.
  eapply keeps_bind; [apply keeps_alloc|]. intros l Hl.
  apply keeps_ret. now exists l.
Qed.

Lemma keeps_ret_any {A : Type} (a : A) : keeps I (ret a) any.
Proof. now apply keeps_ret. Qed.

Lemma keeps_get (recv : val) (key : string) (default : M val) :
  keeps I default any -> keeps I (get recv key default) any.
Proof.
  intros Hd. unfold get. destruct recv; try apply keeps_throw.
  eapply keeps_bind; [apply keeps_read|]. intros o _.
  destruct o; try apply keeps_throw.
  eapply keeps_bind; [exact Hd|]. intros dflt _.
  now apply keeps_ret.
Qed.

Lemma keeps_contains (recv : val) (x : string) : keeps I (contains recv x) any.
Proof.
  unfold contains. destruct recv; try apply keeps_throw.
  eapply keeps_bind; [apply keeps_read|]. intros o _.
  destruct o; try apply keeps_throw. now apply keeps_ret.
Qed.

Lemma keeps_len (v : val) : keeps I (len v) any.
Proof.
  unfold len. destruct v; try apply keeps_throw; [now apply keeps_ret|].
  eapply keeps_bind; [apply keeps_read|]. intros o _.
  destruct o; now apply keeps_ret.
Qed.

Lemma keeps_truthy (v : val) : keeps I (truthy v) any.
Proof.
  unfold truthy. destruct v; try (now apply keeps_ret).
  eapply keeps_bind; [apply keeps_read|]. intros o _. now apply keeps_ret.
Qed.

Lemma keeps_categorize (v : val) : keeps I (categorize v) any.
Proof.
  unfold categorize. destruct v; try apply keeps_throw. now apply keeps_ret.
Qed.

Lemma keeps_when (c : bool) (m : M unit) (phi : unit -> Prop) :
  keeps I m phi -> keeps I (when c m) any.
Proof.
  intros Hm. destruct c; simpl; [now apply keeps_any in Hm | now apply keeps_ret].
Qed.

Lemma keeps_for_each {A : Type} (body : A -> M unit) (xs : list A) :
  (forall x, keeps I (body x) any) -> keeps I (for_each body xs) any.
Proof.
  intros Hb. induction xs as [|x xs IH]; simpl.
  - now apply keeps_ret.
  - eapply keeps_bind; [apply Hb|]. intros _ _. exact IH.
Qed.

Lemma keeps_for_in_object (fuel : nat) (l : loc) (size0 i : nat)
      (body : val -> M unit) :
  (forall x, keeps I (body x) any) ->
  keeps I (for_in_object fuel l size0 i body) any.
Proof.
  intros Hb. revert i. induction fuel as [|fuel IH]; intros i.
  - intros s Hs. simpl. now apply (@Store.framing h0 I HI).
  - cbn [for_in_object]. eapply keeps_bind; [apply keeps_read|]. intros o _.
    destruct (match o with OList _ => true | _ => Nat.eqb (obj_len o) size0 end);
      [|apply keeps_throw].
    destruct (item_at o i); [|now apply keeps_ret].
    eapply keeps_bind; [apply Hb|]. intros _ _. apply IH.
Qed.

Lemma keeps_for_in (fuel : nat) (v : val) (body : val -> M unit) :
  (forall x, keeps I (body x) any) -> keeps I (for_in fuel v body) any.
Proof.
  intros Hb. unfold for_in. destruct v; try apply keeps_throw.
  - now apply keeps_for_each.
  - eapply keeps_bind; [apply keeps_read|]. intros o _.
    now apply keeps_for_in_object.
Qed.

Lemma keeps_alloc_json (v : json) : keeps I (alloc_json v) any.
Proof.
  induction v as [| b | n | s | items IH | d IH] using JsonFacts.json_nested_ind;
    cbn [alloc_json]; try (now apply keeps_ret).
  - eapply keeps_bind.
    + instantiate (1 := any). induction IH as [|x xs Hx _ IHxs].
      * now apply keeps_ret.
      * eapply keeps_bind; [exact Hx|]. intros vx _.
        eapply keeps_bind; [exact IHxs|]. intros vl _. now apply keeps_ret.
    + intros vs _. eapply keeps_any, keeps_new_list.
  - eapply keeps_bind.
    + instantiate (1 := any). induction IH as [|[k x] xs Hx _ IHxs].
      * now apply keeps_ret.
      * eapply keeps_bind; [exact Hx|]. intros vx _.
        eapply keeps_bind; [exact IHxs|]. intros vl _. now apply keeps_ret.
    + intros vs _. eapply keeps_any, keeps_new_dict.
Qed.

End Invariant.

(** *** In-place updates *)

(** An update of a new location leaves [h0] alone. *)
Lemma framed_write (l : loc) (o : obj) (s : state) :
  List.length h0 <= l -> framed s ->
  framed (mk_state (update l o (heap s)) (l :: writes s)).
Proof.
  intros Hl [Hh Hw]. split; simpl.
  - now rewrite firstn_update.
  - now constructor.
Qed.

(** An update that replaces a list by a list, or a set by a set, leaves the
    analysis dict as it is. *)
Lemma shaped_write_other (la l : loc) (o o' : obj) (s : state) :
  nth_error (heap s) l = Some o ->
  (forall d, o <> ODict d) ->
  shaped la s ->
  shaped la (mk_state (update l o' (heap s)) (l :: writes s)).
Proof.
  intros Hl Ho [Hla [d [Hd Hkeys]]]. split; [exact Hla|].
  exists d. split; [|exact Hkeys]. simpl.
  rewrite nth_error_update_ne; [exact Hd|].
  intros ->. rewrite Hd in Hl. injection Hl as <-. now apply (Ho d).
Qed.

Lemma keeps_append (la : loc) (recv x : val) :
  is_fresh recv -> keeps (inv la) (append recv x) any.
Proof.
  intros [l [-> Hl]] s [Hf Hs]. unfold append, sbind, read.
  destruct (nth_error (heap s) l) as [[items|d|elems]|] eqn:E; simpl;
    try exact Hf.
  split; [exact I|]. split; [now apply framed_write|].
  eapply shaped_write_other; [exact E|discriminate|exact Hs].
Qed.

Lemma keeps_extend (la : loc) (recv xs : val) :
  is_fresh recv -> keeps (inv la) (extend recv xs) any.
Proof.
  intros [l [-> Hl]] s [Hf Hs]. unfold extend, sbind, read.
  destruct xs as [| | | |l']; try exact Hf.
  destruct (nth_error (heap s) l) as [[items|d|elems]|] eqn:E; simpl;
    try exact Hf.
  destruct (nth_error (heap s) l') as [[more|d'|elems']|] eqn:E'; simpl;
    try exact Hf.
  split; [exact I|]. split; [now apply framed_write|].
  eapply shaped_write_other; [exact E|discriminate|exact Hs].
Qed.

Lemma keeps_add (la : loc) (recv : val) (x : string) :
  is_fresh recv -> keeps (inv la) (add recv x) any.
Proof.
  intros [l [-> Hl]] s [Hf Hs]. unfold add, sbind, read.
  destruct (nth_error (heap s) l) as [[items|d|elems]|] eqn:E; simpl;
    try exact Hf.
  split; [exact I|]. split; [now apply framed_write|].
  eapply shaped_write_other; [exact E|discriminate|exact Hs].
Qed.

(** Assigning [summary] keeps the four list-valued keys. *)
Lemma keeps_set_summary (la : loc) (v : val) :
  keeps (inv la) (setitem (VRef la) "summary" v) any.
Proof.
  intros s [Hf [Hla [d [Hd Hkeys]]]]. unfold setitem, sbind, read.
  rewrite Hd. simpl. split; [exact I|]. split; [now apply framed_write|].
  split; [exact Hla|]. exists (dict_set d "summary" v). split.
  - simpl. eapply nth_error_update_eq. exact Hd.
  - apply Forall_forall. intros k Hin.
    rewrite Forall_forall in Hkeys. specialize (Hkeys k Hin).
    rewrite lookup_dict_set_ne; [exact Hkeys|].
    simpl in Hin. intuition (subst; discriminate).
Qed.

Lemma keeps_getitem_list (la : loc) (k : string) :
  In k ["nodes"; "suggestions"; "best_practices"; "potential_issues"] ->
  keeps (inv la) (getitem (VRef la) k) is_fresh.
Proof.
  intros Hk s [Hf [Hla [d [Hd Hkeys]]]]. unfold getitem, sbind, read.
  rewrite Hd. rewrite Forall_forall in Hkeys.
  destruct (Hkeys k Hk) as [v [-> Hv]]. simpl.
  split; [exact Hv|]. split; [exact Hf|]. split; [exact Hla|].
  exists d. split; [exact Hd|]. now apply Forall_forall.
Qed.

Create HintDb frame.

#[local] Hint Resolve keeps_ret_any keeps_new_list_any keeps_new_dict_any
  keeps_throw keeps_new_list keeps_new_dict keeps_new_set
  keeps_get keeps_contains keeps_for_in keeps_len keeps_truthy keeps_categorize
  keeps_when keeps_for_each keeps_alloc_json keeps_append keeps_extend
  keeps_add keeps_set_summary keeps_getitem_list framing_inv framing_framed
  : frame.

#[local] Hint Extern 1 (In _ _) => simpl; tauto : frame.

Ltac frame_steps :=
  repeat (eapply keeps_bind; [solve [simpl; eauto 6 with frame] | intros ? ?]);
  try solve [simpl; eauto 6 with frame].

Lemma keeps_node_step (la : loc) (cats node : val) :
  is_fresh cats -> keeps (inv la) (node_step (VRef la) cats node) any.
Proof. intros Hc. unfold node_step. frame_steps. Qed.

Lemma keeps_append_entry (la : loc) (key : string)
      (fields : list (string * string)) (extra : option (string * list string)) :
  In key ["nodes"; "suggestions"; "best_practices"; "potential_issues"] ->
  keeps (inv la) (append_entry (VRef la) key fields extra) any.
Proof.
  intros Hk. unfold append_entry.
  eapply keeps_bind; [now apply keeps_getitem_list|]. intros target Ht.
  eapply keeps_bind.
  - instantiate (1 := any). destruct extra as [[k items]|].
    + unfold str_list. frame_steps.
    + now apply keeps_ret.
  - intros last _. frame_steps.
Qed.

Lemma keeps_append_suggestion (la : loc) (s : suggestion) :
  keeps (inv la) (append_suggestion (VRef la) s) any.
Proof.
  unfold append_suggestion. apply keeps_append_entry. simpl. tauto.
Qed.

Lemma keeps_append_practice (la : loc) (p : best_practice) :
  keeps (inv la) (append_practice (VRef la) p) any.
Proof.
  unfold append_practice. apply keeps_append_entry. simpl. tauto.
Qed.

Lemma keeps_vector_store_rule (la : loc) (cats : val) :
  keeps (inv la) (vector_store_rule (VRef la) cats) any.
Proof.
  unfold vector_store_rule, str_list.
  eapply keeps_bind; [apply keeps_new_list, framing_inv|].
  intros nodes_to_add Hn.
  eapply keeps_bind; [apply keeps_contains, framing_inv|]. intros b1 _.
  eapply keeps_bind.
  { eapply keeps_when. frame_steps. }
  intros _ _.
  eapply keeps_bind; [apply keeps_contains, framing_inv|]. intros b2 _.
  eapply keeps_bind.
  { eapply keeps_when. now apply keeps_append. }
  intros _ _. frame_steps.
Qed.

#[local] Hint Resolve keeps_node_step keeps_append_suggestion keeps_append_practice
  keeps_vector_store_rule : frame.

Lemma keeps_rule_battery (la : loc) (flow flow_type cats : val)
      (goal : option string) :
  keeps (inv la) (rule_battery flow flow_type (VRef la) cats goal) any.
Proof.
  unfold rule_battery. cbv zeta.
  repeat
    (eapply keeps_bind;
     [ solve [ simpl; eauto 6 with frame
             | match goal with
               | |- keeps _ (if ?c then _ else _) _ =>
                   instantiate (1 := any); destruct c; frame_steps
               end
             | frame_steps ]
     | intros ? ? ]).
  eauto with frame.
Qed.

#[local] Hint Resolve keeps_rule_battery : frame.

(** Creating the analysis dict establishes its invariant. *)
Lemma triple_new_analysis (flow_name flow_type nl sl pl il : val) :
  is_fresh nl -> is_fresh sl -> is_fresh pl -> is_fresh il ->
  triple framed
    (new_dict [ ("flow_name", flow_name); ("flow_type", flow_type);
                ("summary", VStr EmptyString); ("nodes", nl);
                ("suggestions", sl); ("best_practices", pl);
                ("potential_issues", il) ])
    (fun v s => exists la, v = VRef la /\ inv la s).
Proof.
  intros Hn Hs Hp Hi s Hf. simpl.
  exists (List.length (heap s)). split; [reflexivity|].
  split; [now apply framed_alloc|].
  split; [now apply framed_length|].
  eexists. split.
  - simpl. rewrite nth_error_app2, Nat.sub_diag by lia. reflexivity.
  - repeat constructor; eexists; (split; [reflexivity|assumption]).
Qed.

Lemma triple_with_analysis {B : Type} (k : val -> M B) :
  (forall la, keeps (inv la) (k (VRef la)) any) ->
  forall v,
    triple (fun s => exists la, v = VRef la /\ inv la s) (k v)
           (fun a s => any a /\ framed s).
Proof.
  intros Hk v s [la [-> Hs]]. specialize (Hk la s Hs).
  destruct (k (VRef la) s) as [[a|e| |] s']; [|exact Hk..].
  destruct Hk as [_ [Hf _]]. now split.
Qed.

(** The whole call keeps [h0] in place and updates new objects only. *)
Lemma keeps_analyze_flow_data (fuel : nat)
      (json_loads : string -> result json) (flow : val) (goal : option string) :
  keeps framed (analyze_flow_data fuel json_loads flow goal) any.
Proof.
  unfold analyze_flow_data.
  do 6 (eapply keeps_bind; [solve [eauto with frame] | intros ? ?]).
  eapply triple_bind; [now apply triple_new_analysis|].
  apply triple_with_analysis. intros la.
  eapply keeps_bind; [solve [eauto with frame]|]. intros flow_data_str _.
  eapply keeps_bind.
  { instantiate (1 := any). destruct flow_data_str; try (now apply keeps_ret).
    destruct (json_loads s) as [j|[]]; [frame_steps|..];
      (now apply keeps_ret) || (apply keeps_throw; apply framing_inv). }
  intros [flow_data|] _; [|frame_steps].
  do 2 (eapply keeps_bind; [solve [eauto with frame] | intros ? ?]).
  eapply keeps_bind; [apply keeps_new_set, framing_inv|]. intros cats Hc.
  frame_steps.
Qed.

End Frame.

Lemma reify_extend (fuel : nat) (h ext : list obj) (v : val) (j : json) :
  reify fuel h v = Some j -> reify fuel (h ++ ext) v = Some j.
Proof.
  revert v j. induction fuel as [|fuel IH]; intros v j; [discriminate|].
  destruct v as [| b | n | s | l]; simpl; try (intros H; exact H).
  destruct (nth_error h l) as [o|] eqn:E; [|discriminate].
  rewrite nth_error_app1 by (apply nth_error_Some; congruence). rewrite E.
  destruct o as [items|d|elems]; [| |discriminate].
  - intros H.
    destruct (fold_right _ (Some []) items) as [js|] eqn:Ef; [|discriminate].
    enough (fold_right
              (fun x acc =>
                 match reify fuel (h ++ ext) x, acc with
                 | Some j0, Some js0 => Some (j0 :: js0)
                 | _, _ => None
                 end) (Some []) items = Some js) as -> by exact H.
    clear -IH Ef. revert js Ef. induction items as [|x items IHi]; intros js Ef.
    + exact Ef.
    + simpl in *. destruct (reify fuel h x) as [jx|] eqn:Ex; [|discriminate].
      destruct (fold_right _ (Some []) items) as [js'|] eqn:Ef'; [|discriminate].
      now rewrite (IH _ _ Ex), (IHi _ eq_refl).
  - intros H.
    destruct (fold_right _ (Some []) d) as [js|] eqn:Ef; [|discriminate].
    enough (fold_right
              (fun (kv : string * val) acc =>
                 match reify fuel (h ++ ext) (snd kv), acc with
                 | Some j0, Some js0 => Some ((fst kv, j0) :: js0)
                 | _, _ => None
                 end) (Some []) d = Some js) as -> by exact H.
    clear -IH Ef. revert js Ef. induction d as [|x d IHd]; intros js Ef.
    + exact Ef.
    + simpl in *. destruct (reify fuel h (snd x)) as [jx|] eqn:Ex; [|discriminate].
      destruct (fold_right _ (Some []) d) as [js'|] eqn:Ef'; [|discriminate].
      now rewrite (IH _ _ Ex), (IHd _ eq_refl).
Qed.

End StoreFacts.

(** C9: [analyze_flow_data] does not mutate what it is given.  Whatever the
    heap, the flow and the goal, whether the call returns or raises, and
    however far the loop over the nodes is followed, the heap afterwards is the heap before followed by new objects, every
    in-place update made during the call is to one of these new objects,
    and the flow record reads back from the heap as the same value, nested
    graph included. *)
Theorem analyze_leaves_inputs_unchanged (fuel : nat)
        (json_loads : string -> result json)
        (h : list Store.obj) (flow : Store.val) (goal : option string) :
  let s' :=
    snd (Store.run (Store.analyze_flow_data fuel json_loads flow goal) h) in
  (exists new_objects, Store.heap s' = h ++ new_objects) /\
  Forall (fun l => List.length h <= l) (Store.writes s') /\
  (forall depth j,
      Store.reify depth h flow = Some j ->
      Store.reify depth (Store.heap s') flow = Some j).
Proof.
  intros s'.
  assert (Store.framed h s') as [Hh Hw].
  { subst s'. unfold Store.run.
    pose proof (StoreFacts.keeps_analyze_flow_data h fuel json_loads flow goal
                  (Store.mk_state h [])) as H.
    destruct (Store.analyze_flow_data fuel json_loads flow goal
                (Store.mk_state h [])) as [[a|e| |] s1]; simpl;
      apply H; (split; [apply firstn_all | constructor]). }
  assert (Store.heap s' = h ++ skipn (List.length h) (Store.heap s')) as Heq.
  { rewrite <- Hh at 1. symmetry. apply firstn_skipn. }
  split; [eauto|]. split; [exact Hw|].
  intros depth j Hj. rewrite Heq. now apply StoreFacts.reify_extend.
Qed.

Lemma analyze_leaves_inputs_unchanged_witness :
  Store.reify 6
    (Store.heap
       (snd (Store.run
               (Store.analyze_flow_data 10 Json.json_loads decoded_flow_ref
                  (Some "better knowledge"))
               decoded_heap)))
    decoded_flow_ref
  = Some (JObj decoded_flow).
Proof.
  apply (analyze_leaves_inputs_unchanged 10 Json.json_loads decoded_heap
           decoded_flow_ref (Some "better knowledge")).
  vm_compute. reflexivity.
Defined.

(** The two models of [analyze_flow_data] return the same dict, or raise the
    same exception, on the flows used in this file. *)
Example models_agree_chat_flow :
  store_analysis Json.json_loads chat_flow (Some "faster, with a knowledge base")
  = pure_analysis Json.json_loads chat_flow (Some "faster, with a knowledge base")
  /\ store_analysis Json.json_loads chat_flow None
     = pure_analysis Json.json_loads chat_flow None.
Proof. split; vm_compute; reflexivity. Qed.

Example models_agree_decoded_flow :
  store_analysis Json.json_loads decoded_flow (Some "handle output format better")
  = pure_analysis Json.json_loads decoded_flow (Some "handle output format better")
  /\ store_analysis Json.json_loads decoded_flow None
     = pure_analysis Json.json_loads decoded_flow None.
Proof. split; vm_compute; reflexivity. Qed.

Example models_agree_corrupted_flow :
  store_analysis Json.json_loads corrupted_flow None
  = pure_analysis Json.json_loads corrupted_flow None.
Proof. vm_compute. reflexivity. Qed.

Example models_agree_long_number_flow :
  store_analysis Json.json_loads long_number_flow None
  = pure_analysis Json.json_loads long_number_flow None
  /\ pure_analysis Json.json_loads long_number_flow None
     = Some (Raise ValueError).
Proof. split; vm_compute; reflexivity. Qed.

Example models_agree_odd_graphs :
  map (fun g => store_analysis Json.json_loads
                  [("type", JStr "MULTIAGENT"); ("flowData", JStr g)]
                  (Some "Support knowledge"))
      odd_graphs
  = map (fun g => pure_analysis Json.json_loads
                    [("type", JStr "MULTIAGENT"); ("flowData", JStr g)]
                    (Some "Support knowledge"))
        odd_graphs.
Proof. vm_compute. reflexivity. Qed.

(* ===================================================================== *)
(** * Further properties *)
(* ===================================================================== *)

Ltac run_analysis flow goal a Ha :=
  assert (exists a, analyze_flow_data Json.json_loads flow goal = Ok a) as [a Ha]
    by (eexists; vm_compute; reflexivity).

Ltac decodes_here := eexists; vm_compute; reflexivity.

(** ** The classifier: longer names *)

Lemma first_match_range (rules : list (list string * string)) (text : string) :
  In (first_match rules text) (map snd rules ++ ["other"]).
Proof.
  induction rules as [|[kws c] rest IH]; simpl.
  - now left.
  - destruct (any_kw_in kws text); [now left | now right].
Qed.

Lemma str_in_extend (kw pre s post : string) :
  str_in kw s = true -> str_in kw (pre ++ s ++ post) = true.
Proof.
  rewrite !str_in_spec. intros [a [b ->]].
  exists (pre ++ a)%string, (b ++ post)%string.
  now rewrite <- !JsonFacts.append_assoc.
Qed.

Lemma any_kw_in_extend (kws : list string) (pre s post : string) :
  any_kw_in kws s = true -> any_kw_in kws (pre ++ s ++ post) = true.
Proof.
  unfold any_kw_in. rewrite !existsb_exists.
  intros [kw [Hin H]]. exists kw. split; [assumption|].
  now apply str_in_extend.
Qed.

Lemma first_match_monotone (rules : list (list string * string))
      (text text' : string) :
  (forall kws, any_kw_in kws text = true -> any_kw_in kws text' = true) ->
  exists before after,
    map snd rules ++ ["other"] = before ++ first_match rules text' :: after /\
    In (first_match rules text) (first_match rules text' :: after).
Proof.
  intros Hmono. induction rules as [|[kws c] rest IH]; simpl.
  - exists [], []. split; [reflexivity | now left].
  - destruct (any_kw_in kws text') eqn:E'.
    + exists [], (map snd rest ++ ["other"]). split; [reflexivity|].
      destruct (any_kw_in kws text); [now left|].
      right. apply first_match_range.
    + destruct (any_kw_in kws text) eqn:E.
      * apply Hmono in E. congruence.
      * destruct IH as [before [after [H1 H2]]].
        exists (c :: before), after. split; [|assumption].
        simpl. now rewrite H1.
Qed.

Lemma NoDup_head_split {A : Type} (x c : A) (l before after : list A) :
  NoDup (x :: l) -> x :: l = before ++ c :: after -> In x (c :: after) -> c = x.
Proof.
  intros Hnd Heq Hin. destruct before as [|b before'].
  - now injection Heq.
  - simpl in Heq. injection Heq as <- ->.
    apply NoDup_cons_iff in Hnd as [Hnot _].
    exfalso. apply Hnot. apply in_or_app. now right.
Qed.

Lemma NoDup_last_split {A : Type} (x : A) (l before after : list A) :
  NoDup (l ++ [x]) -> l ++ [x] = before ++ x :: after -> after = [].
Proof.
  intros Hnd Heq.
  destruct after as [|y after'] using rev_ind; [reflexivity|].
  exfalso.
  change (before ++ x :: after' ++ [y]) with (before ++ (x :: after') ++ [y]) in Heq.
  rewrite app_assoc in Heq. apply app_inj_tail in Heq as [-> ->].
  apply NoDup_remove_2 in Hnd. apply Hnd.
  rewrite List.app_nil_r. apply in_or_app. right. now left.
Qed.

(** X1: text around a type name never moves it down the table.  The category
    of a name that contains [s] is the category of [s] or one that comes
    earlier in the rule table; so a name that contains an [llm] name is an
    [llm] name, and a name classified [other] contains no name of another
    category. *)
Theorem categorize_node_extension (pre s post : string) :
  (exists before after,
      category_names = before ++ categorize_node (pre ++ s ++ post) :: after /\
      In (categorize_node s) (categorize_node (pre ++ s ++ post) :: after)) /\
  (categorize_node s = "llm" -> categorize_node (pre ++ s ++ post) = "llm") /\
  (categorize_node (pre ++ s ++ post) = "other" -> categorize_node s = "other").
Proof.
  assert (Hmain : exists before after,
      category_names = before ++ categorize_node (pre ++ s ++ post) :: after /\
      In (categorize_node s) (categorize_node (pre ++ s ++ post) :: after)).
  { unfold categorize_node.
    apply (first_match_monotone categories (lower s) (lower (pre ++ s ++ post))).
    intros kws H. rewrite !lower_app. now apply any_kw_in_extend. }
  split; [exact Hmain|].
  destruct Hmain as [before [after [Hn Hin]]].
  assert (Hnd : NoDup category_names).
  { unfold category_names.
    repeat (constructor; [simpl; intuition discriminate|]). constructor. }
  split.
  - intros Hs. rewrite Hs in Hin.
    exact (NoDup_head_split _ _ _ _ _ Hnd Hn Hin).
  - intros Hs. rewrite Hs in Hn, Hin.
    change category_names with (removelast category_names ++ ["other"]) in Hn, Hnd.
    apply (NoDup_last_split _ _ _ _ Hnd) in Hn. subst after.
    destruct Hin as [<-|[]]. reflexivity.
Qed.

(** ** The analyser: nodes and summary *)

(** X2: every node that an analysis lists carries the category that
    [categorize_node] gives its type, and that category is one of the
    fifteen names of the table. *)
Theorem node_categories_known (json_loads : string -> result json)
        (flow : pydict) (goal : option string) (a : analysis) :
  analyze_flow_data json_loads flow goal = Ok a ->
  Forall (fun n => node_category n = categorize_node (node_type n) /\
                   In (node_category n) category_names)
         (nodes a).
Proof.
  intros H. apply analyze_ok_inv in H as [[_ ->]|H]; [constructor|].
  destruct H as (fd & ns & es & items & cats & entries & n1 & n2 &
                 _ & _ & _ & _ & Hloop & _ & _ & ->).
  apply node_loop_inv in Hloop as [new [-> [_ [Hcat _]]]].
  simpl. apply Forall_forall. intros n Hn.
  rewrite Forall_forall in Hcat. specialize (Hcat n Hn).
  split; [assumption|]. rewrite Hcat.
  unfold categorize_node. apply (first_match_range categories).
Qed.

Lemma node_categories_known_witness :
  exists a,
    analyze_flow_data Json.json_loads named_node_flow None = Ok a /\
    Forall (fun n => node_category n = categorize_node (node_type n) /\
                     In (node_category n) category_names)
           (nodes a).
Proof.
  assert (H : exists a, analyze_flow_data Json.json_loads named_node_flow None = Ok a)
    by (eexists; vm_compute; reflexivity).
  destruct H as [a Ha]. exists a. split; [exact Ha|].
  exact (node_categories_known Json.json_loads named_node_flow None a Ha).
Defined.

Lemma chars_length (s : string) : List.length (chars s) = String.length s.
Proof. induction s; simpl; congruence. Qed.

Lemma py_iter_len (v : json) (items : list json) :
  py_iter v = Ok items -> py_len v = Ok (List.length items).
Proof.
  destruct v; simpl; try discriminate; intros [= <-].
  - now rewrite chars_length.
  - reflexivity.
  - now rewrite length_map.
Qed.

(** X3: after a successful decode the analysis lists one entry per node of
    the graph, and the node count in the summary is the number of listed
    entries; the connection count is [len] of the [edges] entry. *)
Theorem summary_counts_listed_nodes (json_loads : string -> result json)
        (flow : pydict) (goal : option string) (a : analysis) :
  decodes json_loads flow ->
  analyze_flow_data json_loads flow goal = Ok a ->
  exists fd items n_edges,
    decode_flow_data json_loads (flow_data_str flow) = Ok (Some (JObj fd)) /\
    py_iter (dict_get fd "nodes" (JArr [])) = Ok items /\
    py_len (dict_get fd "edges" (JArr [])) = Ok n_edges /\
    List.length (nodes a) = List.length items /\
    summary a
    = ("Flow contains " ++ str_of_nat (List.length (nodes a)) ++ " nodes and "
         ++ str_of_nat n_edges ++ " connections.")%string.
Proof.
  intros [fd0 Hdec] H. apply analyze_ok_inv in H as [[Hf _]|H].
  { apply decode_caught_iff in Hf. congruence. }
  destruct H as (fd & ns & es & items & cats & entries & n1 & n2 &
                 Hfd & -> & -> & Hit & Hloop & Hn1 & Hn2 & ->).
  apply node_loop_inv in Hloop as [new [-> [Hdesc _]]]. simpl in *.
  rewrite (py_iter_len _ _ Hit) in Hn1. injection Hn1 as <-.
  exists fd, items, n2. repeat split; try assumption.
  - symmetry. eapply Forall2_length; eauto.
  - now rewrite (Forall2_length Hdesc).
Qed.

Lemma summary_counts_listed_nodes_witness :
  exists a n_edges,
    analyze_flow_data Json.json_loads named_node_flow None = Ok a /\
    summary a
    = ("Flow contains " ++ str_of_nat (List.length (nodes a)) ++ " nodes and "
         ++ str_of_nat n_edges ++ " connections.")%string.
Proof.
  run_analysis named_node_flow (@None string) a Ha.
  destruct (summary_counts_listed_nodes Json.json_loads named_node_flow None a)
    as (fd & items & n_edges & _ & _ & _ & _ & Hs);
    [decodes_here | exact Ha |].
  now exists a, n_edges.
Defined.

(** ** The analyser: shape of the suggestions *)

Lemma subseq_opt_cons {A : Type} (c : bool) (x : A) (l l' : list A) :
  subseq l l' -> subseq (opt c x ++ l) (x :: l').
Proof. destruct c; simpl; intros H; now constructor. Qed.

Lemma subseq_In {A : Type} (l l' : list A) (x : A) :
  subseq l l' -> In x l -> In x l'.
Proof.
  induction 1; simpl; intros Hin; [assumption | right; auto |].
  destruct Hin as [<-|Hin]; [now left | right; auto].
Qed.

Lemma subseq_map {A B : Type} (f : A -> B) (l l' : list A) :
  subseq l l' -> subseq (map f l) (map f l').
Proof. induction 1; simpl; now constructor. Qed.

Lemma subseq_NoDup {A : Type} (l l' : list A) :
  subseq l l' -> NoDup l' -> NoDup l.
Proof.
  induction 1; intros Hnd; [constructor | |].
  - apply NoDup_cons_iff in Hnd as [_ Hnd]. auto.
  - apply NoDup_cons_iff in Hnd as [Hx Hnd]. constructor; [|auto].
    intros Hin. apply Hx. eapply subseq_In; eauto.
Qed.

Lemma subseq_Forall {A : Type} (P : A -> Prop) (l l' : list A) :
  subseq l l' -> Forall P l' -> Forall P l.
Proof.
  intros Hs Hf. apply Forall_forall. intros x Hx.
  rewrite Forall_forall in Hf. apply Hf. eapply subseq_In; eauto.
Qed.

Lemma subseq_length {A : Type} (l l' : list A) :
  subseq l l' -> List.length l <= List.length l'.
Proof. induction 1; simpl; lia. Qed.

Lemma rule_battery_subseq (flow : pydict) (flow_type : json)
      (cats : str_set) (goal : option string) :
  subseq (fst (rule_battery flow flow_type cats goal)) (every_suggestion cats goal)
  /\ subseq (snd (rule_battery flow flow_type cats goal))
            [prompt_practice; cache_practice].
Proof.
  rewrite rule_battery_suggestions, rule_battery_practices. split.
  - unfold every_suggestion.
    repeat apply subseq_opt_cons.
    rewrite <- (List.app_nil_r (opt _ _)). apply subseq_opt_cons. constructor.
  - apply subseq_opt_cons.
    rewrite <- (List.app_nil_r (opt _ _)). apply subseq_opt_cons. constructor.
Qed.

Lemma every_suggestion_well_formed (cats : str_set) (goal : option string) :
  Forall (fun s => (priority s = "high" \/ priority s = "medium")
                   /\ one_kind_of_advice s)
         (every_suggestion cats goal).
Proof.
  unfold every_suggestion, one_kind_of_advice.
  assert (Hv : exists n ns, vector_store_nodes cats = n :: ns)
    by (unfold vector_store_nodes;
        destruct (negb (set_mem "document_loader" cats)),
                 (negb (set_mem "retriever" cats)); simpl; eauto).
  destruct Hv as [n [ns Hv]].
  repeat (apply Forall_cons;
          [ split;
            [ simpl; auto
            | simpl; rewrite ?Hv;
              first [ left; split; [reflexivity | eauto; fail]
                    | right; split; [reflexivity | eauto; fail] ] ]
          | ]).
  constructor.
Qed.

(** X4: the suggestions of an analysis have pairwise distinct titles, each
    has priority [high] or [medium] and carries either nodes to add or
    tips (never both, never neither, never an empty list), and there are at
    most eight of them; the best-practice notes have distinct titles and
    are at most two. *)
Theorem suggestions_well_formed (json_loads : string -> result json)
        (flow : pydict) (goal : option string) (a : analysis) :
  analyze_flow_data json_loads flow goal = Ok a ->
  NoDup (map title (suggestions a)) /\
  Forall (fun s => (priority s = "high" \/ priority s = "medium")
                   /\ one_kind_of_advice s)
         (suggestions a) /\
  List.length (suggestions a) <= 8 /\
  NoDup (map bp_title (best_practices a)) /\
  List.length (best_practices a) <= 2.
Proof.
  intros H. apply analyze_ok_inv in H as [[_ ->]|H].
  { simpl. repeat split; try constructor; lia. }
  destruct H as (fd & ns & es & items & cats & entries & n1 & n2 &
                 _ & _ & _ & _ & _ & _ & _ & ->).
  simpl.
  destruct (rule_battery_subseq flow (dict_get flow "type" (JStr "CHATFLOW"))
              cats goal) as [Hs Hp].
  repeat split.
  - apply (subseq_NoDup _ _ (subseq_map title _ _ Hs)).
    unfold every_suggestion. simpl.
    repeat (constructor; [simpl; intuition discriminate|]). constructor.
  - exact (subseq_Forall _ _ _ Hs (every_suggestion_well_formed cats goal)).
  - exact (subseq_length _ _ Hs).
  - apply (subseq_NoDup _ _ (subseq_map bp_title _ _ Hp)).
    simpl. repeat (constructor; [simpl; intuition discriminate|]). constructor.
  - exact (subseq_length _ _ Hp).
Qed.

Lemma suggestions_well_formed_witness :
  exists a,
    analyze_flow_data Json.json_loads decoded_flow (Some "handle output format better")
    = Ok a /\
    NoDup (map title (suggestions a)) /\ List.length (suggestions a) <= 8.
Proof.
  run_analysis decoded_flow (Some "handle output format better") a Ha.
  exists a. split; [exact Ha|].
  destruct (suggestions_well_formed Json.json_loads decoded_flow
              (Some "handle output format better") a Ha) as (H1 & _ & H3 & _).
  now split.
Defined.

(** ** The analyser: the remaining rules *)

Lemma lower_split (g a b : string) :
  lower g = (a ++ b)%string ->
  exists a' b', g = (a' ++ b')%string /\ lower a' = a /\ lower b' = b.
Proof.
  revert g. induction a as [|c a IH]; intros g H.
  - exists EmptyString, g. auto.
  - destruct g as [|c' g]; [discriminate|].
    simpl in H. injection H as Hc H.
    destruct (IH g H) as [a' [b' [-> [<- <-]]]].
    exists (String c' a'), b'. simpl. now rewrite Hc.
Qed.

Lemma str_in_lower_occurs_ci (kw g : string) :
  str_in kw (lower g) = true -> occurs_ci kw g.
Proof.
  intros H. apply str_in_spec in H as [pre [post H]].
  apply lower_split in H as [pre' [rest [-> [_ H]]]].
  apply lower_split in H as [w [post' [-> [Hw _]]]].
  now exists pre', w, post'.
Qed.

Lemma str_in_empty (kw : string) :
  kw <> EmptyString -> str_in kw EmptyString = false.
Proof. destruct kw; [congruence | reflexivity]. Qed.

Lemma lower_goal_mentions (goal : option string) (kw : string) :
  kw <> EmptyString ->
  str_in kw (lower_goal goal) = true <-> goal_mentions goal kw.
Proof.
  intros Hkw. split.
  - destruct goal as [g|].
    + rewrite lower_goal_some. intros H. exists g. split; [reflexivity|].
      now apply str_in_lower_occurs_ci.
    + cbn [lower_goal]. rewrite (str_in_empty kw Hkw). discriminate.
  - intros [g [-> H]]. now apply occurs_ci_goal.
Qed.

Lemma is_agent_type_iff (t : json) :
  is_agent_type t = true <-> t = JStr "AGENTFLOW" \/ t = JStr "MULTIAGENT".
Proof.
  destruct t; simpl; try (split; [discriminate | intros [H|H]; discriminate]).
  rewrite orb_true_iff, !String.eqb_eq.
  split; (intros [H|H]; [left | right]); congruence.
Qed.

(** What the rules see of a decoded flow. *)
Lemma analyze_rules (json_loads : string -> result json) (flow : pydict)
      (goal : option string) (a : analysis) :
  decodes json_loads flow ->
  analyze_flow_data json_loads flow goal = Ok a ->
  exists cats,
    (forall c, set_mem c cats = has_category a c) /\
    flow_type a = dict_get flow "type" (JStr "CHATFLOW") /\
    suggestions a = fst (rule_battery flow (flow_type a) cats goal) /\
    best_practices a = snd (rule_battery flow (flow_type a) cats goal).
Proof.
  intros Hdec H.
  destruct (analyze_categories _ _ _ _ Hdec H) as [cats [Hmem [_ [Hs [Hp _]]]]].
  assert (Ht : flow_type a = dict_get flow "type" (JStr "CHATFLOW")).
  { apply analyze_ok_inv in H as [[_ ->]|H]; [reflexivity|].
    destruct H as (fd & ns & es & items & cats' & entries & n1 & n2 &
                   _ & _ & _ & _ & _ & _ & _ & ->). reflexivity. }
  exists cats. rewrite Ht. auto.
Qed.

Ltac in_opts :=
  repeat match goal with
         | |- In ?x (?x :: _) => now left
         | |- In ?x (opt true ?x ++ _) => simpl; now left
         | |- In ?x (opt true ?x) => simpl; now left
         | |- In _ (_ ++ _) => apply in_or_app; right
         end.

(** X5: after a successful decode the analysis suggests [Add Tools to
    Agent] if and only if the flow type is [AGENTFLOW] or [MULTIAGENT] and
    no listed node has category [tool]. *)
Theorem tools_suggestion_iff (json_loads : string -> result json)
        (flow : pydict) (goal : option string) (a : analysis) :
  decodes json_loads flow ->
  analyze_flow_data json_loads flow goal = Ok a ->
  (suggests a "Add Tools to Agent" "medium" <->
   (flow_type a = JStr "AGENTFLOW" \/ flow_type a = JStr "MULTIAGENT")
   /\ has_category a "tool" = false).
Proof.
  intros Hdec H.
  destruct (analyze_rules _ _ _ _ Hdec H) as [cats [Hmem [_ [Hs _]]]].
  rewrite <- is_agent_type_iff, <- Hmem.
  unfold suggests. rewrite Hs, rule_battery_suggestions. split.
  - intros [s [Hin [Ht Hp]]].
    split_in Hin; try discriminate Ht.
    apply andb_true_iff in H0 as [H1 H2]. apply negb_true_iff in H2. auto.
  - intros [H1 H2]. exists tools_suggestion. rewrite H1, H2. simpl.
    repeat split. in_opts.
Qed.

Lemma tools_suggestion_iff_witness :
  exists a,
    analyze_flow_data Json.json_loads decoded_flow None = Ok a /\
    suggests a "Add Tools to Agent" "medium".
Proof.
  run_analysis decoded_flow (@None string) a Ha.
  exists a. split; [exact Ha|].
  apply (tools_suggestion_iff Json.json_loads decoded_flow None a);
    [decodes_here | exact Ha |].
  vm_compute in Ha. injection Ha as <-. split; [now left | reflexivity].
Defined.

(** X6: after a successful decode the analysis suggests [Add Input
    Moderation] if and only if the flow's [isPublic] field is truthy and no
    listed node has category [moderation]. *)
Theorem moderation_suggestion_iff (json_loads : string -> result json)
        (flow : pydict) (goal : option string) (a : analysis) :
  decodes json_loads flow ->
  analyze_flow_data json_loads flow goal = Ok a ->
  (suggests a "Add Input Moderation" "medium" <->
   truthy (dict_get flow "isPublic" JNull) = true
   /\ has_category a "moderation" = false).
Proof.
  intros Hdec H.
  destruct (analyze_rules _ _ _ _ Hdec H) as [cats [Hmem [_ [Hs _]]]].
  rewrite <- Hmem.
  unfold suggests. rewrite Hs, rule_battery_suggestions. split.
  - intros [s [Hin [Ht Hp]]].
    split_in Hin; try discriminate Ht.
    apply andb_true_iff in H0 as [H1 H2]. apply negb_true_iff in H2. auto.
  - intros [H1 H2]. exists moderation_suggestion. rewrite H1, H2. simpl.
    repeat split. in_opts.
Qed.

Lemma moderation_suggestion_iff_witness :
  exists a,
    analyze_flow_data Json.json_loads decoded_flow None = Ok a /\
    suggests a "Add Input Moderation" "medium".
Proof.
  run_analysis decoded_flow (@None string) a Ha.
  exists a. split; [exact Ha|].
  apply (moderation_suggestion_iff Json.json_loads decoded_flow None a);
    [decodes_here | exact Ha |].
  vm_compute in Ha. injection Ha as <-. split; reflexivity.
Defined.

(** X7: the vector-store and the output-parser suggestions need both the
    goal and the gap: each is present if and only if the goal mentions its
    keyword ([knowledge], [format]) in any letter case and no listed node
    has its category. *)
Theorem structure_suggestions_need_goal (json_loads : string -> result json)
        (flow : pydict) (goal : option string) (a : analysis) :
  decodes json_loads flow ->
  analyze_flow_data json_loads flow goal = Ok a ->
  (suggests a "Add Vector Store for Knowledge Base" "high" <->
   goal_mentions goal "knowledge" /\ has_category a "vector_store" = false) /\
  (suggests a "Add Output Parser" "medium" <->
   goal_mentions goal "format" /\ has_category a "output_parser" = false).
Proof.
  intros Hdec H.
  destruct (analyze_rules _ _ _ _ Hdec H) as [cats [Hmem [_ [Hs _]]]].
  rewrite <- !Hmem, <- !lower_goal_mentions by discriminate.
  unfold suggests. rewrite Hs, rule_battery_suggestions. split; split.
  - intros [s [Hin [Ht Hp]]].
    split_in Hin; try discriminate Ht.
    apply andb_true_iff in H0 as [H1 H2]. apply negb_true_iff in H2. auto.
  - intros [H1 H2]. exists (vector_store_suggestion cats). rewrite H1, H2. simpl.
    repeat split. in_opts.
  - intros [s [Hin [Ht Hp]]].
    split_in Hin; try discriminate Ht.
    apply andb_true_iff in H0 as [H1 H2]. apply negb_true_iff in H2. auto.
  - intros [H1 H2]. exists output_parser_suggestion. rewrite H1, H2. simpl.
    repeat split. in_opts.
Qed.

Lemma structure_suggestions_need_goal_witness :
  exists a,
    analyze_flow_data Json.json_loads chat_flow (Some "A Knowledge base") = Ok a /\
    suggests a "Add Vector Store for Knowledge Base" "high" /\
    ~ suggests a "Add Output Parser" "medium".
Proof.
  run_analysis chat_flow (Some "A Knowledge base") a Ha.
  exists a. split; [exact Ha|].
  destruct (structure_suggestions_need_goal Json.json_loads chat_flow
              (Some "A Knowledge base") a) as [Hv Ho];
    [decodes_here | exact Ha |].
  split.
  - apply Hv. split.
    + exists "A Knowledge base". split; [reflexivity|].
      now exists "A ", "Knowledge", " base".
    + vm_compute in Ha. injection Ha as <-. reflexivity.
  - intros H. apply Ho in H as [[g [Hg Hocc]] _]. injection Hg as <-.
    apply occurs_ci_lower in Hocc. vm_compute in Hocc. discriminate.
Defined.

(** X8: the three suggestions that depend on the goal alone are present if
    and only if the goal mentions one of their keywords in any letter case;
    the description of [Extend Capabilities] quotes the goal as it was
    given. *)
Theorem goal_suggestions_iff (json_loads : string -> result json)
        (flow : pydict) (goal : option string) (a : analysis) :
  decodes json_loads flow ->
  analyze_flow_data json_loads flow goal = Ok a ->
  (suggests a "Improve Response Accuracy" "high" <->
   goal_mentions goal "accuracy" \/ goal_mentions goal "better") /\
  (suggests a "Improve Response Speed" "high" <->
   goal_mentions goal "fast" \/ goal_mentions goal "speed") /\
  (suggests a "Extend Capabilities" "medium" <->
   goal_mentions goal "handle" \/ goal_mentions goal "support") /\
  (forall s, In s (suggestions a) -> title s = "Extend Capabilities" ->
     exists g, goal = Some g /\
               description s = ("Based on your goal '" ++ g ++ "':")%string).
Proof.
  intros Hdec H.
  destruct (analyze_rules _ _ _ _ Hdec H) as [cats [Hmem [_ [Hs _]]]].
  rewrite <- !lower_goal_mentions by discriminate.
  unfold suggests. rewrite Hs, rule_battery_suggestions.
  rewrite <- !orb_true_iff.
  split; [|split; [|split]].
  - split.
    + intros [s [Hin [Ht Hp]]]. split_in Hin; try discriminate Ht. assumption.
    + intros H1. exists accuracy_suggestion. rewrite H1. simpl.
      repeat split. in_opts.
  - split.
    + intros [s [Hin [Ht Hp]]]. split_in Hin; try discriminate Ht. assumption.
    + intros H1. exists speed_suggestion. rewrite H1. simpl.
      repeat split. in_opts.
  - split.
    + intros [s [Hin [Ht Hp]]]. split_in Hin; try discriminate Ht. assumption.
    + intros H1. exists (capability_suggestion goal). rewrite H1. simpl.
      repeat split. in_opts.
  - intros s Hin Ht. split_in Hin; try discriminate Ht.
    apply orb_true_iff in H0.
    rewrite !lower_goal_mentions in H0 by discriminate.
    destruct H0 as [[g [-> _]]|[g [-> _]]]; exists g; split; reflexivity.
Qed.

Lemma goal_suggestions_iff_witness :
  exists a,
    analyze_flow_data Json.json_loads chat_flow (Some "Support FASTER replies") = Ok a /\
    suggests a "Improve Response Speed" "high" /\
    suggests a "Extend Capabilities" "medium" /\
    ~ suggests a "Improve Response Accuracy" "high".
Proof.
  run_analysis chat_flow (Some "Support FASTER replies") a Ha.
  exists a. split; [exact Ha|].
  destruct (goal_suggestions_iff Json.json_loads chat_flow
              (Some "Support FASTER replies") a) as (Hacc & Hsp & Hcap & _);
    [decodes_here | exact Ha |].
  split; [|split].
  - apply Hsp. left. exists "Support FASTER replies". split; [reflexivity|].
    now exists "Support ", "FAST", "ER replies".
  - apply Hcap. right. exists "Support FASTER replies". split; [reflexivity|].
    now exists "", "Support", " FASTER replies".
  - intros H. apply Hacc in H as [[g [Hg Hocc]]|[g [Hg Hocc]]];
      injection Hg as <-; apply occurs_ci_lower in Hocc;
      vm_compute in Hocc; discriminate.
Defined.

(** X9: the best-practice notes of a decoded flow are the prompt tips when
    some node has category [prompt], followed by the caching note when no
    node has category [cache], and nothing else. *)
Theorem best_practices_exactly (json_loads : string -> result json)
        (flow : pydict) (goal : option string) (a : analysis) :
  decodes json_loads flow ->
  analyze_flow_data json_loads flow goal = Ok a ->
  best_practices a =
    opt (has_category a "prompt") prompt_practice
    ++ opt (negb (has_category a "cache")) cache_practice.
Proof.
  intros Hdec H.
  destruct (analyze_rules _ _ _ _ Hdec H) as [cats [Hmem [_ [_ Hp]]]].
  now rewrite Hp, rule_battery_practices, !Hmem.
Qed.

Lemma best_practices_exactly_witness :
  exists a,
    analyze_flow_data Json.json_loads chat_flow None = Ok a /\
    best_practices a = [cache_practice].
Proof.
  run_analysis chat_flow (@None string) a Ha.
  exists a. split; [exact Ha|].
  rewrite (best_practices_exactly Json.json_loads chat_flow None a);
    [| decodes_here | exact Ha].
  vm_compute in Ha. injection Ha as <-. reflexivity.
Defined.

(** ** The analyser: what it depends on, and when it returns *)

Lemma Forall2_eq_refl {A : Type} (R : A -> A -> Prop) (l : list A) :
  (forall x, R x x) -> Forall2 R l l.
Proof. intros HR. induction l; constructor; auto. Qed.

(** X10: the letter case of the goal does not matter.  Two goals with the
    same lower-case form make the call raise the same exception or return
    analyses that agree everywhere except in the description of [Extend
    Capabilities], which quotes the goal. *)
Theorem goal_case_insensitive (json_loads : string -> result json)
        (flow : pydict) (g g' : string) :
  lower g = lower g' ->
  match analyze_flow_data json_loads flow (Some g),
        analyze_flow_data json_loads flow (Some g') with
  | Ok a, Ok a' =>
      Forall2 (fun s s' =>
                 s' = s \/ (s = capability_suggestion (Some g) /\
                            s' = capability_suggestion (Some g')))
              (suggestions a) (suggestions a') /\
      nodes a = nodes a' /\
      summary a = summary a' /\
      best_practices a = best_practices a' /\
      potential_issues a = potential_issues a' /\
      flow_name a = flow_name a' /\
      flow_type a = flow_type a'
  | Raise e, Raise e' => e = e'
  | _, _ => False
  end.
Proof.
  intros Hg.
  destruct (analyze_goal_split json_loads flow)
    as [[e He]|[[a Ha]|(name & type & text & entries & cats & Ha)]].
  - now rewrite !He.
  - destruct (Ha (Some g)) as [-> Hs]. destruct (Ha (Some g')) as [-> _].
    rewrite Hs. repeat split. constructor.
  - rewrite !Ha. cbn [suggestions nodes summary best_practices potential_issues
                      flow_name flow_type].
    rewrite !rule_battery_suggestions, !rule_battery_practices,
      !lower_goal_some, Hg.
    repeat split.
    repeat (apply Forall2_app; [apply Forall2_eq_refl; now left|]).
    destruct (_ || _); simpl; constructor; [|constructor].
    right. split; reflexivity.
Qed.

Lemma goal_case_insensitive_witness :
  match analyze_flow_data Json.json_loads chat_flow (Some "Handle PDFs"),
        analyze_flow_data Json.json_loads chat_flow (Some "handle pdfs") with
  | Ok a, Ok a' => best_practices a = best_practices a' /\ nodes a = nodes a'
  | Raise e, Raise e' => e = e'
  | _, _ => False
  end.
Proof.
  pose proof (goal_case_insensitive Json.json_loads chat_flow "Handle PDFs" "handle pdfs"
                eq_refl) as H.
  destruct (analyze_flow_data Json.json_loads chat_flow (Some "Handle PDFs")),
           (analyze_flow_data Json.json_loads chat_flow (Some "handle pdfs"));
    try exact H.
  destruct H as (_ & Hn & _ & Hb & _). now split.
Defined.

Lemma dict_get_lookup_eq (d d' : pydict) (key : string) (default : json) :
  lookup d key = lookup d' key -> dict_get d key default = dict_get d' key default.
Proof. unfold dict_get. now intros ->. Qed.

(** X11: of a flow with a decodable graph the analysis reads the [name],
    the [type], [isPublic] and the [nodes] of the graph, and nothing else,
    the summary apart: two flows that agree on these four get the same
    name, type, nodes, suggestions, best-practice notes and issues. *)
Theorem analysis_reads_four_fields (json_loads : string -> result json)
        (flow flow' : pydict) (goal : option string) (fd fd' : pydict)
        (a a' : analysis) :
  decode_flow_data json_loads (flow_data_str flow) = Ok (Some (JObj fd)) ->
  decode_flow_data json_loads (flow_data_str flow') = Ok (Some (JObj fd')) ->
  lookup fd "nodes" = lookup fd' "nodes" ->
  lookup flow "name" = lookup flow' "name" ->
  lookup flow "type" = lookup flow' "type" ->
  lookup flow "isPublic" = lookup flow' "isPublic" ->
  analyze_flow_data json_loads flow goal = Ok a ->
  analyze_flow_data json_loads flow' goal = Ok a' ->
  flow_name a = flow_name a' /\
  flow_type a = flow_type a' /\
  nodes a = nodes a' /\
  suggestions a = suggestions a' /\
  best_practices a = best_practices a' /\
  potential_issues a = potential_issues a'.
Proof.
  intros Hd Hd' Hnodes Hname Htype Hpub H H'.
  apply analyze_ok_inv in H as [[Hf _]|H].
  { apply decode_caught_iff in Hf. congruence. }
  apply analyze_ok_inv in H' as [[Hf _]|H'].
  { apply decode_caught_iff in Hf. congruence. }
  destruct H as (fd1 & ns & es & items & cats & entries & n1 & n2 &
                 Hfd & -> & -> & Hit & Hloop & _ & _ & ->).
  destruct H' as (fd2 & ns' & es' & items' & cats' & entries' & n1' & n2' &
                  Hfd' & -> & -> & Hit' & Hloop' & _ & _ & ->).
  rewrite Hd in Hfd. injection Hfd as <-.
  rewrite Hd' in Hfd'. injection Hfd' as <-.
  rewrite (dict_get_lookup_eq fd fd' "nodes" _ Hnodes) in Hit.
  rewrite Hit in Hit'. injection Hit' as <-.
  rewrite Hloop in Hloop'. injection Hloop' as <- <-.
  cbn [suggestions nodes summary best_practices potential_issues
       flow_name flow_type].
  rewrite !rule_battery_suggestions, !rule_battery_practices.
  rewrite (dict_get_lookup_eq flow flow' "name" _ Hname),
    (dict_get_lookup_eq flow flow' "type" _ Htype),
    (dict_get_lookup_eq flow flow' "isPublic" _ Hpub).
  repeat split.
Qed.

Lemma analysis_reads_four_fields_witness :
  exists a a',
    analyze_flow_data Json.json_loads chat_flow (Some "speed") = Ok a /\
    analyze_flow_data Json.json_loads chat_flow_rewired (Some "speed") = Ok a' /\
    suggestions a = suggestions a' /\ summary a <> summary a'.
Proof.
  run_analysis chat_flow (Some "speed") a Ha.
  run_analysis chat_flow_rewired (Some "speed") a' Ha'.
  exists a, a'. split; [exact Ha|]. split; [exact Ha'|]. split.
  - eapply (analysis_reads_four_fields Json.json_loads chat_flow chat_flow_rewired
              (Some "speed") _ _ a a');
      try exact Ha; try exact Ha'; vm_compute; reflexivity.
  - vm_compute in Ha, Ha'. injection Ha as <-. injection Ha' as <-.
    simpl. discriminate.
Defined.

Lemma node_step_shaped (st st' : str_set * list node_entry) (node : json) :
  node_step st node = Ok st' -> node_shaped node.
Proof.
  destruct st as [cats entries]. intros H.
  apply node_step_inv in H as (nd & dd & t & -> & Hd & Ht & _).
  now exists nd, dd, t.
Qed.

Lemma node_loop_shaped (items : list json) (st st' : str_set * list node_entry) :
  for_each node_step items st = Ok st' -> Forall node_shaped items.
Proof.
  revert st. induction items as [|x items IH]; intros st H; [constructor|].
  cbn [for_each] in H. bind_inv H.
  constructor; [eapply node_step_shaped; eauto | eapply IH; eauto].
Qed.

Lemma py_get_raises (obj : json) (key : string) (default : json) (e : exn) :
  py_get obj key default = Raise e -> e = AttributeError.
Proof. destruct obj; simpl; congruence. Qed.

Lemma node_step_raises (st : str_set * list node_entry) (node : json) (e : exn) :
  node_step st node = Raise e -> e = AttributeError.
Proof.
  destruct st as [cats entries]. unfold node_step.
  repeat match goal with
         | |- context [bind (py_get ?o ?k ?d) _] =>
             let E := fresh "E" in
             destruct (py_get o k d) eqn:E; cbn [bind];
             [| apply py_get_raises in E; congruence]
         | |- context [bind (categorize_value ?v) _] =>
             destruct v; cbn [categorize_value bind]; try congruence
         end.
  discriminate.
Qed.

Lemma node_loop_raises (items : list json) (st : str_set * list node_entry)
      (e : exn) :
  for_each node_step items st = Raise e -> e = AttributeError.
Proof.
  revert st. induction items as [|x items IH]; intros st; cbn [for_each];
    [discriminate|].
  destruct (node_step st x) eqn:E; cbn [bind]; [apply IH|].
  intros [= <-]. eapply node_step_raises; eauto.
Qed.

(** X12: when [analyze_flow_data] returns and when it raises.  It returns
    exactly when the decoder rejects the graph text with [JSONDecodeError]
    or [TypeError], or the graph is a dict whose [nodes] can be iterated and
    hold only nodes of the expected shape and whose [edges] has a length.
    Any other exception of the decoder is raised by the call; apart from
    those, any exception it raises is an [AttributeError] or a
    [TypeError]. *)
Theorem analyze_returns_iff (json_loads : string -> result json)
        (flow : pydict) (goal : option string) :
  ((exists a, analyze_flow_data json_loads flow goal = Ok a) <->
   decode_caught json_loads flow \/
   exists fd items n_edges,
     decode_flow_data json_loads (flow_data_str flow) = Ok (Some (JObj fd)) /\
     py_iter (dict_get fd "nodes" (JArr [])) = Ok items /\
     Forall node_shaped items /\
     py_len (dict_get fd "edges" (JArr [])) = Ok n_edges) /\
  (forall e, decode_escapes json_loads flow e ->
             analyze_flow_data json_loads flow goal = Raise e) /\
  (forall e, analyze_flow_data json_loads flow goal = Raise e ->
             decode_escapes json_loads flow e \/
             e = AttributeError \/ e = TypeError).
Proof.
  split; [split|split].
  - intros [a H]. apply analyze_ok_inv in H as [[Hf _]|H]; [now left|].
    destruct H as (fd & ns & es & items & cats & entries & n1 & n2 &
                   Hfd & -> & -> & Hit & Hloop & _ & Hn2 & _).
    right. exists fd, items, n2. repeat split; try assumption.
    eapply node_loop_shaped; eauto.
  - intros [Hf|(fd & items & n_edges & Hd & Hit & Hshape & Hlen)].
    + apply decode_caught_iff in Hf. unfold analyze_flow_data. rewrite Hf.
      cbn [bind]. eauto.
    + destruct (node_loop_returns items ([], []) Hshape) as [[cats entries] Hloop].
      unfold analyze_flow_data. rewrite Hd. cbn [py_get bind].
      rewrite Hit. cbn [bind]. rewrite Hloop. cbn [bind].
      rewrite (py_iter_len _ _ Hit), Hlen. cbn [bind].
      destruct (rule_battery flow _ cats goal). eauto.
  - intros e He. apply decode_escapes_iff in He.
    unfold analyze_flow_data. now rewrite He.
  - intros e. unfold analyze_flow_data.
    destruct (decode_flow_data json_loads (flow_data_str flow))
      as [[fd|]|e0] eqn:Ed; cbn [bind]; [|discriminate|].
    2:{ intros [= <-]. left. now apply decode_escapes_iff. }
    intros H. right. revert H.
    destruct (py_get fd "nodes" (JArr [])) as [ns|e1] eqn:E1; cbn [bind].
    2:{ apply py_get_raises in E1. intros [= <-]. now left. }
    destruct (py_get fd "edges" (JArr [])) as [es|e2] eqn:E2; cbn [bind].
    2:{ apply py_get_raises in E2. intros [= <-]. now left. }
    destruct (py_iter ns) as [items|e3] eqn:E3; cbn [bind].
    2:{ intros [= <-]. destruct ns; simpl in E3; try discriminate;
        injection E3 as <-; now right. }
    destruct (for_each node_step items ([], [])) as [[cats entries]|e4] eqn:E4;
      cbn [bind].
    2:{ apply node_loop_raises in E4. intros [= <-]. now left. }
    destruct (py_len ns) as [nn|e5] eqn:E5; cbn [bind].
    2:{ intros [= <-]. destruct ns; simpl in E5; try discriminate;
        injection E5 as <-; now right. }
    destruct (py_len es) as [ne|e6] eqn:E6; cbn [bind].
    2:{ intros [= <-]. destruct es; simpl in E6; try discriminate;
        injection E6 as <-; now right. }
    destruct (rule_battery flow _ cats goal). discriminate.
Qed.

(** ** Decoded values have distinct keys *)

Lemma unique_keys_object (d : pydict) :
  unique_keys (JObj d) <->
  NoDup (map fst d) /\ Forall (fun kv => unique_keys (snd kv)) d.
Proof.
  simpl. apply and_iff_compat_l.
  induction d as [|kv d IH]; simpl.
  - split; [constructor | trivial].
  - rewrite IH. split.
    + intros [Hx Hd]. now constructor.
    + intros H. inversion H. now split.
Qed.

Lemma lookup_In {V : Type} (d : list (string * V)) (key : string) (v : V) :
  lookup d key = Some v -> In (key, v) d.
Proof.
  induction d as [|[k x] d IH]; simpl; [discriminate|].
  destruct (String.eqb k key) eqn:E.
  - apply String.eqb_eq in E. intros [= ->]. left. now subst.
  - intros H. right. auto.
Qed.

Lemma unique_keys_dict_get (d : pydict) (key : string) (default : json) :
  unique_keys (JObj d) -> unique_keys default ->
  unique_keys (dict_get d key default).
Proof.
  intros Hd Hdef. unfold dict_get.
  destruct (lookup d key) as [v|] eqn:E; [|assumption].
  apply unique_keys_object in Hd as [_ Hd].
  rewrite Forall_forall in Hd. apply (Hd _ (lookup_In _ _ _ E)).
Qed.

Lemma dict_set_keys {V : Type} (d : list (string * V)) (k : string) (v : V) :
  map fst (dict_set d k v)
  = if existsb (String.eqb k) (map fst d) then map fst d else map fst d ++ [k].
Proof.
  induction d as [|[k' v'] d IH]; simpl; [reflexivity|].
  rewrite (String.eqb_sym k k').
  destruct (String.eqb k' k) eqn:E; simpl; [reflexivity|].
  rewrite IH. now destruct (existsb _ _).
Qed.

Lemma dict_set_In {V : Type} (d : list (string * V)) (k : string) (v : V)
      (kv : string * V) :
  In kv (dict_set d k v) -> In kv d \/ snd kv = v.
Proof.
  induction d as [|[k' v'] d IH]; simpl.
  - intros [<-|[]]. now right.
  - destruct (String.eqb k' k); simpl.
    + intros [<-|H]; [now right | left; now right].
    + intros [<-|H]; [left; now left|].
      destruct (IH H); [left; now right | now right].
Qed.

Lemma unique_keys_dict_set (d : pydict) (k : string) (v : json) :
  unique_keys (JObj d) -> unique_keys v -> unique_keys (JObj (dict_set d k v)).
Proof.
  rewrite !unique_keys_object. intros [Hnd Hall] Hv. split.
  - rewrite dict_set_keys.
    destruct (existsb (String.eqb k) (map fst d)) eqn:E; [assumption|].
    apply NoDup_app; [assumption | repeat constructor; simpl; tauto |].
    intros x Hx [<-|[]].
    assert (existsb (String.eqb k) (map fst d) = true); [|congruence].
    apply existsb_exists. exists k. split; [assumption | apply String.eqb_refl].
  - apply Forall_forall. intros kv Hin.
    apply dict_set_In in Hin as [Hin| ->]; [|assumption].
    rewrite Forall_forall in Hall. now apply Hall.
Qed.

Ltac case_scrutinee H :=
  repeat match type of H with
         | context [match ?x with _ => _ end] =>
             destruct x eqn:?; try discriminate H
         | context [if ?x then _ else _] =>
             destruct x eqn:?; try discriminate H
         end.

Lemma parse_unique_keys (fuel : nat) :
  (forall s v r, Json.parse_value fuel s = Some (v, r) -> unique_keys v) /\
  (forall s acc v r,
      Forall unique_keys acc ->
      Json.parse_items fuel s acc = Some (v, r) -> unique_keys v) /\
  (forall s acc v r,
      unique_keys (JObj acc) ->
      Json.parse_members fuel s acc = Some (v, r) -> unique_keys v).
Proof.
  induction fuel as [|fuel [IHv [IHi IHm]]].
  - repeat split; intros; discriminate.
  - split; [|split].
    + intros s v r H. cbn [Json.parse_value] in H.
      destruct s as [|c t]; [discriminate|].
      case_scrutinee H;
        lazymatch type of H with
        | Some _ = Some _ =>
            injection H as <- _;
            first [exact I | simpl; split; [constructor | exact I]]
        | Json.parse_members _ _ _ = _ =>
            eapply IHm; [|exact H]; simpl; split; [constructor | exact I]
        | Json.parse_items _ _ _ = _ =>
            eapply IHi; [|exact H]; constructor
        end.
    + intros s acc v r Hacc H. cbn [Json.parse_items] in H.
      case_scrutinee H.
      * eapply IHi; [|exact H]. apply Forall_app. split; [assumption|].
        constructor; [|constructor]. eapply IHv; eauto.
      * injection H as <- _. apply unique_keys_array.
        apply Forall_app. split; [assumption|].
        constructor; [|constructor]. eapply IHv; eauto.
    + intros s acc v r Hacc H. cbn [Json.parse_members] in H.
      case_scrutinee H.
      * eapply IHm; [|exact H]. apply unique_keys_dict_set; [assumption|].
        eapply IHv; eauto.
      * injection H as <- _. apply unique_keys_dict_set; [assumption|].
        eapply IHv; eauto.
Qed.

(** A decoded value has no repeated key: a later member replaces an earlier
    one of the same name. *)
Lemma loads_unique_keys (s : string) (v : json) :
  Json.loads s = Some v -> unique_keys v.
Proof.
  unfold Json.loads. intros H. case_scrutinee H. injection H as <-.
  eapply (proj1 (parse_unique_keys _)); eauto.
Qed.

(** The call [json.loads] returns what [Json.loads] builds. *)
Lemma scan_int_ok (s : string) (n : N) (r : string) :
  Json.scan_int s = Ok (n, r) -> Json.scan_nat s = Some (n, r).
Proof.
  unfold Json.scan_int. destruct (Json.scan_nat s) as [[n' r']|]; [|discriminate].
  destruct (_ <? _)%nat; [discriminate|]. now intros [= <- <-].
Qed.

Lemma decode_value_parse (fuel : nat) :
  (forall s v r, Json.decode_value fuel s = Ok (v, r) ->
                 Json.parse_value fuel s = Some (v, r)) /\
  (forall s acc v r, Json.decode_items fuel s acc = Ok (v, r) ->
                     Json.parse_items fuel s acc = Some (v, r)) /\
  (forall s acc v r, Json.decode_members fuel s acc = Ok (v, r) ->
                     Json.parse_members fuel s acc = Some (v, r)).
Proof.
  induction fuel as [|fuel (IHv & IHi & IHm)].
  - repeat split; intros; discriminate.
  - split; [|split].
    + intros s v r. cbn [Json.decode_value Json.parse_value].
      destruct s as [|c t]; [discriminate|].
      repeat match goal with
             | |- context [if ?b then _ else _] => destruct b
             | |- context [match Json.scan_string ?x with _ => _ end] =>
                 destruct (Json.scan_string x) as [[? ?]|]
             | |- context [match Json.expect ?c ?x with _ => _ end] =>
                 destruct (Json.expect c x)
             end;
        try discriminate; try (intros [= <- <-]; reflexivity);
        try apply IHi; try apply IHm.
      * destruct (Json.scan_int t) as [[n r']|] eqn:E; [|discriminate].
        apply scan_int_ok in E. rewrite E. now intros [= <- <-].
      * destruct (Json.scan_int (String c t)) as [[n r']|] eqn:E; [|discriminate].
        apply scan_int_ok in E. rewrite E. now intros [= <- <-].
    + intros s acc v r. cbn [Json.decode_items Json.parse_items].
      destruct (Json.decode_value fuel s) as [[v' r']|] eqn:E; [|discriminate].
      rewrite (IHv _ _ _ E).
      destruct (Json.expect "," _); [apply IHi|].
      destruct (Json.expect "]" _); [|discriminate]. now intros [= <- <-].
    + intros s acc v r. cbn [Json.decode_members Json.parse_members].
      destruct (Json.expect Json.DQ s); [|discriminate].
      destruct (Json.scan_string _) as [[k r0]|]; [|discriminate].
      destruct (Json.expect ":" _); [|discriminate].
      destruct (Json.decode_value fuel _) as [[v' r']|] eqn:E; [|discriminate].
      rewrite (IHv _ _ _ E).
      destruct (Json.expect "," _); [apply IHm|].
      destruct (Json.expect "}" _); [|discriminate]. now intros [= <- <-].
Qed.

Lemma json_loads_loads (s : string) (v : json) :
  Json.json_loads s = Ok v -> Json.loads s = Some v.
Proof.
  unfold Json.json_loads, Json.loads.
  destruct (Json.decode_value _ _) as [[v' r]|] eqn:E; [|discriminate].
  rewrite (proj1 (decode_value_parse _) _ _ _ E).
  destruct (Json.skip_ws r); [|discriminate]. now intros [= <-].
Qed.

Lemma json_loads_unique_keys (s : string) (v : json) :
  Json.json_loads s = Ok v -> unique_keys v.
Proof. intros H. apply (loads_unique_keys s). now apply json_loads_loads. Qed.

(** ** From the analysis to its renderings *)

Lemma decoded_unique_keys (json_loads : string -> result json) (flow : pydict)
      (fd : json) :
  unique_keys (JObj flow) ->
  (forall s v, json_loads s = Ok v -> unique_keys v) ->
  decode_flow_data json_loads (flow_data_str flow) = Ok (Some fd) ->
  unique_keys fd.
Proof.
  intros Hflow Hdec Hfd. unfold decode_flow_data in Hfd.
  assert (Hs : unique_keys (flow_data_str flow))
    by now apply unique_keys_dict_get.
  destruct (flow_data_str flow) as [| | |s| |];
    try (injection Hfd as <-; assumption).
  destruct (json_loads s) as [v|e] eqn:E.
  - injection Hfd as <-. eapply Hdec; eauto.
  - destruct e; discriminate.
Qed.

Lemma py_iter_unique_keys (v : json) (items : list json) :
  unique_keys v -> py_iter v = Ok items -> Forall unique_keys items.
Proof.
  destruct v; simpl; try discriminate; intros Hv [= <-].
  - induction s; simpl; constructor; [exact I | assumption].
  - now apply unique_keys_array.
  - apply Forall_forall. intros x Hx. apply in_map_iff in Hx as [kv [<- _]].
    exact I.
Qed.






(** ** The nodes overview *)

(** *** The order of strings *)







(** *** Sorting by a total order *)

Section SortedByLe.

Context {A : Type} (le : A -> A -> bool).
Hypothesis le_total : forall x y, le x y = true \/ le y x = true.
Hypothesis le_trans : forall x y z, le x y = true -> le y z = true -> le x z = true.




End SortedByLe.




(** *** Grouping *)




Lemma lookup_keys {V : Type} (d : list (string * V)) (k : string) :
  In k (map fst d) <-> lookup d k <> None.
Proof.
  induction d as [|[k' v'] d IH]; simpl; [tauto|].
  destruct (String.eqb k' k) eqn:E.
  - apply String.eqb_eq in E. split; [discriminate | auto].
  - apply String.eqb_neq in E. rewrite <- IH. tauto.
Qed.












(** The names of the table are strings whose title is in the range of the
    model. *)
Lemma category_titles_in_range :
  Forall (fun c => title_in_range (replace_char "_" " " c) = true)
         (map fst category_headings).
Proof. repeat constructor. Qed.




(** ** [format_flow_list] *)

Lemma simplified_flow_dict (flow : pydict) :
  exists d, simplified_flow (JObj flow) = Ok d /\ JObj d = listed_fields flow
            /\ flow_lines d = listed_flow flow.
Proof.
  eexists. split; [reflexivity|]. split; [reflexivity|].
  unfold flow_lines, listed_flow, dict_get.
  cbn [lookup String.eqb Ascii.eqb Bool.eqb].
  now destruct (lookup flow "deployed"), (lookup flow "isPublic").
Qed.

Lemma map_each_simplified (flows : list pydict) :
  exists ds,
    map_each simplified_flow (map JObj flows) = Ok ds /\
    map JObj ds = map listed_fields flows /\
    flat_map flow_lines ds = flat_map listed_flow flows.
Proof.
  induction flows as [|f flows (ds & Hds & Hj & Hl)].
  - exists []. repeat split.
  - destruct (simplified_flow_dict f) as (d & Hd & Hdj & Hdl).
    exists (d :: ds). cbn [map map_each]. rewrite Hd. cbn [bind].
    rewrite Hds. cbn [bind]. repeat split.
    + cbn [map]. now rewrite Hdj, Hj.
    + cbn [flat_map]. now rewrite Hdl, Hl.
Qed.

Lemma listed_fields_unique_keys (flow : pydict) :
  unique_keys (JObj flow) -> unique_keys (listed_fields flow).
Proof.
  intros H. unfold listed_fields. cbn [unique_keys map fst snd fold_right].
  split; [distinct_keys|].
  repeat split; apply unique_keys_dict_get; try assumption; exact I.
Qed.



Lemma concat_head (sep x : string) (l : list string) :
  exists t, String.concat sep (x :: l) = (x ++ t)%string.
Proof.
  destruct l as [|y l]; simpl.
  - exists EmptyString. now rewrite JsonFacts.append_empty_r.
  - eauto.
Qed.

Lemma map_each_raises_on_strings {B : Type} (f : json -> result B)
      (x : json) (l : list json) :
  (forall s, f (JStr s) = Raise AttributeError) ->
  (exists s, x = JStr s) ->
  map_each f (x :: l) = Raise AttributeError.
Proof. intros Hf [s ->]. cbn [map_each]. now rewrite Hf. Qed.

(** X17: the text listing is the message [No flows found.] exactly when
    it is given an empty list (or an empty dict or string). *)
Theorem no_flows_message (flows : json) :
  format_flow_list flows MARKDOWN = Ok "No flows found."
  <-> flows = JArr [] \/ flows = JObj [] \/ flows = JStr EmptyString.
Proof.
  split.
  - unfold format_flow_list.
    destruct flows as [| b | n | s | items | d]; cbn [py_iter bind];
      try discriminate.
    + destruct s as [|c s]; [auto|]. cbn [chars].
      rewrite (map_each_raises_on_strings simplified_flow); eauto. discriminate.
    + destruct items as [|x items]; [auto|].
      destruct (map_each simplified_flow (x :: items)) as [ds|e];
        cbn [bind truthy negb]; [|discriminate].
      destruct (concat_head nl ("# Flowise Flows" ++ nl)%string
                  (flat_map flow_lines ds)) as [t ->].
      simpl. discriminate.
    + destruct d as [|kv d]; [auto|]. cbn [map].
      rewrite (map_each_raises_on_strings simplified_flow); eauto. discriminate.
  - intros [->|[->| ->]]; reflexivity.
Qed.


(** ** [format_flow_detail] *)


Lemma format_flow_detail_inv (json_loads : string -> result json)
      (flow : pydict) (fmt : ResponseFormat) (text : string) :
  format_flow_detail json_loads flow fmt = Ok text ->
  exists l, nodes_summary_of json_loads flow = Ok l /\
            text = detail_text flow l fmt.
Proof.
  unfold format_flow_detail. intros H. bind_inv H. exists x.
  split; [assumption|]. destruct fmt; now injection H as <-.
Qed.




Lemma summary_step_inv (acc acc' : list summary_node) (node : json) :
  summary_step acc node = Ok acc' ->
  exists e, acc' = acc ++ [e] /\ summary_describes node e.
Proof.
  unfold summary_step. intros H.
  bind_inv H. apply py_get_ok_inv in Hx as [nd [-> ->]].
  bind_inv H. cbn [py_get] in Hx. injection Hx as <-.
  bind_inv H. cbn [py_get] in Hx. injection Hx as <-.
  bind_inv H. apply py_get_ok_inv in Hx as [dd [Hdd ->]].
  bind_inv H. rewrite Hdd in Hx. cbn [py_get] in Hx. injection Hx as <-.
  bind_inv H. rewrite Hdd in Hx. cbn [py_get] in Hx. injection Hx as <-.
  bind_inv H. rewrite Hdd in Hx. cbn [py_get] in Hx. injection Hx as <-.
  injection H as <-. eexists. split; [reflexivity|].
  exists nd, dd. cbn [sn_id sn_type sn_label sn_category].
  repeat split; try assumption; unfold dict_get;
    now destruct (lookup dd _).
Qed.

Lemma summary_loop_inv (items : list json) (acc acc' : list summary_node) :
  for_each summary_step items acc = Ok acc' ->
  exists new, acc' = acc ++ new /\ Forall2 summary_describes items new.
Proof.
  revert acc. induction items as [|x items IH]; intros acc H.
  - injection H as <-. exists []. split; [now rewrite List.app_nil_r | constructor].
  - cbn [for_each] in H. bind_inv H.
    apply summary_step_inv in Hx as [e [-> He]].
    apply IH in H as [new [-> Hnew]].
    exists (e :: new). split; [now rewrite <- app_assoc | now constructor].
Qed.




Lemma nodes_summary_inv (json_loads : string -> result json)
      (flow : pydict) (l : list summary_node) :
  nodes_summary_of json_loads flow = Ok l ->
  (graph_unreadable json_loads flow /\ l = [])
  \/ exists fd items,
       decode_flow_data json_loads (flow_data_str flow) = Ok (Some (JObj fd)) /\
       py_iter (dict_get fd "nodes" (JArr [])) = Ok items /\
       Forall2 summary_describes items l.
Proof.
  unfold nodes_summary_of. intros H.
  destruct (decode_flow_data json_loads (flow_data_str flow))
    as [[fd|]|e0] eqn:Ed; cbn [bind] in H; [| |discriminate].
  - bind_inv H. apply py_get_ok_inv in Hx as [d [-> ->]].
    destruct (py_iter (dict_get d "nodes" (JArr []))) as [items|e] eqn:Eit.
    + right. apply summary_loop_inv in H as [new [-> Hnew]].
      exists d, items. auto.
    + left. destruct e; try discriminate. injection H as <-.
      split; [|reflexivity]. right. now exists d.
  - injection H as <-. left. split; [|reflexivity].
    left. now apply decode_caught_iff.
Qed.

(** X20: the nodes that [format_flow_detail] shows.  Whenever it returns,
    either the graph could not be read and no node is shown, or there is
    one entry per raw node, in order, with the type taken from the nested
    [type], else the node's own [type], else [Unknown]; the label from the
    nested [label], else the nested [name], else [Unnamed]; and the
    category from the nested [category], else [other]. *)
Theorem flow_detail_nodes (json_loads : string -> result json)
        (flow : pydict) (fmt : ResponseFormat) (text : string) :
  format_flow_detail json_loads flow fmt = Ok text ->
  (graph_unreadable json_loads flow /\ text = detail_text flow [] fmt)
  \/ exists fd items l,
       decode_flow_data json_loads (flow_data_str flow) = Ok (Some (JObj fd)) /\
       py_iter (dict_get fd "nodes" (JArr [])) = Ok items /\
       Forall2 summary_describes items l /\
       text = detail_text flow l fmt.
Proof.
  intros H. apply format_flow_detail_inv in H as [l [H ->]].
  apply nodes_summary_inv in H as [[H ->]|(fd & items & Hd & Hit & Hdesc)].
  - now left.
  - right. now exists fd, items, l.
Qed.

Lemma flow_detail_nodes_witness :
  (graph_unreadable Json.json_loads named_node_flow /\
   detail_text named_node_flow
     [mk_summary_node (JStr "n1") (JStr "ChatOpenAI") (JStr "chatOpenAI")
        (JStr "other")] MARKDOWN
   = detail_text named_node_flow [] MARKDOWN)
  \/ exists fd items l,
       decode_flow_data Json.json_loads (flow_data_str named_node_flow)
       = Ok (Some (JObj fd)) /\
       py_iter (dict_get fd "nodes" (JArr [])) = Ok items /\
       Forall2 summary_describes items l /\
       detail_text named_node_flow
         [mk_summary_node (JStr "n1") (JStr "ChatOpenAI") (JStr "chatOpenAI")
            (JStr "other")] MARKDOWN
       = detail_text named_node_flow l MARKDOWN.
Proof.
  apply (flow_detail_nodes Json.json_loads named_node_flow MARKDOWN).
  vm_compute. reflexivity.
Defined.





Lemma summary_values_ok (raw : json) (e : summary_node) :
  unique_keys raw -> summary_describes raw e ->
  unique_keys (summary_node_to_json e).
Proof.
  intros Hraw (node & data & -> & Hdata & Hid & Htype & Hlabel & Hcat).
  assert (Hd : unique_keys (JObj data)).
  { rewrite <- Hdata. apply unique_keys_dict_get; [assumption|].
    simpl. split; [constructor | exact I]. }
  unfold summary_node_to_json. cbn [unique_keys map fst snd fold_right].
  split; [distinct_keys|]. rewrite Hid, Htype, Hlabel, Hcat.
  repeat split.
  - now apply unique_keys_dict_get.
  - change (unique_keys (dict_get data "type" (dict_get node "type" (JStr "Unknown")))).
    apply unique_keys_dict_get; [assumption|]. now apply unique_keys_dict_get.
  - change (unique_keys (dict_get data "label" (dict_get data "name" (JStr "Unnamed")))).
    apply unique_keys_dict_get; [assumption|]. now apply unique_keys_dict_get.
  - now apply unique_keys_dict_get.
Qed.

(** X23: the JSON rendering of a flow's detail decodes to the dict that
    [format_flow_detail] built, for a flow whose dicts have distinct
    keys. *)
Theorem flow_detail_json_decodes (json_loads : string -> result json)
        (flow : pydict) (text : string) :
  unique_keys (JObj flow) ->
  (forall s v, json_loads s = Ok v -> unique_keys v) ->
  format_flow_detail json_loads flow JSON = Ok text ->
  exists l,
    text = Json.dumps (detailed_flow flow l) /\
    Json.loads text = Some (detailed_flow flow l).
Proof.
  intros Hflow Hdec H. apply format_flow_detail_inv in H as [l [H ->]].
  exists l. split; [reflexivity|]. cbn [detail_text].
  apply JsonFacts.loads_dumps.
  assert (Hl : Forall (fun n => unique_keys (summary_node_to_json n)) l).
  { apply nodes_summary_inv in H as [[_ ->]|(fd & items & Hd & Hit & Hdesc)];
      [constructor|].
    assert (Hfdu : unique_keys (JObj fd))
      by (eapply decoded_unique_keys; eauto).
    pose proof (py_iter_unique_keys _ _
                  (unique_keys_dict_get fd "nodes" (JArr []) Hfdu I) Hit) as Hitems.
    clear - Hitems Hdesc.
    induction Hdesc as [|raw e items l Hd _ IH]; [constructor|].
    inversion Hitems; subst. constructor; [|auto].
    now apply (summary_values_ok raw). }
  unfold detailed_flow. cbn [unique_keys map fst snd fold_right].
  split; [distinct_keys|].
  repeat split; try (apply unique_keys_dict_get; [assumption | exact I]).
  now apply (unique_keys_map summary_node_to_json).
Qed.

Lemma flow_detail_json_decodes_witness :
  exists text l,
    format_flow_detail Json.json_loads named_node_flow JSON = Ok text /\
    Json.loads text = Some (detailed_flow named_node_flow l).
Proof.
  assert (exists text, format_flow_detail Json.json_loads named_node_flow JSON = Ok text)
    as [text Ht] by (eexists; vm_compute; reflexivity).
  destruct (flow_detail_json_decodes Json.json_loads named_node_flow text)
    as [l [_ Hl]].
  - simpl. split; [distinct_keys | repeat split].
  - exact json_loads_unique_keys.
  - exact Ht.
  - now exists text, l.
Defined.

(** ** The validators and the analyser *)

(** X24: the validators of [flow_data] and the analyser on the same graph
    text.  A text that the validators accept is never reported as corrupted
    by [analyze_flow_data].  A text that they reject, which they do with
    their own message when the decoder raises [JSONDecodeError], always is.
    Any other exception of the decoder passes through the validators and
    is raised by the analyser as well, except a [TypeError], which the
    analyser reports as a corrupted graph. *)
Theorem validator_matches_analysis (json_loads : string -> result json)
        (v : string) (flow : pydict) (goal : option string) :
  lookup flow "flowData" = Some (JStr v) ->
  match CreateFlowInput.validate_flow_data json_loads v with
  | Valid v' =>
      v' = v /\
      UpdateFlowInput.validate_flow_data json_loads (Some v) = Valid (Some v) /\
      forall a, analyze_flow_data json_loads flow goal = Ok a ->
                potential_issues a = []
  | RaiseValueError message =>
      message = "flow_data must be a valid JSON string" /\
      json_loads v = Raise JSONDecodeError /\
      UpdateFlowInput.validate_flow_data json_loads (Some v)
      = RaiseValueError message /\
      exists a, analyze_flow_data json_loads flow goal = Ok a /\
                potential_issues a = [corrupted_issue]
  | Propagated e =>
      json_loads v = Raise e /\
      UpdateFlowInput.validate_flow_data json_loads (Some v) = Propagated e /\
      match e with
      | TypeError =>
          exists a, analyze_flow_data json_loads flow goal = Ok a /\
                    potential_issues a = [corrupted_issue]
      | _ => analyze_flow_data json_loads flow goal = Raise e
      end
  end.
Proof.
  intros Hv.
  assert (Hs : flow_data_str flow = JStr v).
  { unfold flow_data_str, dict_get. now rewrite Hv. }
  unfold CreateFlowInput.validate_flow_data, UpdateFlowInput.validate_flow_data.
  destruct (json_loads v) as [x|e] eqn:E.
  - repeat split. intros a Ha.
    apply analyze_ok_inv in Ha as [[Hf _]|Ha].
    + destruct Hf as (s & e & Hs' & He & _). rewrite Hs in Hs'.
      injection Hs' as <-. congruence.
    + destruct Ha as (fd & ns & es & items & cats & entries & n1 & n2 &
                      _ & _ & _ & _ & _ & _ & _ & ->). reflexivity.
  - destruct e; repeat split;
      unfold analyze_flow_data, decode_flow_data; rewrite Hs, E;
      try reflexivity; eexists; split; reflexivity.
Qed.

Lemma validator_matches_analysis_witness :
  (exists a, analyze_flow_data Json.json_loads corrupted_flow None = Ok a /\
             potential_issues a = [corrupted_issue]) /\
  CreateFlowInput.validate_flow_data Json.json_loads long_number
  = Propagated ValueError /\
  analyze_flow_data Json.json_loads long_number_flow None = Raise ValueError.
Proof.
  split.
  - apply (validator_matches_analysis Json.json_loads "invalid json {"
             corrupted_flow None).
    reflexivity.
  - assert (Hv : CreateFlowInput.validate_flow_data Json.json_loads long_number
                 = Propagated ValueError) by (vm_compute; reflexivity).
    split; [exact Hv|].
    pose proof (validator_matches_analysis Json.json_loads long_number
                  long_number_flow None eq_refl) as H.
    rewrite Hv in H. apply H.
Defined.

(** X25: a graph text that is valid JSON but not an object passes the
    validator, and makes both [analyze_flow_data] and [format_flow_detail]
    raise [AttributeError]. *)
Theorem accepted_graph_can_fail_analysis (json_loads : string -> result json)
        (v : string) (x : json) (flow : pydict) (goal : option string)
        (fmt : ResponseFormat) :
  lookup flow "flowData" = Some (JStr v) ->
  json_loads v = Ok x ->
  (forall d, x <> JObj d) ->
  CreateFlowInput.validate_flow_data json_loads v = Valid v /\
  analyze_flow_data json_loads flow goal = Raise AttributeError /\
  format_flow_detail json_loads flow fmt = Raise AttributeError.
Proof.
  intros Hv Hx Hnot.
  assert (Hs : flow_data_str flow = JStr v).
  { unfold flow_data_str, dict_get. now rewrite Hv. }
  split; [|split].
  - unfold CreateFlowInput.validate_flow_data. now rewrite Hx.
  - unfold analyze_flow_data, decode_flow_data. rewrite Hs, Hx.
    destruct x; try reflexivity. now destruct (Hnot fields).
  - unfold format_flow_detail, nodes_summary_of, decode_flow_data.
    rewrite Hs, Hx.
    destruct x; try reflexivity. now destruct (Hnot fields).
Qed.

Lemma accepted_graph_can_fail_analysis_witness :
  CreateFlowInput.validate_flow_data Json.json_loads "[]" = Valid "[]" /\
  analyze_flow_data Json.json_loads [("flowData", JStr "[]")] (Some "faster")
  = Raise AttributeError /\
  format_flow_detail Json.json_loads [("flowData", JStr "[]")] JSON
  = Raise AttributeError.
Proof.
  apply (accepted_graph_can_fail_analysis Json.json_loads "[]" (JArr [])
           [("flowData", JStr "[]")] (Some "faster") JSON).
  - reflexivity.
  - vm_compute. reflexivity.
  - discriminate.
Defined.

(** ** The client *)

Section ClientFacts.
Import Client.

Variable float : Type.
Variable float_of_string : string -> option float.
Variable environ : string -> option string.
Variable send : request float -> outcome response.

Lemma translate_raised {A : Type} (o : outcome A) (e : exception) :
  translate o = Raised e ->
  exists class_name message, e = Exception class_name message.
Proof.
  destruct o as [a|[status text m|m|m|c m]]; simpl; intros [= <-]; eauto.
Qed.

Lemma make_api_request_raised (endpoint method : string)
      (data params : option pydict) (e : exception) :
  make_api_request float float_of_string environ send endpoint method data params
  = Raised e ->
  exists class_name message, e = Exception class_name message.
Proof.
  unfold make_api_request, get_config.
  destruct (float_of_string _); [|intros [= <-]; eauto].
  apply translate_raised.
Qed.

(** X26: every exception that [make_api_request] raises reaches the last
    branch of [handle_api_error], whose message is the class name and the
    text of the exception.  In particular a response with an error status
    is reported as [FlowiseClientError] with the status and the body, for
    every status: the messages that [handle_api_error] has for 401, 403,
    404, 429 and 5xx are not used for it. *)
Theorem api_errors_get_the_generic_message (endpoint method : string)
        (data params : option pydict) :
  (forall e,
      make_api_request float float_of_string environ send endpoint method
        data params = Raised e ->
      exists class_name message,
        e = Exception class_name message /\
        handle_api_error e = ("Error: " ++ class_name ++ ": " ++ message)%string) /\
  (forall config status text message,
      get_config float float_of_string environ = Returned config ->
      send (api_request float config endpoint method data params)
      = Raised (HTTPStatusError status text message) ->
      exists e,
        make_api_request float float_of_string environ send endpoint method
          data params = Raised e /\
        handle_api_error e
        = ("Error: FlowiseClientError: API request failed with status "
             ++ str_of_Z status ++ ": " ++ text)%string).
Proof.
  split.
  - intros e H.
    destruct (make_api_request_raised _ _ _ _ _ H) as [c [m ->]]. eauto.
  - intros config status text message Hc Hsend.
    unfold make_api_request. rewrite Hc, Hsend. simpl.
    eexists. split; reflexivity.
Qed.

End ClientFacts.

Lemma api_errors_get_the_generic_message_witness :
  exists e,
    Client.make_api_request unit (fun _ => Some tt) (fun _ => None) refusing
      "chatflows" "GET" None None = Client.Raised e /\
    Client.handle_api_error e
    = "Error: FlowiseClientError: API request failed with status 401: Unauthorized".
Proof.
  apply (proj2 (api_errors_get_the_generic_message unit (fun _ => Some tt)
                  (fun _ => None) refusing "chatflows" "GET" None None)
           (Client.mk_config unit "http://localhost:3000" "" tt) 401%Z "Unauthorized"
           "Client error '401 Unauthorized' for url 'http://localhost:3000/api/v1/chatflows'");
    reflexivity.
Defined.

(** ** The tools *)

Lemma handle_api_error_prefix (e : Client.exception) :
  starts_with "Error: " (Client.handle_api_error e) = true.
Proof.
  destruct e as [status text m|m|m|c m]; simpl; try reflexivity.
  repeat match goal with |- context [if ?b then _ else _] => destruct b end;
    reflexivity.
Qed.

Lemma concat_hash_no_prefix (sep x : string) (l : list string) :
  starts_with "Error: " (String.concat sep (String "#" x :: l)) = false.
Proof. destruct l; reflexivity. Qed.

Lemma format_analysis_no_prefix (a : analysis) (fmt : ResponseFormat) :
  starts_with "Error: " (format_analysis a fmt) = false.
Proof.
  destruct fmt; [|reflexivity].
  unfold format_analysis. cbn [List.app]. apply concat_hash_no_prefix.
Qed.

Lemma format_flow_list_no_prefix (flows : json) (fmt : ResponseFormat)
      (text : string) :
  format_flow_list flows fmt = Ok text -> starts_with "Error: " text = false.
Proof.
  unfold format_flow_list. intros H. bind_inv H. bind_inv H.
  destruct fmt.
  - destruct (negb (truthy flows)); injection H as <-; [reflexivity|].
    destruct (flat_map flow_lines x0); reflexivity.
  - injection H as <-. unfold Json.dumps.
    destruct x0; reflexivity.
Qed.

Lemma detail_text_no_prefix (flow : pydict) (l : list summary_node)
      (fmt : ResponseFormat) :
  starts_with "Error: " (detail_text flow l fmt) = false.
Proof.
  destruct fmt; [|reflexivity].
  unfold detail_text, detail_lines. cbn [List.app]. apply concat_hash_no_prefix.
Qed.

Lemma caught_prefix (api : Client.outcome json) (body : json -> result string)
      (str_e : string) :
  (forall v text, body v = Ok text -> starts_with "Error: " text = false) ->
  starts_with "Error: "
    match api with
    | Client.Raised e => Client.handle_api_error e
    | Client.Returned v => Server.caught (body v) str_e
    end = true
  <-> tool_failed api body.
Proof.
  intros Hbody. unfold tool_failed. destruct api as [v|e].
  - destruct (body v) as [text|e] eqn:E; cbn [Server.caught].
    + rewrite (Hbody v text E). split; [discriminate|].
      intros [[e H]|(v' & e & H & H')]; [discriminate|].
      injection H as <-. congruence.
    + rewrite handle_api_error_prefix. split; [|reflexivity].
      intros _. right. now exists v, e.
  - rewrite handle_api_error_prefix. split; [|reflexivity].
    intros _. left. now exists e.
Qed.

Section ServerFacts.
Import Client Server.

Variable float : Type.
Variable float_of_string : string -> option float.
Variable environ : string -> option string.
Variable send : request float -> outcome response.
Variable json_loads : string -> result json.

Local Abbreviation get := (Server.get float float_of_string environ send).

(** X27: the prefix [Error: ] is a reliable sign of failure.  The text that
    [flowise_list_flows], [flowise_get_flow] and [flowise_analyze_flow]
    return starts with it if and only if the request raised or the
    formatting of its result did. *)
Theorem tools_flag_failure (str_e : string) :
  (forall params,
      starts_with "Error: "
        (flowise_list_flows float float_of_string environ send params str_e) = true
      <-> tool_failed (get "chatflows") (list_flows_text params)) /\
  (forall params,
      starts_with "Error: "
        (flowise_get_flow float float_of_string environ send json_loads
           params str_e) = true
      <-> tool_failed (get ("chatflows/" ++ GetFlowInput.flow_id params))
            (get_flow_text json_loads params)) /\
  (forall params,
      starts_with "Error: "
        (flowise_analyze_flow float float_of_string environ send json_loads
           params str_e) = true
      <-> tool_failed (get ("chatflows/" ++ AnalyzeFlowInput.flow_id params))
            (analyze_flow_text json_loads params)).
Proof.
  split; [|split]; intros params.
  - apply caught_prefix. intros v text H. unfold list_flows_text in H.
    bind_inv H. eapply format_flow_list_no_prefix; eauto.
  - apply caught_prefix. intros v text H. unfold get_flow_text in H.
    bind_inv H. apply format_flow_detail_inv in H as [l [_ ->]].
    apply detail_text_no_prefix.
  - apply caught_prefix. intros v text H. unfold analyze_flow_text in H.
    bind_inv H. bind_inv H. injection H as <-.
    apply format_analysis_no_prefix.
Qed.

Lemma filter_each_type_is (value : string) (flows : list pydict) :
  filter_each (type_is value) (map JObj flows)
  = Ok (map JObj (filter (has_type value) flows)).
Proof.
  induction flows as [|f flows IH]; [reflexivity|].
  cbn [map filter_each filter]. unfold type_is at 1. cbn [py_get bind].
  rewrite IH. cbn [bind].
  assert (E : match dict_get f "type" JNull with
              | JStr s => String.eqb s value
              | _ => false
              end = has_type value f).
  { unfold has_type, dict_get.
    destruct (lookup f "type") as [v|]; [destruct v|]; reflexivity. }
  rewrite E. now destruct (has_type value f).
Qed.

(** X28: with a flow type given, the JSON output of [flowise_list_flows]
    decodes to the listed fields of exactly the flows whose [type] field is
    that type; a flow without a [type] field is left out, although the
    listing shows such a flow as [CHATFLOW]. *)
Theorem list_flows_filter (params : ListFlowsInput.t) (t : FlowType)
        (flows : list pydict) (str_e : string) :
  ListFlowsInput.flow_type params = Some t ->
  ListFlowsInput.response_format params = JSON ->
  get "chatflows" = Returned (JArr (map JObj flows)) ->
  Forall (fun flow => unique_keys (JObj flow)) flows ->
  Json.loads (flowise_list_flows float float_of_string environ send params str_e)
  = Some (JArr (map listed_fields
                  (filter (has_type (FlowType_value t)) flows))).
Proof.
  intros Ht Hfmt Hget Hu.
  unfold flowise_list_flows. rewrite Hget.
  unfold list_flows_text. rewrite Ht, Hfmt. cbn [py_iter bind].
  rewrite filter_each_type_is. cbn [bind].
  destruct (map_each_simplified (filter (has_type (FlowType_value t)) flows))
    as (ds & Hds & Hj & _).
  unfold format_flow_list. cbn [py_iter bind]. rewrite Hds. cbn [bind caught].
  rewrite Hj. apply JsonFacts.loads_dumps. apply unique_keys_map.
  apply Forall_forall. intros f Hf. apply filter_In in Hf as [Hf _].
  rewrite Forall_forall in Hu. apply listed_fields_unique_keys. auto.
Qed.


End ServerFacts.

Lemma list_flows_filter_witness :
  Json.loads
    (Server.flowise_list_flows unit (fun _ => Some tt) (fun _ => None) serving
       (ListFlowsInput.mk (Some CHATFLOW) JSON) EmptyString)
  = Some (JArr []).
Proof.
  apply (list_flows_filter unit (fun _ => Some tt) (fun _ => None) serving
           (ListFlowsInput.mk (Some CHATFLOW) JSON) CHATFLOW two_flows EmptyString).
  - reflexivity.
  - reflexivity.
  - reflexivity.
  - repeat constructor; simpl; intuition discriminate.
Defined.

(** ** The resources *)

Lemma emit_flat_error (message : string) :
  Server.emit_flat (JObj [("error", JStr message)])
  = String "{" (String Json.DQ ("error" ++ String Json.DQ (": " ++
      String Json.DQ (Json.escape message ++ String Json.DQ "}")))).
Proof.
  cbn [Server.emit_flat Json.join_tail fst snd].
  replace (Json.quote "error")
    with (String Json.DQ ("error" ++ String Json.DQ EmptyString))
    by reflexivity.
  unfold Json.quote, Json.str1.
  cbn [append]. rewrite !JsonFacts.append_assoc. reflexivity.
Qed.

Lemma skip_ws_quote (t : string) :
  Json.skip_ws (String Json.DQ t) = String Json.DQ t.
Proof. reflexivity. Qed.

Lemma parse_error_object (fuel : nat) (message : string) :
  Json.parse_value (S (S (S fuel)))
    (String "{" (String Json.DQ ("error" ++ String Json.DQ (": " ++
       String Json.DQ (Json.escape message ++ String Json.DQ "}")))))
  = Some (JObj [("error", JStr message)], EmptyString).
Proof.
  cbn [Json.parse_value].
  change (Ascii.eqb "{" Json.DQ) with false.
  change (Ascii.eqb "{" "{") with true. cbv iota.
  rewrite skip_ws_quote.
  change (Json.expect "}" (String Json.DQ ?t)) with (@None string). cbv iota.
  cbn [Json.parse_members]. rewrite JsonFacts.expect_head.
  change "error" with (Json.escape "error") at 1.
  rewrite JsonFacts.scan_escape.
  cbn [append Json.skip_ws]. change (Json.is_ws ":") with false. cbv iota.
  rewrite JsonFacts.expect_head.
  cbn [Json.skip_ws]. change (Json.is_ws " ") with true.
  change (Json.is_ws Json.DQ) with false. cbv iota.
  cbn [Json.parse_value]. rewrite Ascii.eqb_refl, JsonFacts.scan_escape.
  reflexivity.
Qed.

Lemma loads_error_object (message : string) :
  Json.loads (Server.emit_flat (JObj [("error", JStr message)]))
  = Some (JObj [("error", JStr message)]).
Proof.
  rewrite emit_flat_error. unfold Json.loads.
  change (Json.skip_ws (String "{" ?t)) with (String "{" t).
  cbn [String.length].
  now rewrite parse_error_object.
Qed.

Section ResourceFacts.
Import Client Server.

Variable float : Type.
Variable float_of_string : string -> option float.
Variable environ : string -> option string.
Variable send : request float -> outcome response.

Local Abbreviation get := (Server.get float float_of_string environ send).

(** X29: the two resources always return JSON text.  When the request
    returns, the text decodes to what it returned; when it raises, the text
    decodes to a dict whose only key, [error], holds the message of the
    exception. *)
Theorem resources_return_json (flow_id : string) :
  match get "chatflows" with
  | Returned flows =>
      unique_keys flows ->
      Json.loads (list_all_flows float float_of_string environ send) = Some flows
  | Raised e =>
      Json.loads (list_all_flows float float_of_string environ send)
      = Some (JObj [("error", JStr (str_of_exception e))])
  end /\
  match get ("chatflows/" ++ flow_id) with
  | Returned flow =>
      unique_keys flow ->
      Json.loads (get_flow_resource float float_of_string environ send flow_id)
      = Some flow
  | Raised e =>
      Json.loads (get_flow_resource float float_of_string environ send flow_id)
      = Some (JObj [("error", JStr (str_of_exception e))])
  end.
Proof.
  unfold list_all_flows, get_flow_resource. split.
  - destruct (get "chatflows") as [flows|e].
    + apply JsonFacts.loads_dumps.
    + apply loads_error_object.
  - destruct (get ("chatflows/" ++ flow_id)) as [flow|e].
    + apply JsonFacts.loads_dumps.
    + apply loads_error_object.
Qed.

End ResourceFacts.

Lemma resources_return_json_witness :
  Json.loads
    (Server.list_all_flows unit (fun _ => Some tt) (fun _ => None) refusing)
  = Some (JObj [("error",
                 JStr "API request failed with status 401: Unauthorized")]).
Proof.
  exact (proj1 (resources_return_json unit (fun _ => Some tt) (fun _ => None)
                  refusing EmptyString)).
Defined.

(** ** The prediction tool *)

Lemma lookup_dict_set {V : Type} (d : list (string * V)) (k k' : string) (v : V) :
  lookup (dict_set d k v) k' = if String.eqb k k' then Some v else lookup d k'.
Proof.
  induction d as [|[k0 v0] d IH]; simpl.
  - reflexivity.
  - destruct (String.eqb k0 k) eqn:E0; simpl.
    + apply String.eqb_eq in E0. subst k0.
      now destruct (String.eqb k k').
    + destruct (String.eqb k0 k') eqn:E1; [|exact IH].
      apply String.eqb_eq in E1. subst k0.
      rewrite String.eqb_sym in E0. now rewrite E0.
Qed.

Lemma lookup_absent {V : Type} (d : list (string * V)) (k : string) :
  ~ In k (map fst d) -> lookup d k = None.
Proof.
  intros H. destruct (lookup d k) eqn:E; [|reflexivity].
  exfalso. apply H. apply lookup_keys. congruence.
Qed.

Lemma lookup_dict_update (other d : pydict) (k : string) :
  NoDup (map fst other) ->
  lookup (Server.dict_update d other) k
  = match lookup other k with
    | Some v => Some v
    | None => lookup d k
    end.
Proof.
  unfold Server.dict_update. revert d.
  induction other as [|[k0 v0] other IH]; intros d Hnd; [reflexivity|].
  apply NoDup_cons_iff in Hnd as [Hnot Hnd]. cbn [fold_left fst snd lookup].
  rewrite (IH _ Hnd), lookup_dict_set.
  destruct (String.eqb k0 k) eqn:E.
  - apply String.eqb_eq in E. subst k0. now rewrite (lookup_absent other k Hnot).
  - reflexivity.
Qed.

Lemma dict_set_not_empty {V : Type} (d : list (string * V)) (k : string) (v : V) :
  dict_set d k v <> [].
Proof. destruct d as [|[k0 v0] d]; simpl; [|destruct (String.eqb k0 k)]; discriminate. Qed.

Lemma dict_update_not_empty (d other : pydict) :
  d <> [] \/ other <> [] -> Server.dict_update d other <> [].
Proof.
  unfold Server.dict_update. revert d.
  induction other as [|[k0 v0] other IH]; intros d H.
  - destruct H; [assumption | congruence].
  - cbn [fold_left]. apply IH. left. apply dict_set_not_empty.
Qed.

(** X30: the overrides that [flowise_predict] sends.  They are the overrides
    given with the input together with the session id under [sessionId]; a
    [sessionId] among the given overrides wins over the session id; and
    the request carries no [overrideConfig] at all exactly when there is
    neither a session id nor a given override. *)
Theorem predict_overrides (params : PredictionInput.t) :
  NoDup (map fst (given_overrides params)) ->
  match lookup (Server.predict_payload params) "overrideConfig" with
  | Some sent =>
      exists overrides,
        sent = JObj overrides /\ overrides <> [] /\
        forall key,
          lookup overrides key
          = match lookup (given_overrides params) key with
            | Some v => Some v
            | None => lookup (session_entry params) key
            end
  | None => given_overrides params = [] /\ session_entry params = []
  end.
Proof.
  intros Hnd. unfold Server.predict_payload.
  set (payload := if PredictionInput.streaming params then _ else _).
  assert (Hp : lookup payload "overrideConfig" = None).
  { subst payload. now destruct (PredictionInput.streaming params). }
  set (session := match PredictionInput.session_id params with
                  | Some s => _
                  | None => _
                  end).
  assert (Hs : session = session_entry params).
  { subst session. unfold session_entry.
    destruct (PredictionInput.session_id params) as [s|]; [|reflexivity].
    now destruct (truthy (JStr s)). }
  clearbody session. subst session.
  set (overrides := match PredictionInput.override_config params with
                    | Some given => _
                    | None => _
                    end).
  assert (Ho : overrides
               = Server.dict_update (session_entry params) (given_overrides params)).
  { subst overrides. unfold given_overrides.
    destruct (PredictionInput.override_config params) as [[|kv given]|];
      reflexivity. }
  clearbody overrides. subst overrides.
  destruct (Server.dict_update (session_entry params) (given_overrides params))
    as [|kv rest] eqn:E.
  - cbn [truthy]. rewrite Hp.
    destruct (given_overrides params) as [|g given] eqn:Eg.
    + split; [reflexivity|]. exact E.
    + exfalso. revert E. apply dict_update_not_empty. right. discriminate.
  - cbn [truthy]. rewrite lookup_dict_set, String.eqb_refl.
    exists (kv :: rest). split; [reflexivity|]. split; [discriminate|].
    intros key. rewrite <- E. now apply lookup_dict_update.
Qed.

Lemma predict_overrides_witness :
  exists overrides,
    lookup (Server.predict_payload session_twice) "overrideConfig"
    = Some (JObj overrides) /\
    lookup overrides "sessionId" = Some (JStr "s2").
Proof.
  pose proof (predict_overrides session_twice) as H.
  destruct (lookup (Server.predict_payload session_twice) "overrideConfig")
    as [sent|] eqn:E.
  - destruct H as [overrides [-> [_ H]]].
    + simpl. repeat constructor; simpl; intuition discriminate.
    + exists overrides. split; [reflexivity|]. now rewrite H.
  - vm_compute in E. discriminate.
Defined.
